(** * Dolmenwood system for Foundry VTT: sheet logic and data-model rules

    A shallow embedding of the computational parts of
    - [module/utils/choices.js] together with the data models that follow it
      in the same source file ([AdventurerDataModel] and the item models),
    - the actor sheet controller [DolmenSheet],
    - the item sheet controller [DolmenItemSheet],
    and the properties the specification states about them.

    Conventions of the embedding.
    - Arithmetic is that of JavaScript: IEEE 754 binary64 with
      round-to-nearest-even, through the executable specification of
      [SpecFloat]; a [Number] is a [spec_float] at precision 53 and maximal
      exponent 1024, and it is printed as [Number::toString] prints it.
    - Document fields declared [integer: true] in the schema are stored as
      [Z]; the source reads them as the Numbers of these integers
      ([JS.of_Z]), and its sums, differences and comparisons are those of
      Numbers, which are exact for integers of magnitude up to 2^53.
    - Text typed into form inputs is a [string] of code units below 256.
    - The host (Foundry) is represented by what the code observes of it:
      [localize], the [CONFIG.DOLMENWOOD] constants, the die results of an
      evaluated roll are parameters; notifications, dialogs, context menus,
      chat messages and document updates are recorded in explicit state. *)

From Stdlib Require Import ZArith Lia List Bool Ascii String.
From Stdlib Require Import Numbers.DecimalString Numbers.DecimalPos Floats.SpecFloat.
From stdpp Require Import base option list gmap strings.

Local Open Scope Z_scope.

(** ** JavaScript numbers, strings and the built-ins the source calls *)

Module JS.

(** *** Numbers: IEEE 754 binary64 *)

Definition Number : Type := spec_float.

Definition prec : Z := 53.
Definition emax : Z := 1024.

Definition NaN : Number := S754_nan.

(** The Number nearest to an integer (ties to even); exact below 2^53. *)
Definition of_Z (z : Z) : Number := binary_normalize prec emax z 0 false.

Definition add : Number -> Number -> Number := SFadd prec emax.
Definition sub : Number -> Number -> Number := SFsub prec emax.
Definition mul : Number -> Number -> Number := SFmul prec emax.
Definition div : Number -> Number -> Number := SFdiv prec emax.

(** A decimal literal [n / d] denotes the Number nearest to that rational,
    which is what correctly rounded division of the two integers yields. *)
Definition literal (n d : Z) : Number := div (of_Z n) (of_Z d).

Definition signed (s : bool) (m : positive) : Z :=
  if s then Z.neg m else Z.pos m.

(** [floor (v / 2^k)] and [v * 2^k] as shifts, for [0 <= k]. *)
Definition floor_div_pow2 (v k : Z) : Z := Z.shiftr v k.
Definition mul_pow2 (v k : Z) : Z := Z.shiftl v k.

(** The integer a Number denotes, when it is finite and integral. *)
Definition to_Z (x : Number) : option Z :=
  match x with
  | S754_zero _ => Some 0
  | S754_finite s m e =>
      if 0 <=? e then Some (mul_pow2 (signed s m) e)
      else
        let q := floor_div_pow2 (signed s m) (- e) in
        if mul_pow2 q (- e) =? signed s m then Some q else None
  | _ => None
  end.

(** [Math.floor]: the greatest integral Number not above [x]. *)
Definition Math_floor (x : Number) : Number :=
  match x with
  | S754_finite s m e =>
      if 0 <=? e then x
      else
        let q := floor_div_pow2 (signed s m) (- e) in
        if q =? 0 then S754_zero s else of_Z q
  | _ => x
  end.

(** [Math.round]: the integral Number closest to [x], ties towards
    positive infinity; a result of zero keeps the sign of [x]. *)
Definition Math_round (x : Number) : Number :=
  match x with
  | S754_finite s m e =>
      if 0 <=? e then x
      else
        let q := floor_div_pow2 (2 * signed s m + mul_pow2 1 (- e)) (- e + 1) in
        if q =? 0 then S754_zero s else of_Z q
  | _ => x
  end.

(** The remainder operator [x % y]: exact, truncating, sign of the
    dividend. *)
Definition rem (x y : Number) : Number :=
  match x, y with
  | S754_nan, _ | _, S754_nan => S754_nan
  | S754_infinity _, _ => S754_nan
  | _, S754_zero _ => S754_nan
  | _, S754_infinity _ => x
  | S754_zero _, _ => x
  | S754_finite sx mx ex, S754_finite _ my ey =>
      let e := Z.min ex ey in
      let r := (mul_pow2 (Z.pos mx) (ex - e)) mod (mul_pow2 (Z.pos my) (ey - e)) in
      binary_normalize prec emax (if sx then - r else r) e sx
  end.

(** [Math.abs], and the comparisons [x < y] and [x <= y] (so that [y > x]
    is [lt x y] and [y >= x] is [le x y]); a comparison with NaN is false. *)
Definition abs : Number -> Number := SFabs.
Definition lt : Number -> Number -> bool := SFltb.
Definition le : Number -> Number -> bool := SFleb.

(** Truthiness of a Number, and [x || d]. *)
Definition falsy (x : Number) : bool :=
  match x with
  | S754_nan | S754_zero _ => true
  | _ => false
  end.

Definition or_else (x d : Number) : Number := if falsy x then d else x.

(** [x || d] on an integer field: 0 is the only falsy integer. *)
Definition or_elseZ (x d : Z) : Z := if x =? 0 then d else x.

(** *** Number to string *)

(** Decimal digits of an integer, with a leading minus sign if negative. *)
Definition decimal (z : Z) : string := NilZero.string_of_int (Z.to_int z).

(** [Number::toString] (radix 10).  For a positive finite Number [x] it
    takes the integers [n], [k] and [s] with [k >= 1],
    [10^(k-1) <= s < 10^k] and [s * 10^(n-k)] rounding to [x], with [k]
    as small as possible and, of the [s] possible, the one whose value is
    closest to [x]. *)

Section Digits.

(** [x = m * 2^e], positive. *)
Variable m : positive.
Variable e : Z.

(** [x] and the two ends of the interval of the reals that round to [x],
    in units of [2^(e-2)]: half way to the next Number above, and half way
    to the next Number below, which is nearer when [x] is a power of 2. *)
Definition here : Z := 4 * Z.pos m.
Definition upper : Z := 4 * Z.pos m + 2.
Definition lower : Z :=
  if (Z.pos m =? 2 ^ (prec - 1)) && (emin prec emax <? e)
  then 4 * Z.pos m - 1 else 4 * Z.pos m - 2.

(** [s * 10^p] and [b * 2^(e-2)] over a common denominator. *)
Definition decimal_side (s p : Z) : Z := s * 10 ^ Z.max p 0 * 2 ^ Z.max (- (e - 2)) 0.
Definition binary_side (b p : Z) : Z := b * 2 ^ Z.max (e - 2) 0 * 10 ^ Z.max (- p) 0.

(** [s * 10^p] rounds to [x]: ties go to the even mantissa. *)
Definition rounds_here (s p : Z) : bool :=
  if Z.even (Z.pos m)
  then (binary_side lower p <=? decimal_side s p) && (decimal_side s p <=? binary_side upper p)
  else (binary_side lower p <? decimal_side s p) && (decimal_side s p <? binary_side upper p).

(** [floor (x / 10^p)] *)
Definition scaled (p : Z) : Z := binary_side here p / decimal_side 1 p.

(** The [n0] with [10^(n0-1) <= x < 10^n0]: the least [n] with
    [x < 10^n], searched upwards from an [n] below it, which the position
    of the leading bit of [x] gives ([log10 2] is just below 0.30103). *)
Fixpoint least_power_above (fuel : nat) (n : Z) : Z :=
  match fuel with
  | O => n
  | S fuel' => if scaled n =? 0 then n else least_power_above fuel' (n + 1)
  end.

Definition magnitude : Z :=
  let bits := Z.pos (digits2_pos m) + e in
  least_power_above 8 ((bits - 1) * 30103 / 100000 - 1).

(** The digits [s] and the exponent [p] of the shortest [s * 10^p] that
    rounds to [x], trying [k = 1, 2, ...] digits before the point at
    [n0]. *)
Fixpoint shortest (fuel : nat) (n0 k : Z) : Z * Z :=
  let p := n0 - k in
  let lo := scaled p in
  let hi := lo + 1 in
  match fuel with
  | O => (lo, p)
  | S fuel' =>
      match rounds_here lo p, rounds_here hi p with
      | true, true =>
          let below := binary_side here p - decimal_side lo p in
          let above := decimal_side hi p - binary_side here p in
          if below <? above then (lo, p)
          else if above <? below then (hi, p)
          else if Z.even lo then (lo, p) else (hi, p)
      | true, false => (lo, p)
      | false, true => (hi, p)
      | false, false => shortest fuel' n0 (k + 1)
      end
  end.

End Digits.

Fixpoint strip_zeros (fuel : nat) (s : Z) : Z :=
  match fuel with
  | O => s
  | S fuel' => if s mod 10 =? 0 then strip_zeros fuel' (s / 10) else s
  end.

Fixpoint zeros (n : nat) : string :=
  match n with
  | O => EmptyString
  | S n' => String "0" (zeros n')
  end.

(** The text for the digits [s] (not divisible by 10) with the decimal
    point after [n] digits. *)
Definition layout (s n : Z) : string :=
  let digits := decimal s in
  let k := Z.of_nat (String.length digits) in
  if (k <=? n) && (n <=? 21) then digits +:+ zeros (Z.to_nat (n - k))
  else if (0 <? n) && (n <=? 21) then
    String.substring 0 (Z.to_nat n) digits +:+ "." +:+
    String.substring (Z.to_nat n) (Z.to_nat (k - n)) digits
  else if (-6 <? n) && (n <=? 0) then "0." +:+ zeros (Z.to_nat (- n)) +:+ digits
  else
    let exponent := (if n - 1 <? 0 then "e-" else "e+") +:+ decimal (Z.abs (n - 1)) in
    if k =? 1 then digits +:+ exponent
    else String.substring 0 1 digits +:+ "." +:+
         String.substring 1 (Z.to_nat (k - 1)) digits +:+ exponent.

Definition positive_toString (m : positive) (e : Z) : string :=
  let '(s, p) := shortest m e 17 (magnitude m e) 1 in
  let n := p + Z.of_nat (String.length (decimal s)) in
  layout (strip_zeros 25 s) n.

(** Below [2^53] the shortest digits of an integer are its decimal
    digits. *)
Definition Number_toString (x : Number) : string :=
  match x with
  | S754_nan => "NaN"
  | S754_infinity false => "Infinity"
  | S754_infinity true => "-Infinity"
  | S754_zero _ => "0"
  | S754_finite s m e =>
      (if s then "-" else EmptyString) +:+
      match to_Z (S754_finite false m e) with
      | Some z => if z <? 2 ^ 53 then decimal z else positive_toString m e
      | None => positive_toString m e
      end
  end.

(** The text a Number is printed as, where the source assigns it to the
    value of an input or to the text of an element. *)
Definition toString (x : Number) : option string := Some (Number_toString x).

(** *** Strings *)

Definition quote : ascii := ascii_of_nat 39.
Definition dquote : ascii := ascii_of_nat 34.

Fixpoint index_from (c : ascii) (s : string) (i : Z) : Z :=
  match s with
  | EmptyString => -1
  | String a s' => if Ascii.eqb a c then i else index_from c s' (i + 1)
  end.

(** [s.indexOf(c)] for a one-character search string. *)
Definition indexOf (s : string) (c : ascii) : Z := index_from c s 0.

(** [s.substring(i, j)]: both indices clamped to the string, swapped when
    out of order. *)
Definition substring (s : string) (i j : Z) : string :=
  let len := Z.of_nat (String.length s) in
  let a := Z.min (Z.max i 0) len in
  let b := Z.min (Z.max j 0) len in
  let lo := Z.min a b in
  let hi := Z.max a b in
  String.substring (Z.to_nat lo) (Z.to_nat (hi - lo)) s.

Definition lower_char (c : ascii) : ascii :=
  let n := nat_of_ascii c in
  if ((65 <=? n) && (n <=? 90))%nat then ascii_of_nat (n + 32) else c.

(** [s.toLowerCase()] on code units below 128. *)
Fixpoint toLowerCase (s : string) : string :=
  match s with
  | EmptyString => EmptyString
  | String c s' => String (lower_char c) (toLowerCase s')
  end.

(** *** parseInt *)

Definition is_whitespace (c : ascii) : bool :=
  let n := nat_of_ascii c in
  ((9 <=? n) && (n <=? 13) || (n =? 32) || (n =? 160))%nat.

Fixpoint trim_start (s : string) : string :=
  match s with
  | String c s' => if is_whitespace c then trim_start s' else s
  | EmptyString => EmptyString
  end.

Definition digit_value (c : ascii) : option Z :=
  let n := nat_of_ascii c in
  if ((48 <=? n) && (n <=? 57))%nat then Some (Z.of_nat n - 48)
  else if ((97 <=? n) && (n <=? 122))%nat then Some (Z.of_nat n - 87)
  else if ((65 <=? n) && (n <=? 90))%nat then Some (Z.of_nat n - 55)
  else None.

Definition digit_in (radix : Z) (c : ascii) : option Z :=
  match digit_value c with
  | Some d => if d <? radix then Some d else None
  | None => None
  end.

(** Value of the longest prefix of radix digits; [acc] is [None] until a
    first digit has been read. *)
Fixpoint parse_digits (radix : Z) (s : string) (acc : option Z) : option Z :=
  match s with
  | String c s' =>
      match digit_in radix c with
      | Some d => parse_digits radix s' (Some (radix * default 0 acc + d))
      | None => acc
      end
  | EmptyString => acc
  end.

Definition strip_sign (s : string) : bool * string :=
  match s with
  | String c r =>
      if Ascii.eqb c "-" then (true, r)
      else if Ascii.eqb c "+" then (false, r)
      else (false, s)
  | EmptyString => (false, s)
  end.

Definition strip_hex_prefix (s : string) : Z * string :=
  match s with
  | String c0 (String c1 r) =>
      if Ascii.eqb c0 "0" && (Ascii.eqb c1 "x" || Ascii.eqb c1 "X")
      then (16, r) else (10, s)
  | _ => (10, s)
  end.

(** [parseInt(s)] with no radix argument: leading white space, an
    optional sign, an optional 0x prefix, then the longest run of digits;
    [NaN] when there is no digit. *)
Definition parseInt (input : string) : Number :=
  let '(neg, s1) := strip_sign (trim_start input) in
  let '(radix, s2) := strip_hex_prefix s1 in
  match parse_digits radix s2 None with
  | None => NaN
  | Some n => if n =? 0 then S754_zero neg else of_Z (if neg then - n else n)
  end.

End JS.

(** ** Documents: the schema of [AdventurerDataModel] and the item models *)

Module Data.

(** [createAbilityField]: a score in 3..18 and a modifier in -3..3. *)
Record Ability := { score : Z; ability_mod : Z }.

(** [createAbilitiesSchema], in declaration order. *)
Record Abilities := {
  strength : Ability;
  intelligence : Ability;
  wisdom : Ability;
  dexterity : Ability;
  constitution : Ability;
  charisma : Ability
}.

Record XP := { xp_value : Z; xp_nextLevel : Z; xp_modifier : Z }.

Record ExtraSkill := { skill_id : string; skill_target : Z }.

(** The fields of the adventurer's [system] data that the modelled code
    reads or writes. *)
Record AdventurerData := {
  attack : Z;
  abilities : Abilities;
  kindred : string;
  creatureType : string;
  xp : XP;
  extraSkills : list ExtraSkill
}.

(** The item document types registered for the system. *)
Inductive ItemType := Weapon | Armor | Item | Treasure | Foraged | Spell.

Definition type_name (t : ItemType) : string :=
  match t with
  | Weapon => "Weapon"
  | Armor => "Armor"
  | Item => "Item"
  | Treasure => "Treasure"
  | Foraged => "Foraged"
  | Spell => "Spell"
  end.

(** [ItemDataModel] with the weapon and armor extensions; [qualities] is
    absent ([None]) on items that are not weapons. *)
Record ItemSystem := {
  equipped : bool;
  quantity : Z;
  notes : string;
  damage : string;
  qualities : option (list string);
  bulk : string
}.

Record ItemDocument := {
  item_id : string;
  item_name : string;
  item_img : string;
  item_type : ItemType;
  item_system : ItemSystem
}.

Record Actor := {
  actor_system : AdventurerData;
  actor_items : list ItemDocument
}.

(** [array.includes(x)] on an array of strings. *)
Fixpoint includes (l : list string) (x : string) : bool :=
  match l with
  | [] => false
  | y :: l' => String.eqb y x || includes l' x
  end.

(** [array.indexOf(x)]: position of the first occurrence, or -1. *)
Fixpoint indexOf_from (l : list string) (x : string) (i : Z) : Z :=
  match l with
  | [] => -1
  | y :: l' => if String.eqb y x then i else indexOf_from l' x (i + 1)
  end.

Definition indexOf (l : list string) (x : string) : Z := indexOf_from l x 0.

(** [array.splice(start, 1)] as the source calls it, with a [start]
    inside the array or negative (counted from the end, clamped at 0). *)
Definition splice1 {A} (l : list A) (start : Z) : list A :=
  let len := Z.of_nat (length l) in
  let k := if start <? 0 then Z.max (len + start) 0 else Z.min start len in
  take (Z.to_nat k) l ++ drop (S (Z.to_nat k)) l.

(** [collection.get(id)]: the document with that id. *)
Definition items_get (items : list ItemDocument) (id : string) : option ItemDocument :=
  find (fun i => String.eqb (item_id i) id) items.

(** [item.update(...)] on the document [collection.get(id)] returned:
    that document is replaced by [f] of it, in place. *)
Fixpoint items_update (items : list ItemDocument) (id : string)
    (f : ItemDocument -> ItemDocument) : list ItemDocument :=
  match items with
  | [] => []
  | i :: rest =>
      if String.eqb (item_id i) id then f i :: rest
      else i :: items_update rest id f
  end.

Definition set_quantity (q : Z) (i : ItemDocument) : ItemDocument :=
  {| item_id := item_id i; item_name := item_name i; item_img := item_img i;
     item_type := item_type i;
     item_system :=
       {| equipped := equipped (item_system i); quantity := q;
          notes := notes (item_system i); damage := damage (item_system i);
          qualities := qualities (item_system i); bulk := bulk (item_system i) |} |}.

(** [item.update({ 'system.quantity': n })] for a Number [n]: the integer
    field takes the integer that [n] is; a Number that is not an integer is
    refused by the field and the item stays as it is. *)
Definition update_quantity (n : JS.Number) (i : ItemDocument) : ItemDocument :=
  match JS.to_Z n with
  | Some q => set_quantity q i
  | None => i
  end.

End Data.

(** ** [AdventurerDataModel]: derived data *)

Module AdventurerDataModel.
Import Data.

Definition computeModifier (score : Z) : Z :=
  if score <=? 3 then -3
  else if score <=? 5 then -2
  else if score <=? 8 then -1
  else if score <=? 12 then 0
  else if score <=? 15 then 1
  else if score <=? 17 then 2
  else 3.

Definition getCreatureTypeForKindred (kindred : string) : string :=
  let fairyKindreds := ["grimalkin"; "elf"]%string in
  let demiFeyKindreds := ["woodgrue"]%string in
  if includes fairyKindreds kindred then "fairy"
  else if includes demiFeyKindreds kindred then "demi-fey"
  else "mortal".

(** [Object.values(this.abilities)], in schema order. *)
Definition Object_values (a : Abilities) : list Ability :=
  [strength a; intelligence a; wisdom a; dexterity a; constitution a; charisma a].

(** The body of the loop: [ability.mod = computeModifier(ability.score)]. *)
Definition derive_mod (a : Ability) : Ability :=
  {| score := score a; ability_mod := computeModifier (score a) |}.

Definition prepareDerivedData (d : AdventurerData) : AdventurerData :=
  let a := abilities d in
  {| attack := attack d;
     abilities :=
       {| strength := derive_mod (strength a);
          intelligence := derive_mod (intelligence a);
          wisdom := derive_mod (wisdom a);
          dexterity := derive_mod (dexterity a);
          constitution := derive_mod (constitution a);
          charisma := derive_mod (charisma a) |};
     kindred := kindred d;
     creatureType := getCreatureTypeForKindred (kindred d);
     xp := xp d;
     extraSkills := extraSkills d |}.

End AdventurerDataModel.

(** ** [DolmenSheet]: the actor sheet controller *)

Module DolmenSheet.
Import Data.

(** *** What the sheet shows and records *)

(** The object [_prepareItemData] builds for one inventory row. *)
Record PreparedItem := {
  data_id : string;
  data_name : string;
  data_img : string;
  data_type : ItemType;
  data_system : ItemSystem;
  data_isWeapon : bool;
  data_isArmor : bool;
  cssClass : string;
  hasNotes : bool;
  qualitiesDisplay : option string;
  bulkDisplay : option string
}.

(** One entry of [groups] in [_groupItemsByType]. *)
Record Group := {
  group_type : string;
  typeLower : string;
  label : string;
  group_items : list PreparedItem;
  isWeapon : bool;
  isArmor : bool;
  isItem : bool;
  isTreasure : bool;
  isForaged : bool
}.

(** The four linked inputs of the physical-characteristics block, by their
    [data-convert] attribute; each holds the text of its [value]. *)
Record ConversionInputs := {
  height_feet : string;
  height_cm : string;
  weight_lbs : string;
  weight_kg : string
}.

(** The argument of [actor.update] in the experience dialog. *)
Record XPUpdate := {
  system_xp_value : JS.Number;
  system_xp_modifier : JS.Number
}.

(** The [attack] and [damage] arguments of [_buildAttackChatHtml]. *)
Record AttackData := {
  attack_formula : string;
  resultClass : string;
  resultLabel : string
}.

Record DamageData := { damage_formula : string }.

(** A created chat message: what [_buildAttackChatHtml] is given, and the
    formulas of the rolls attached to the message. *)
Record ChatMessage := {
  msg_weapon : ItemDocument;
  msg_attackType : string;
  msg_attack : option AttackData;
  msg_damage : option DamageData;
  msg_rolls : list string
}.

(** The context menu of the sheet, of which there is at most one. *)
Inductive ContextMenu :=
| WeaponMenu (weapons : list ItemDocument) (attackType : string)
| RollTypeMenu (weapons : list ItemDocument) (attackType : string)
| WeaponSelectionMenu (weapons : list ItemDocument) (attackType rollType : string).

(** An open dialog: the add-skill dialog with its [option] elements as
    (value, label) pairs. *)
Inductive Dialog :=
| AddSkillDialog (options : list (string * string)).

(** The state a handler of the sheet can observe or change. *)
Record World := {
  w_actor : Actor;
  w_notifications : list string;
  w_menu : option ContextMenu;
  w_dialog : option Dialog;
  w_chat : list ChatMessage
}.

Definition warn (msg : string) (w : World) : World :=
  {| w_actor := w_actor w; w_notifications := w_notifications w ++ [msg];
     w_menu := w_menu w; w_dialog := w_dialog w; w_chat := w_chat w |}.

Definition open_menu (m : ContextMenu) (w : World) : World :=
  {| w_actor := w_actor w; w_notifications := w_notifications w;
     w_menu := Some m; w_dialog := w_dialog w; w_chat := w_chat w |}.

Definition remove_menu (w : World) : World :=
  {| w_actor := w_actor w; w_notifications := w_notifications w;
     w_menu := None; w_dialog := w_dialog w; w_chat := w_chat w |}.

Definition open_dialog (d : Dialog) (w : World) : World :=
  {| w_actor := w_actor w; w_notifications := w_notifications w;
     w_menu := w_menu w; w_dialog := Some d; w_chat := w_chat w |}.

Definition create_chat (m : ChatMessage) (w : World) : World :=
  {| w_actor := w_actor w; w_notifications := w_notifications w;
     w_menu := w_menu w; w_dialog := w_dialog w; w_chat := w_chat w ++ [m] |}.

Definition update_actor (f : Actor -> Actor) (w : World) : World :=
  {| w_actor := f (w_actor w); w_notifications := w_notifications w;
     w_menu := w_menu w; w_dialog := w_dialog w; w_chat := w_chat w |}.

Definition set_extraSkills (l : list ExtraSkill) (a : Actor) : Actor :=
  let d := actor_system a in
  {| actor_system :=
       {| attack := attack d; abilities := abilities d; kindred := kindred d;
          creatureType := creatureType d; xp := xp d; extraSkills := l |};
     actor_items := actor_items a |}.

Definition set_items (l : list ItemDocument) (a : Actor) : Actor :=
  {| actor_system := actor_system a; actor_items := l |}.

Section Host.

(** [game.i18n.localize] and [game.i18n.format]. *)
Variable localize : string -> string.
Variable format : string -> list (string * string) -> string.

(** [CONFIG.DOLMENWOOD.extraSkills] and [CONFIG.DOLMENWOOD.maxExtraSkills]. *)
Variable CONFIG_extraSkills : list string.
Variable CONFIG_maxExtraSkills : Z.

(** *** Inventory grouping *)

Definition typeOrder : list string :=
  ["Weapon"; "Armor"; "Item"; "Treasure"; "Foraged"]%string.

Definition new_group (t : ItemType) : Group :=
  {| group_type := type_name t;
     typeLower := JS.toLowerCase (type_name t);
     label := localize ("TYPES.Item." +:+ type_name t);
     group_items := [];
     isWeapon := String.eqb (type_name t) "Weapon";
     isArmor := String.eqb (type_name t) "Armor";
     isItem := String.eqb (type_name t) "Item";
     isTreasure := String.eqb (type_name t) "Treasure";
     isForaged := String.eqb (type_name t) "Foraged" |}.

(** [group.items.push(item)] *)
Definition push_item (item : PreparedItem) (g : Group) : Group :=
  {| group_type := group_type g; typeLower := typeLower g; label := label g;
     group_items := group_items g ++ [item];
     isWeapon := isWeapon g; isArmor := isArmor g; isItem := isItem g;
     isTreasure := isTreasure g; isForaged := isForaged g |}.

(** One iteration of the loop over [items]; [groups] is the object the
    loop fills, keyed by type name. *)
Definition group_step (groups : gmap string Group) (item : PreparedItem)
    : gmap string Group :=
  let key := type_name (data_type item) in
  let groups' :=
    match groups !! key with
    | None => <[key := new_group (data_type item)]> groups
    | Some _ => groups
    end in
  alter (push_item item) key groups'.

(** [typeOrder.filter(type => groups[type]).map(type => groups[type])]
    reads, in display order, the groups that exist. *)
Definition _groupItemsByType (items : list PreparedItem) : list Group :=
  let groups := foldl group_step ∅ items in
  omap (fun type => groups !! type) typeOrder.

(** *** Height and weight conversion *)

Definition or0 (x : JS.Number) : JS.Number := JS.or_else x (JS.of_Z 0).

(** The literals [2.54] and [0.453592]. *)
Definition lit_2_54 : JS.Number := JS.literal 254 100.
Definition lit_0_453592 : JS.Number := JS.literal 453592 1000000.

(** The number [updateCmFromFeetInches] assigns to the centimeter input,
    from the text of the feet-and-inches input. *)
Definition cm_of_feet_inches (value : string) : JS.Number :=
  let fIndex := JS.indexOf value JS.quote in
  let iIndex := JS.indexOf value JS.dquote in
  let feet := JS.of_Z 0 in
  let inches := JS.of_Z 0 in
  let feet :=
    if (fIndex =? -1) && (iIndex =? -1) then or0 (JS.parseInt value) else feet in
  let feet :=
    if 0 <? fIndex then or0 (JS.parseInt (JS.substring value 0 fIndex)) else feet in
  let inches :=
    if fIndex <? iIndex
    then or0 (JS.parseInt (JS.substring value (fIndex + 1) iIndex)) else inches in
  let totalInches := JS.add (JS.mul feet (JS.of_Z 12)) inches in
  JS.Math_round (JS.mul totalInches lit_2_54).

Definition updateCmFromFeetInches (inp : ConversionInputs) : option ConversionInputs :=
  v ← JS.toString (cm_of_feet_inches (height_feet inp));
  Some {| height_feet := height_feet inp; height_cm := v;
          weight_lbs := weight_lbs inp; weight_kg := weight_kg inp |}.

(** The text [updateFeetInchesFromCm] assigns to the feet-and-inches
    input, from the text of the centimeter input. *)
Definition feet_inches_of_cm (value : string) : option string :=
  let cm := or0 (JS.parseInt value) in
  let totalInches := JS.Math_round (JS.div cm lit_2_54) in
  f ← JS.toString (JS.Math_floor (JS.div totalInches (JS.of_Z 12)));
  i ← JS.toString (JS.rem totalInches (JS.of_Z 12));
  Some (f +:+ String JS.quote (i +:+ String JS.dquote EmptyString)).

Definition updateFeetInchesFromCm (inp : ConversionInputs) : option ConversionInputs :=
  v ← feet_inches_of_cm (height_cm inp);
  Some {| height_feet := v; height_cm := height_cm inp;
          weight_lbs := weight_lbs inp; weight_kg := weight_kg inp |}.

Definition kg_of_lbs (value : string) : JS.Number :=
  let lbs := or0 (JS.parseInt value) in
  JS.Math_round (JS.mul lbs lit_0_453592).

Definition lbs_of_kg (value : string) : JS.Number :=
  let kg := or0 (JS.parseInt value) in
  JS.Math_round (JS.div kg lit_0_453592).

(** The [change] listener of the pounds input. *)
Definition onWeightLbsChange (inp : ConversionInputs) : option ConversionInputs :=
  v ← JS.toString (kg_of_lbs (weight_lbs inp));
  Some {| height_feet := height_feet inp; height_cm := height_cm inp;
          weight_lbs := weight_lbs inp; weight_kg := v |}.

(** The [change] listener of the kilograms input. *)
Definition onWeightKgChange (inp : ConversionInputs) : option ConversionInputs :=
  v ← JS.toString (lbs_of_kg (weight_kg inp));
  Some {| height_feet := height_feet inp; height_cm := height_cm inp;
          weight_lbs := v; weight_kg := weight_kg inp |}.

(** *** Experience dialog *)

(** [adjustedXP] in the callback of the dialog's add button. *)
Definition adjustedXP (gained bonus : JS.Number) : JS.Number :=
  JS.Math_floor (JS.mul gained (JS.add (JS.of_Z 1) (JS.div bonus (JS.of_Z 100)))).

(** The callback of the add button of [_openXPDialog]: the update it
    sends for the texts of the two inputs. *)
Definition _openXPDialog_add (a : Actor) (gainedVal bonusVal : string) : XPUpdate :=
  let currentXP := JS.or_elseZ (xp_value (xp (actor_system a))) 0 in
  let gained := or0 (JS.parseInt gainedVal) in
  let bonus := or0 (JS.parseInt bonusVal) in
  let newXP := JS.add (JS.of_Z currentXP) (adjustedXP gained bonus) in
  {| system_xp_value := newXP; system_xp_modifier := bonus |}.

(** *** Extra skills *)

(** [a || b] on strings: the empty string is falsy. *)
Definition or_string (a b : string) : string :=
  if String.eqb a EmptyString then b else a.

Definition _openAddSkillDialog (w : World) : World :=
  let currentSkills := extraSkills (actor_system (w_actor w)) in
  let currentSkillIds := map skill_id currentSkills in
  let availableSkills :=
    List.filter (fun id => negb (includes currentSkillIds id)) CONFIG_extraSkills in
  if (Z.of_nat (length availableSkills) =? 0)
     || (CONFIG_maxExtraSkills <=? Z.of_nat (length currentSkills))
  then
    warn (or_string (localize "DOLMEN.NoSkillsAvailable")
                    "No more skills available to add.") w
  else
    let options :=
      map (fun id => (id, localize ("DOLMEN.Skills." +:+ id))) availableSkills in
    open_dialog (AddSkillDialog options) w.

Definition _addSkill (skillId : string) (w : World) : World :=
  let currentSkills := extraSkills (actor_system (w_actor w)) in
  update_actor
    (set_extraSkills (currentSkills ++ [{| skill_id := skillId; skill_target := 6 |}])) w.

(** [index] is the integer read from the button's [data-skill-index]. *)
Definition _removeSkill (index : Z) (w : World) : World :=
  let currentSkills := extraSkills (actor_system (w_actor w)) in
  update_actor (set_extraSkills (splice1 currentSkills index)) w.

(** The callback of the add button of the add-skill dialog, for the
    selected [option] value. *)
Definition _openAddSkillDialog_add (selectedSkill : string) (w : World) : World :=
  _addSkill selectedSkill w.

(** *** Attack rolls *)

Definition _getEquippedWeaponsByQuality (a : Actor) (quality : string)
    : list ItemDocument :=
  List.filter
    (fun item =>
       String.eqb (type_name (item_type item)) "Weapon"
       && equipped (item_system item)
       && match qualities (item_system item) with
          | Some qs => includes qs quality
          | None => false
          end)
    (actor_items a).

(** [_getAttackModifiers]: the attack bonus and the modifier are the
    Numbers of the integer fields, and their sum is the sum of Numbers. *)
Definition _getAttackModifiers (a : Actor) (attackType : string)
    : JS.Number * JS.Number * JS.Number :=
  let system := actor_system a in
  let attackMod := JS.or_else (JS.of_Z (attack system)) (JS.of_Z 0) in
  let abilityMod :=
    if String.eqb attackType "melee"
    then JS.of_Z (ability_mod (strength (abilities system)))
    else JS.of_Z (ability_mod (dexterity (abilities system))) in
  (attackMod, abilityMod, JS.add attackMod abilityMod).

Definition totalMod (m : JS.Number * JS.Number * JS.Number) : JS.Number := snd m.

(** The template literals print [totalMod] as [Number::toString] does. *)
Definition _buildAttackFormula (totalMod : JS.Number) : string :=
  if JS.le (JS.of_Z 0) totalMod then "1d20 + " +:+ JS.Number_toString totalMod
  else "1d20 - " +:+ JS.Number_toString (JS.abs totalMod).

(** [_getAttackResultState], from the result of the d20. *)
Definition roll_label (text : string) : string :=
  "<span class=" +:+ String JS.dquote ("roll-label" +:+ String JS.dquote
    (">" +:+ text +:+ "</span>")).

Definition _getAttackResultState (d20Result : Z) : string * string :=
  if d20Result =? 20 then
    ("critical"%string, roll_label (localize "DOLMEN.Attack.Critical"))
  else if d20Result =? 1 then
    ("fumble"%string, roll_label (localize "DOLMEN.Attack.Fumble"))
  else (EmptyString, EmptyString).

(** [_performAttackRoll]; [d20] is the result the host's dice engine gives
    for the d20 of the attack roll, if one is made. *)
Definition _performAttackRoll (weapon : ItemDocument) (attackType : string)
    (attackOnly damageOnly : bool) (d20 : Z) (w : World) : World :=
  let attackData :=
    if negb damageOnly then
      let formula :=
        _buildAttackFormula (totalMod (_getAttackModifiers (w_actor w) attackType)) in
      let state := _getAttackResultState d20 in
      Some {| attack_formula := formula;
              resultClass := fst state; resultLabel := snd state |}
    else None in
  let damageData :=
    if negb attackOnly
    then Some {| damage_formula := damage (item_system weapon) |}
    else None in
  let rolls :=
    match attackData with Some a => [attack_formula a] | None => [] end
    ++ match damageData with Some d => [damage_formula d] | None => [] end in
  create_chat
    {| msg_weapon := weapon; msg_attackType := attackType;
       msg_attack := attackData; msg_damage := damageData;
       msg_rolls := rolls |} w.

Definition _rollAttack (weapon : ItemDocument) (attackType : string) :=
  _performAttackRoll weapon attackType false false.

Definition _rollAttackOnly (weapon : ItemDocument) (attackType : string) :=
  _performAttackRoll weapon attackType true false.

Definition _rollDamageOnly (weapon : ItemDocument) (attackType : string) :=
  _performAttackRoll weapon attackType false true.

(** [_createContextMenu] removes any menu there is and shows the new one. *)
Definition _createContextMenu (m : ContextMenu) (w : World) : World :=
  open_menu m (remove_menu w).

Definition _openWeaponContextMenu (weapons : list ItemDocument)
    (attackType : string) (w : World) : World :=
  _createContextMenu (WeaponMenu weapons attackType) w.

Definition no_weapon_warning (attackType : string) : string :=
  let typeName := localize ("DOLMEN.Item.Quality." +:+ attackType) in
  format "DOLMEN.Attack.NoWeapon" [("type"%string, typeName)].

(** Left click on the melee or missile icon. *)
Definition _onAttackRoll (attackType : string) (d20 : Z) (w : World) : World :=
  let weapons := _getEquippedWeaponsByQuality (w_actor w) attackType in
  if Z.of_nat (length weapons) =? 0 then
    warn (no_weapon_warning attackType) w
  else if Z.of_nat (length weapons) =? 1 then
    match head weapons with
    | Some weapon => _rollAttack weapon attackType d20 w
    | None => w
    end
  else _openWeaponContextMenu weapons attackType w.

(** Right click on the melee or missile icon. *)
Definition _onAttackRollContextMenu (attackType : string) (w : World) : World :=
  let weapons := _getEquippedWeaponsByQuality (w_actor w) attackType in
  if Z.of_nat (length weapons) =? 0 then
    warn (no_weapon_warning attackType) w
  else _createContextMenu (RollTypeMenu weapons attackType) w.

(** A click on an entry of the open context menu: [weaponId] and
    [rollType] are the entry's [data-weapon-id] and [data-roll-type]. *)
Definition onItemClick (weaponId rollType : string) (d20 : Z) (w : World) : World :=
  match w_menu w with
  | Some (WeaponMenu _ attackType) =>
      remove_menu
        match items_get (actor_items (w_actor w)) weaponId with
        | Some weapon => _rollAttack weapon attackType d20 w
        | None => w
        end
  | Some (RollTypeMenu weapons attackType) =>
      let w' := remove_menu w in
      if Z.of_nat (length weapons) =? 1 then
        match head weapons with
        | Some weapon =>
            if String.eqb rollType "attack" then _rollAttackOnly weapon attackType d20 w'
            else if String.eqb rollType "damage" then _rollDamageOnly weapon attackType d20 w'
            else w'
        | None => w'
        end
      else _createContextMenu (WeaponSelectionMenu weapons attackType rollType) w'
  | Some (WeaponSelectionMenu _ attackType rollType) =>
      remove_menu
        match items_get (actor_items (w_actor w)) weaponId with
        | Some weapon =>
            if String.eqb rollType "attack" then _rollAttackOnly weapon attackType d20 w
            else if String.eqb rollType "damage" then _rollDamageOnly weapon attackType d20 w
            else w
        | None => w
        end
  | None => w
  end.

(** *** Inventory quantity *)

(** [if (itemId)]: a [data-item-id] that is present and not empty. *)
Definition truthy_id (itemId : option string) : option string :=
  match itemId with
  | Some id => if String.eqb id EmptyString then None else Some id
  | None => None
  end.

(** [currentQty] is the Number of the integer field, or 1; the sum and the
    difference are those of Numbers. *)
Definition _onIncreaseQty (itemId : option string) (a : Actor) : Actor :=
  match truthy_id itemId with
  | Some id =>
      match items_get (actor_items a) id with
      | Some item =>
          let currentQty :=
            JS.or_else (JS.of_Z (quantity (item_system item))) (JS.of_Z 1) in
          set_items (items_update (actor_items a) id
                       (update_quantity (JS.add currentQty (JS.of_Z 1)))) a
      | None => a
      end
  | None => a
  end.

Definition _onDecreaseQty (itemId : option string) (a : Actor) : Actor :=
  match truthy_id itemId with
  | Some id =>
      match items_get (actor_items a) id with
      | Some item =>
          let currentQty :=
            JS.or_else (JS.of_Z (quantity (item_system item))) (JS.of_Z 1) in
          if JS.lt (JS.of_Z 1) currentQty
          then set_items (items_update (actor_items a) id
                            (update_quantity (JS.sub currentQty (JS.of_Z 1)))) a
          else a
      | None => a
      end
  | None => a
  end.

End Host.

End DolmenSheet.

(** ** [DolmenItemSheet]: the item sheet controller *)

Module DolmenItemSheet.
Import Data.

(** The listener of a quality checkbox: the array it passes to
    [item.update] as [system.qualities], for the checkbox's
    [data-quality], its [checked] state and the item's current
    [system.qualities] (absent: the empty array). *)
Definition onQualityChange (quality : string) (checked : bool)
    (qualities : option (list string)) : list string :=
  let currentQualities := default [] qualities in
  if checked && negb (includes currentQualities quality) then
    currentQualities ++ [quality]
  else if negb checked && includes currentQualities quality then
    let index := indexOf currentQualities quality in
    splice1 currentQualities index
  else currentQualities.

End DolmenItemSheet.

(** ** [choices.js]: choice objects and quality options *)

Module Choices.

(** [CHOICE_KEYS] *)
Definition kindreds : list string :=
  ["breggle"; "elf"; "grimalkin"; "human"; "mossling"; "woodgrue"]%string.
Definition classes : list string :=
  ["bard"; "cleric"; "enchanter"; "fighter"; "friar"; "hunter"; "knight";
   "magician"; "thief"]%string.
Definition kindredClasses : list string :=
  ["breggle"; "elf"; "grimalkin"; "mossling"; "woodgrue"]%string.
Definition alignments : list string := ["lawful"; "neutral"; "chaotic"]%string.
Definition encumbranceMethods : list string := ["weight"; "treasure"; "slots"]%string.
Definition moonNames : list string :=
  ["grinning"; "dead"; "beast"; "squamous"; "knights"; "rotting"; "maidens";
   "witch"; "robbers"; "goat"; "narrow"; "black"]%string.
Definition moonPhases : list string := ["waxing"; "full"; "waning"]%string.
Definition creatureTypes : list string := ["mortal"; "demi-fey"; "fairy"]%string.
Definition sizes : list string := ["small"; "medium"; "large"]%string.
Definition armorBulks : list string := ["none"; "light"; "medium"; "heavy"]%string.
Definition foragedTypes : list string := ["plant"; "fungus"; "pipeleaf"]%string.
Definition spellTypes : list string :=
  ["arcane"; "glamour"; "rune"; "holy"; "knack"]%string.

(** The ids of [buildQualityOptions]. *)
Definition qualityIds : list string :=
  ["armor-piercing"; "brace"; "charge"; "melee"; "missile"; "reach"; "reload";
   "splash"; "two-handed"; "cold-iron"; "silver"]%string.

(** One entry of the array [buildQualityOptions] returns. *)
Record QualityOption := {
  option_id : string;
  option_label : string;
  option_checked : bool
}.

Section Localized.

Variable localize : string -> string.

(** The loop of [buildChoices]: [choices[key] = localize(namespace.key)].
    The object holds its own properties; an assignment to the key
    [__proto__] goes to the setter of the prototype, which ignores a
    string, and adds no property. *)
Definition buildChoices (namespace : string) (keys : list string) : gmap string string :=
  foldl (fun choices key =>
           if String.eqb key "__proto__" then choices
           else <[key := localize (namespace +:+ "." +:+ key)]> choices)
        ∅ keys.

(** [{ none: blankLabel, ...buildChoices(namespace, keys) }]: the spread
    entries come last and win. *)
Definition buildChoicesWithBlank (namespace : string) (keys : list string)
    (blankLabel : string) : gmap string string :=
  buildChoices namespace keys ∪ {["none"%string := blankLabel]}.

(** The default of [blankLabel]. *)
Definition default_blankLabel : string := " ".

(** [currentQualities] is [None] when the argument is [undefined], and the
    default [[]] applies. *)
Definition buildQualityOptions (currentQualities : option (list string))
    : list QualityOption :=
  let currentQualities := default [] currentQualities in
  map (fun id =>
         {| option_id := id;
            option_label := localize ("DOLMEN.Item.Quality." +:+ id);
            option_checked := Data.includes currentQualities id |})
      qualityIds.

End Localized.

End Choices.

(** ** The choice sets of the schema ([defineSchema]) *)

Module Schema.

Definition size_choices : list string := ["small"; "medium"; "large"]%string.
Definition alignment_choices : list string := ["lawful"; "neutral"; "chaotic"]%string.
Definition kindred_choices : list string :=
  ["breggle"; "elf"; "grimalkin"; "human"; "mossling"; "woodgrue"]%string.
Definition class_choices : list string :=
  ["bard"; "cleric"; "enchanter"; "fighter"; "friar"; "hunter"; "knight";
   "magician"; "thief"; "breggle"; "elf"; "grimalkin"; "mossling"; "woodgrue"]%string.
Definition moonName_choices : list string :=
  ["none"; "grinning"; "dead"; "beast"; "squamous"; "knights"; "rotting";
   "maidens"; "witch"; "robbers"; "goat"; "narrow"; "black"]%string.
Definition moonPhase_choices : list string := ["none"; "waxing"; "full"; "waning"]%string.
Definition encumbrance_method_choices : list string :=
  ["weight"; "treasure"; "slots"]%string.
Definition creatureType_choices : list string := ["demi-fey"; "fairy"; "mortal"]%string.
Definition weapon_size_choices : list string := ["small"; "medium"; "large"]%string.
Definition qualities_choices : list string :=
  ["armor-piercing"; "brace"; "charge"; "melee"; "missile"; "reach"; "reload";
   "splash"; "two-handed"; "cold-iron"; "silver"]%string.
Definition bulk_choices : list string := ["none"; "light"; "medium"; "heavy"]%string.
Definition fit_choices : list string := ["small"; "medium"; "large"]%string.
Definition foraged_type_choices : list string := ["plant"; "fungus"; "pipeleaf"]%string.
Definition spell_type_choices : list string :=
  ["arcane"; "glamour"; "rune"; "holy"; "knack"]%string.

End Schema.

(** ** The dropdowns the two sheets put in their render context *)

Module Dropdowns.

Section Localized.

Variable localize : string -> string.

Local Abbreviation choices := (Choices.buildChoices localize).
Local Abbreviation choicesWithBlank := (Choices.buildChoicesWithBlank localize).

(** [DolmenSheet._prepareContext] *)
Definition kindredChoices := choices "DOLMEN.Kindreds" Choices.kindreds.
(** [{...buildChoices(Classes), ...buildChoices(Kindreds, kindredClasses)}] *)
Definition classChoices :=
  choices "DOLMEN.Kindreds" Choices.kindredClasses
  ∪ choices "DOLMEN.Classes" Choices.classes.
Definition alignmentChoices := choices "DOLMEN.Alignments" Choices.alignments.
Definition encumbranceChoices := choices "DOLMEN.Encumbrance" Choices.encumbranceMethods.
Definition moonNameChoices :=
  choicesWithBlank "DOLMEN.MoonNames" Choices.moonNames Choices.default_blankLabel.
Definition moonPhaseChoices :=
  choicesWithBlank "DOLMEN.MoonPhases" Choices.moonPhases Choices.default_blankLabel.
Definition creatureTypeChoices := choices "DOLMEN.CreatureTypes" Choices.creatureTypes.

(** [DolmenItemSheet._prepareContext] *)
Definition weaponSizeChoices := choices "DOLMEN.Item.Size" Choices.sizes.
Definition armorBulkChoices := choices "DOLMEN.Item.Bulk" Choices.armorBulks.
Definition armorFitChoices := choices "DOLMEN.Item.Fit" Choices.sizes.
Definition foragedTypeChoices := choices "DOLMEN.Item.ForagedType" Choices.foragedTypes.
Definition spellTypeChoices := choices "DOLMEN.Item.SpellType" Choices.spellTypes.

(** Each dropdown with the choice set of the field it edits. *)
Definition dropdown_fields : list (gmap string string * list string) :=
  [(kindredChoices, Schema.kindred_choices);
   (classChoices, Schema.class_choices);
   (alignmentChoices, Schema.alignment_choices);
   (encumbranceChoices, Schema.encumbrance_method_choices);
   (moonNameChoices, Schema.moonName_choices);
   (moonPhaseChoices, Schema.moonPhase_choices);
   (creatureTypeChoices, Schema.creatureType_choices);
   (weaponSizeChoices, Schema.weapon_size_choices);
   (armorBulkChoices, Schema.bulk_choices);
   (armorFitChoices, Schema.fit_choices);
   (foragedTypeChoices, Schema.foraged_type_choices);
   (spellTypeChoices, Schema.spell_type_choices)].

End Localized.

End Dropdowns.

(** ** [DolmenSheet]: equipping, stowing, deleting and dropping items *)

Module DolmenSheetInventory.
Import Data DolmenSheet.

(** [item.update({ 'system.equipped': e })] *)
Definition set_equipped (e : bool) (i : ItemDocument) : ItemDocument :=
  {| item_id := item_id i; item_name := item_name i; item_img := item_img i;
     item_type := item_type i;
     item_system :=
       {| equipped := e; quantity := quantity (item_system i);
          notes := notes (item_system i); damage := damage (item_system i);
          qualities := qualities (item_system i); bulk := bulk (item_system i) |} |}.

(** [item.delete()] on the document [collection.get(id)] returned: that
    document leaves the collection. *)
Fixpoint items_delete (items : list ItemDocument) (id : string) : list ItemDocument :=
  match items with
  | [] => []
  | i :: rest =>
      if String.eqb (item_id i) id then rest else i :: items_delete rest id
  end.

Definition _onEquipItem (itemId : option string) (a : Actor) : Actor :=
  match truthy_id itemId with
  | Some id =>
      match items_get (actor_items a) id with
      | Some _ => set_items (items_update (actor_items a) id (set_equipped true)) a
      | None => a
      end
  | None => a
  end.

Definition _onStowItem (itemId : option string) (a : Actor) : Actor :=
  match truthy_id itemId with
  | Some id =>
      match items_get (actor_items a) id with
      | Some _ => set_items (items_update (actor_items a) id (set_equipped false)) a
      | None => a
      end
  | None => a
  end.

(** [confirmed] is the answer to the confirmation dialog, which is asked
    for only when the item exists. *)
Definition _onDeleteItem (itemId : option string) (confirmed : bool) (a : Actor) : Actor :=
  match truthy_id itemId with
  | Some id =>
      match items_get (actor_items a) id with
      | Some _ =>
          if confirmed then set_items (items_delete (actor_items a) id) a else a
      | None => a
      end
  | None => a
  end.

(** A drop on the sheet: [data.type], the [data-item-list] of the closest
    list element if there is one, the document [Item.fromDropData]
    resolves the data to, and whether its parent is this actor. *)
Record DropEvent := {
  drop_type : string;
  drop_targetList : option string;
  drop_item : ItemDocument;
  drop_ownItem : bool
}.

(** [targetList === 'equipped'] *)
Definition onto_equipped (ev : DropEvent) : bool :=
  match drop_targetList ev with
  | Some l => String.eqb l "equipped"
  | None => false
  end.

(** [item.toObject()] with [system.equipped] assigned; [newId] is the id
    the host gives the document it creates from that data. *)
Definition itemData (ev : DropEvent) (newId : string) : ItemDocument :=
  let item := drop_item ev in
  {| item_id := newId; item_name := item_name item; item_img := item_img item;
     item_type := item_type item;
     item_system := item_system (set_equipped (onto_equipped ev) item) |}.

Definition _onDrop (ev : DropEvent) (newId : string) (a : Actor) : Actor :=
  if String.eqb (drop_type ev) "Item" then
    let item := drop_item ev in
    if negb (drop_ownItem ev) then
      set_items (actor_items a ++ [itemData ev newId]) a
    else
      let equipped' := onto_equipped ev in
      if negb (Bool.eqb (equipped (item_system item)) equipped') then
        set_items (items_update (actor_items a) (item_id item) (set_equipped equipped')) a
      else a
  else a.

End DolmenSheetInventory.

(** ** [DolmenSheet]: tabs and the inventory it shows *)

Module DolmenSheetView.
Import Data DolmenSheet.

(** An entry of [TABS.primary.tabs]. *)
Record TabConfig := { config_id : string; config_icon : string; config_label : string }.

(** [static TABS]: the tab groups, each with its tabs. *)
Definition TABS : list (string * list TabConfig) :=
  [("primary"%string,
    [ {| config_id := "stats"; config_icon := "fas fa-user";
         config_label := "DOLMEN.Tabs.Stats" |};
      {| config_id := "inventory"; config_icon := "fas fa-backpack";
         config_label := "DOLMEN.Tabs.Inventory" |};
      {| config_id := "magic"; config_icon := "fas fa-book-sparkles";
         config_label := "DOLMEN.Tabs.Magic" |};
      {| config_id := "details"; config_icon := "fas fa-eye";
         config_label := "DOLMEN.Tabs.Details" |};
      {| config_id := "notes"; config_icon := "fas fa-note-sticky";
         config_label := "DOLMEN.Tabs.Notes" |} ])].

(** The initial value of the field [tabGroups]. *)
Definition tabGroups_initial : gmap string string := {[ "primary"%string := "stats"%string ]}.

(** A tab object built by [_getTabs]. *)
Record Tab := {
  tab_id : string;
  tab_group : string;
  tab_icon : string;
  tab_label : string;
  tab_active : bool;
  tab_cssClass : string
}.

(** What [_preparePartContext] stores as [context.tab]: a tab object of
    [context.tabs], or the object with only an id and a class. *)
Inductive PartTab :=
| FromTabs (t : Tab)
| Fallback (id cssClass : string).

(** The three range fields of a weapon's system data, as a template
    literal prints them. *)
Record Ranges := { rangeShort : string; rangeMedium : string; rangeLong : string }.

(** [array.join(', ')] *)
Fixpoint join (sep : string) (l : list string) : string :=
  match l with
  | [] => EmptyString
  | [x] => x
  | x :: rest => x +:+ sep +:+ join sep rest
  end.

(** The part of the context of [_prepareContext] that the inventory tab
    shows. *)
Record InventoryContext := {
  equippedByType : list Group;
  stowedByType : list Group;
  hasEquippedItems : bool;
  hasStowedItems : bool
}.

Section Host.

Variable localize : string -> string.

(** The range fields of each item. *)
Variable ranges_of : ItemDocument -> Ranges.

(** [this.tabGroups[groupId] === t.id] *)
Definition is_active (tabGroups : gmap string string) (groupId id : string) : bool :=
  bool_decide (tabGroups !! groupId = Some id).

Definition _getTabs (tabGroups : gmap string string) : gmap string (gmap string Tab) :=
  foldl (fun tabs entry =>
           let groupId := fst entry in
           let group :=
             foldl (fun group t =>
                      <[config_id t :=
                          {| tab_id := config_id t;
                             tab_group := groupId;
                             tab_icon := config_icon t;
                             tab_label := localize (config_label t);
                             tab_active := is_active tabGroups groupId (config_id t);
                             tab_cssClass :=
                               if is_active tabGroups groupId (config_id t)
                               then "active" else EmptyString |}]> group)
                   ∅ (snd entry) in
           <[groupId := group]> tabs)
        ∅ TABS.

Definition _onChangeTab (tabId group : string) (tabGroups : gmap string string)
    : gmap string string :=
  <[group := tabId]> tabGroups.

(** [tabs?.[group]?.[id]] *)
Definition tab_of (tabs : option (gmap string (gmap string Tab))) (group id : string)
    : option Tab :=
  match tabs with
  | Some t => match t !! group with Some g => g !! id | None => None end
  | None => None
  end.

(** [context.tab] after [_preparePartContext], if it is set; [tabs] is
    [context.tabs]. *)
Definition _preparePartContext (partId : string)
    (tabs : option (gmap string (gmap string Tab))) (tabGroups : gmap string string)
    : option PartTab :=
  let tabIds := ["stats"; "inventory"; "magic"; "details"; "notes"]%string in
  if includes tabIds partId then
    match tab_of tabs "primary" partId with
    | Some tab => Some (FromTabs tab)
    | None =>
        Some (Fallback partId
                (if is_active tabGroups "primary" partId then "active" else EmptyString))
    end
  else None.

(** The markup of an icon with its tooltip. *)
Definition icon (name tooltip : string) : string :=
  "<i class=" +:+ String JS.dquote ("fas " +:+ name +:+ " tooltip" +:+ String JS.dquote
    ("><span class=" +:+ String JS.dquote ("tooltiptext" +:+ String JS.dquote
       (">" +:+ tooltip +:+ "</span></i>")))).

Definition _getFaSymbol (quality : string) (item : ItemDocument) : string :=
  let r := ranges_of item in
  let ranges := rangeShort r +:+ "/" +:+ rangeMedium r +:+ "/" +:+ rangeLong r in
  let title := localize ("DOLMEN.Item.Quality." +:+ quality) in
  if String.eqb quality "melee" then icon "fa-sword" title
  else if String.eqb quality "missile"
       then icon "fa-bow-arrow" (title +:+ " (" +:+ ranges +:+ ")")
  else if String.eqb quality "armor-piercing" then icon "fa-bore-hole" title
  else if String.eqb quality "brace" then icon "fa-shield-halved" title
  else if String.eqb quality "reach" then icon "fa-arrows-left-right" title
  else if String.eqb quality "reload" then icon "fa-arrows-rotate" title
  else if String.eqb quality "two-handed" then icon "fa-handshake-angle" title
  else if String.eqb quality "charge" then icon "fa-horse-saddle" title
  else if String.eqb quality "splash" then icon "fa-droplet" title
  else if String.eqb quality "cold-iron" then icon "fa-snowflake" title
  else if String.eqb quality "silver" then icon "fa-star-christmas" title
  else quality.

Definition _prepareItemData (item : ItemDocument) : PreparedItem :=
  let isWeapon := String.eqb (type_name (item_type item)) "Weapon" in
  let isArmor := String.eqb (type_name (item_type item)) "Armor" in
  {| data_id := item_id item;
     data_name := item_name item;
     data_img := item_img item;
     data_type := item_type item;
     data_system := item_system item;
     data_isWeapon := isWeapon;
     data_isArmor := isArmor;
     cssClass := JS.toLowerCase (type_name (item_type item));
     hasNotes := negb (String.eqb (or_string (notes (item_system item)) EmptyString)
                                  EmptyString);
     qualitiesDisplay :=
       match qualities (item_system item) with
       | Some qs =>
           if isWeapon && negb (Z.of_nat (length qs) =? 0)
           then Some (join ", " (map (fun q => _getFaSymbol q item) qs))
           else None
       | None => None
       end;
     bulkDisplay :=
       if isArmor
       then Some (localize ("DOLMEN.Item.Bulk." +:+ bulk (item_system item)))
       else None |}.

(** The inventory of [_prepareContext]. *)
Definition _prepareContext_inventory (a : Actor) : InventoryContext :=
  let items :=
    List.filter (fun i => negb (String.eqb (type_name (item_type i)) "Spell"))
                (actor_items a) in
  let equippedItems :=
    map _prepareItemData (List.filter (fun i => equipped (item_system i)) items) in
  let stowedItems :=
    map _prepareItemData (List.filter (fun i => negb (equipped (item_system i))) items) in
  {| equippedByType := _groupItemsByType localize equippedItems;
     stowedByType := _groupItemsByType localize stowedItems;
     hasEquippedItems := 0 <? Z.of_nat (length equippedItems);
     hasStowedItems := 0 <? Z.of_nat (length stowedItems) |}.

(** [context.creatureTypeLabel] of [_prepareContext]. *)
Definition creatureTypeLabel (a : Actor) : string :=
  localize ("DOLMEN.CreatureTypes." +:+ creatureType (actor_system a)).

End Host.

End DolmenSheetView.

(** ** [DolmenSheet]: the running total of the experience dialog *)

Module DolmenSheetXP.
Import Data DolmenSheet.

(** [updateTotal] of [_openXPDialog]: the text it shows as the total, for
    the texts of the two inputs. *)
Definition updateTotal (a : Actor) (gainedVal bonusVal : string) : option string :=
  let currentXP := JS.or_elseZ (xp_value (xp (actor_system a))) 0 in
  let gained := or0 (JS.parseInt gainedVal) in
  let bonus := or0 (JS.parseInt bonusVal) in
  JS.toString (JS.add (JS.of_Z currentXP) (adjustedXP gained bonus)).

End DolmenSheetXP.

(** ** [DolmenSheet]: the remove-skill button *)

Module DolmenSheetSkills.
Import Data DolmenSheet.

(** The [start] argument of [splice] for a Number that [parseInt]
    returned (NaN, an infinity or an integral Number), as a position for
    [splice1]: NaN counts as 0, and an infinity lies beyond the array of
    length [len] on its side. *)
Definition splice_start (x : JS.Number) (len : Z) : Z :=
  match x with
  | S754_nan => 0
  | S754_infinity false => len
  | S754_infinity true => - len
  | _ => default 0 (JS.to_Z x)
  end.

(** [_onRemoveSkill], and the click listener of a remove button:
    [skillIndex] is the button's [data-skill-index], if it has one. *)
Definition _onRemoveSkill (skillIndex : option string) (w : World) : World :=
  let index := JS.parseInt (default "undefined"%string skillIndex) in
  let len := Z.of_nat (length (extraSkills (actor_system (w_actor w)))) in
  _removeSkill (splice_start index len) w.

End DolmenSheetSkills.

(** * Properties *)

(** ** Shared lemmas on the array and string helpers *)

Section ArrayLemmas.
Import Data.

Lemma includes_In (l : list string) (x : string) :
  includes l x = true <-> In x l.
Proof.
  induction l as [|y l IH]; simpl.
  - split; [discriminate | tauto].
  - rewrite orb_true_iff, IH, String.eqb_eq. tauto.
Qed.

Lemma includes_not_In (l : list string) (x : string) :
  includes l x = false <-> ~ In x l.
Proof.
  rewrite <- includes_In. destruct (includes l x); split; congruence.
Qed.

Lemma or_elseZ_0 (x : Z) : JS.or_elseZ x 0 = x.
Proof.
  unfold JS.or_elseZ. destruct (Z.eqb_spec x 0); congruence.
Qed.

End ArrayLemmas.

(** ** Integers as Numbers

    An integer of magnitude up to [2^53] is a Number, and sums,
    differences, comparisons and the printing of such integers are exact
    while the results stay in that range. *)

Section IntegerNumbers.

Lemma digits2_pos_bounds (p : positive) :
  2 ^ (Z.pos (digits2_pos p) - 1) <= Z.pos p < 2 ^ Z.pos (digits2_pos p).
Proof.
  induction p as [p IH | p IH |]; cbn [digits2_pos].
  - rewrite Pos2Z.inj_succ.
    replace (Z.succ (Z.pos (digits2_pos p)) - 1) with (Z.succ (Z.pos (digits2_pos p) - 1)) by lia.
    rewrite !Z.pow_succ_r by lia. lia.
  - rewrite Pos2Z.inj_succ.
    replace (Z.succ (Z.pos (digits2_pos p)) - 1) with (Z.succ (Z.pos (digits2_pos p) - 1)) by lia.
    rewrite !Z.pow_succ_r by lia. lia.
  - cbn. lia.
Qed.

Lemma digits2_pos_unique (p : positive) (d : Z) :
  2 ^ (d - 1) <= Z.pos p < 2 ^ d -> Z.pos (digits2_pos p) = d.
Proof.
  intros [Hlo Hhi].
  pose proof (digits2_pos_bounds p) as [Hlo' Hhi'].
  set (D := Z.pos (digits2_pos p)) in *.
  assert (0 < d).
  { destruct (Z_lt_le_dec 0 d) as [|Hd]; [assumption|].
    destruct (Z.eq_dec d 0) as [->|]; [cbn in Hhi; lia|].
    rewrite (Z.pow_neg_r 2 d) in Hhi by lia. lia. }
  destruct (Z_lt_le_dec D d) as [Hlt|Hge].
  - assert (2 ^ D <= 2 ^ (d - 1)) by (apply Z.pow_le_mono_r; lia). lia.
  - destruct (Z_lt_le_dec d D) as [Hlt|Hge'].
    + assert (2 ^ d <= 2 ^ (D - 1)) by (apply Z.pow_le_mono_r; lia). lia.
    + lia.
Qed.

Lemma iter_xO (p d : positive) : Z.pos (Pos.iter xO p d) = Z.pos p * 2 ^ Z.pos d.
Proof.
  induction d as [|d IH] using Pos.peano_ind.
  - cbn. lia.
  - rewrite Pos.iter_succ, Pos2Z.inj_succ, Z.pow_succ_r by lia.
    rewrite Pos2Z.inj_xO, IH. lia.
Qed.

Lemma iter_shr_1 (n : positive) :
  forall c, 0 <= c ->
    SpecFloat.iter_pos shr_1 n
      {| shr_m := c * 2 ^ Z.pos n; shr_r := false; shr_s := false |}
    = {| shr_m := c; shr_r := false; shr_s := false |}.
Proof.
  assert (Hone : forall c, 0 <= c ->
            shr_1 {| shr_m := c * 2; shr_r := false; shr_s := false |}
            = {| shr_m := c; shr_r := false; shr_s := false |}).
  { intros c Hc. destruct c as [|c|c]; [reflexivity| |lia].
    replace (Z.pos c * 2) with (Z.pos (xO c)) by lia. reflexivity. }
  induction n as [n IH | n IH |]; intros c Hc; cbn [SpecFloat.iter_pos].
  - replace (c * 2 ^ Z.pos n~1) with (((c * 2 ^ Z.pos n) * 2 ^ Z.pos n) * 2).
    + rewrite Hone by (apply Z.mul_nonneg_nonneg; [apply Z.mul_nonneg_nonneg|]; lia).
      rewrite IH by (apply Z.mul_nonneg_nonneg; lia). apply IH, Hc.
    + replace (Z.pos n~1) with (Z.pos n + Z.pos n + 1) by lia.
      rewrite !Z.pow_add_r by lia. change (2 ^ 1) with 2. lia.
  - replace (c * 2 ^ Z.pos n~0) with ((c * 2 ^ Z.pos n) * 2 ^ Z.pos n).
    + rewrite IH by (apply Z.mul_nonneg_nonneg; lia). apply IH, Hc.
    + replace (Z.pos n~0) with (Z.pos n + Z.pos n) by lia.
      rewrite !Z.pow_add_r by lia. lia.
  - change (2 ^ 1) with 2. apply Hone, Hc.
Qed.

(** A positive integer [M * 2^e] whose leading bit is at most 53 places
    above its last one is a Number: [binary_round] returns it with a
    mantissa of 53 bits. *)
Lemma binary_round_exact (s : bool) (M m : positive) (e t : Z) :
  t = Z.pos (digits2_pos M) + e - 53 ->
  -1074 <= t <= 971 ->
  Z.pos m * 2 ^ (t - Z.min t e) = Z.pos M * 2 ^ (e - Z.min t e) ->
  binary_round JS.prec JS.emax s M e = S754_finite s m t.
Proof.
  intros Ht Hrange Hm0.
  assert (Hm : if t <=? e then Z.pos m = Z.pos M * 2 ^ (e - t)
               else Z.pos M = Z.pos m * 2 ^ (t - e)).
  { destruct (Z.leb_spec t e).
    - rewrite Z.min_l, Z.sub_diag in Hm0 by lia. cbn in Hm0. lia.
    - rewrite Z.min_r, Z.sub_diag in Hm0 by lia. cbn in Hm0. lia. }
  clear Hm0.
  assert (Hfexp : forall d, d + t - 53 = t -> fexp JS.prec JS.emax (d + t) = t).
  { intros d Hd. unfold fexp, emin, JS.prec, JS.emax. lia. }
  assert (Hdm : Z.pos (digits2_pos m) = 53).
  { apply digits2_pos_unique.
    pose proof (digits2_pos_bounds M) as [Hlo Hhi].
    destruct (Z.leb_spec t e) as [Hle|Hlt].
    - rewrite Hm.
      replace (2 ^ (53 - 1)) with (2 ^ (Z.pos (digits2_pos M) - 1) * 2 ^ (e - t))
        by (rewrite <- Z.pow_add_r by lia; f_equal; lia).
      replace (2 ^ 53) with (2 ^ Z.pos (digits2_pos M) * 2 ^ (e - t))
        by (rewrite <- Z.pow_add_r by lia; f_equal; lia).
      assert (0 < 2 ^ (e - t)) by (apply Z.pow_pos_nonneg; lia).
      split; [apply Z.mul_le_mono_nonneg_r|apply Z.mul_lt_mono_pos_r]; lia.
    - assert (0 < 2 ^ (t - e)) by (apply Z.pow_pos_nonneg; lia).
      replace (2 ^ (Z.pos (digits2_pos M) - 1)) with (2 ^ (53 - 1) * 2 ^ (t - e)) in Hlo
        by (rewrite <- Z.pow_add_r by lia; f_equal; lia).
      replace (2 ^ Z.pos (digits2_pos M)) with (2 ^ 53 * 2 ^ (t - e)) in Hhi
        by (rewrite <- Z.pow_add_r by lia; f_equal; lia).
      rewrite Hm in Hlo, Hhi.
      split; [apply Z.mul_le_mono_pos_r in Hlo|apply Z.mul_lt_mono_pos_r in Hhi]; lia. }
  assert (Haux : binary_round_aux JS.prec JS.emax s (Z.pos m) t loc_Exact = S754_finite s m t).
  { unfold binary_round_aux, shr_fexp. cbn [Zdigits2 shr_record_of_loc].
    rewrite Hdm, Hfexp by lia. rewrite Z.sub_diag. cbn [shr shr_m loc_of_shr_record
      round_nearest_even Zdigits2 shr_record_of_loc].
    rewrite Hdm, Hfexp by lia. rewrite Z.sub_diag. cbn [shr shr_m].
    replace (t <=? JS.emax - JS.prec) with true; [reflexivity|].
    symmetry. apply Z.leb_le. unfold JS.emax, JS.prec. lia. }
  unfold binary_round.
  replace (fexp JS.prec JS.emax (Z.pos (digits2_pos M) + e)) with t
    by (unfold fexp, emin, JS.prec, JS.emax; lia).
  unfold shl_align.
  destruct (Z.leb_spec t e) as [Hle|Hlt].
  - destruct (t - e) as [|d|d] eqn:Hd; try lia.
    + assert (M = m) as ->.
      { replace (e - t) with 0 in Hm by lia. cbn in Hm. lia. }
      replace e with t by lia. exact Haux.
    + assert (Pos.iter xO M d = m) as ->; [|exact Haux].
      apply Pos2Z.inj. rewrite iter_xO, Hm. f_equal. f_equal. lia.
  - destruct (t - e) as [|d|d] eqn:Hd; try lia.
    unfold binary_round_aux, shr_fexp. cbn [Zdigits2 shr_record_of_loc].
    replace (fexp JS.prec JS.emax (Z.pos (digits2_pos M) + e) - e) with (Z.pos d)
      by (unfold fexp, emin, JS.prec, JS.emax; lia).
    cbn [shr]. rewrite Hm, iter_shr_1 by lia.
    cbn [shr_m loc_of_shr_record round_nearest_even Zdigits2 shr_record_of_loc].
    replace (e + Z.pos d) with t by lia.
    rewrite Hdm, Hfexp by lia. rewrite Z.sub_diag. cbn [shr shr_m].
    replace (t <=? JS.emax - JS.prec) with true; [reflexivity|].
    symmetry. apply Z.leb_le. unfold JS.emax, JS.prec. lia.
Qed.


(** The Number of an integer of magnitude up to [2^53]: its exponent and
    its mantissa of 53 bits. *)
Definition int_exponent (z : Z) : Z := Zdigits2 z - 53.

Definition int_mantissa (z : Z) : positive :=
  Z.to_pos (if int_exponent z <=? 0 then Z.abs z * 2 ^ (- int_exponent z) else Z.abs z / 2).

Lemma Zdigits2_bounds (z : Z) :
  z <> 0 -> 2 ^ (Zdigits2 z - 1) <= Z.abs z < 2 ^ Zdigits2 z.
Proof.
  destruct z as [|p|p]; intros Hz; [contradiction| |]; cbn [Zdigits2 Z.abs];
    apply digits2_pos_bounds.
Qed.

Lemma int_exponent_range (z : Z) :
  z <> 0 -> Z.abs z <= 2 ^ 53 -> -52 <= int_exponent z <= 1.
Proof.
  intros Hz Hb. pose proof (Zdigits2_bounds z Hz) as [Hlo Hhi].
  unfold int_exponent.
  assert (0 < Zdigits2 z) by (destruct z; cbn; lia).
  destruct (Z_lt_le_dec 54 (Zdigits2 z)).
  - assert (2 ^ 54 <= 2 ^ (Zdigits2 z - 1)) by (apply Z.pow_le_mono_r; lia).
    assert (2 ^ 53 < 2 ^ 54) by (apply Z.pow_lt_mono_r; lia). lia.
  - lia.
Qed.

Lemma int_mantissa_value (z : Z) :
  z <> 0 -> Z.abs z <= 2 ^ 53 ->
  Z.pos (int_mantissa z) * 2 ^ (int_exponent z + 52) = Z.abs z * 2 ^ 52.
Proof.
  intros Hz Hb. pose proof (int_exponent_range z Hz Hb) as Hr.
  pose proof (Zdigits2_bounds z Hz) as [Hlo Hhi].
  unfold int_mantissa. destruct (Z.leb_spec (int_exponent z) 0) as [Hle|Hgt].
  - assert (0 < 2 ^ (- int_exponent z)) by (apply Z.pow_pos_nonneg; lia).
    rewrite Z2Pos.id by nia.
    rewrite <- Z.mul_assoc, <- Z.pow_add_r by lia. do 2 f_equal. lia.
  - assert (He : int_exponent z = 1) by lia.
    assert (Habs : Z.abs z = 2 ^ 53).
    { unfold int_exponent in He. replace (Zdigits2 z - 1) with 53 in Hlo by lia. lia. }
    rewrite He, Habs. reflexivity.
Qed.

Lemma of_Z_finite (z : Z) :
  z <> 0 -> Z.abs z <= 2 ^ 53 ->
  JS.of_Z z = S754_finite (z <? 0) (int_mantissa z) (int_exponent z).
Proof.
  intros Hz Hb. pose proof (int_exponent_range z Hz Hb) as Hr.
  pose proof (int_mantissa_value z Hz Hb) as Hv.
  assert (Hround : forall s p, Z.abs z = Z.pos p -> Zdigits2 z = Z.pos (digits2_pos p) ->
            binary_round JS.prec JS.emax s p 0
            = S754_finite s (int_mantissa z) (int_exponent z)).
  { intros s p Hp Hd. apply binary_round_exact.
    - unfold int_exponent. lia.
    - lia.
    - rewrite <- Hp. destruct (Z.leb_spec (int_exponent z) 0) as [Hle|Hgt].
      + rewrite Z.min_l, Z.sub_diag, Z.pow_0_r, Z.mul_1_r by lia.
        replace (0 - int_exponent z) with (- int_exponent z) by lia.
        assert (H52 : 2 ^ 52 = 2 ^ (- int_exponent z) * 2 ^ (int_exponent z + 52))
          by (rewrite <- Z.pow_add_r by lia; f_equal; lia).
        rewrite H52, Z.mul_assoc in Hv.
        apply Z.mul_cancel_r in Hv; [exact Hv | apply Z.pow_nonzero; lia].
      + rewrite Z.min_r by lia. rewrite !Z.sub_0_r. cbn [Z.pow Z.pow_pos Pos.iter Z.mul].
        replace (int_exponent z) with 1 in * by lia. change (2 ^ (1 + 52)) with (2 ^ 52 * 2) in Hv.
        change (2 ^ 1) with 2. lia. }
  unfold JS.of_Z, binary_normalize.
  destruct z as [|p|p]; [contradiction| |]; apply Hround; reflexivity.
Qed.

Lemma Zdigits2_abs (z : Z) : Zdigits2 (Z.abs z) = Zdigits2 z.
Proof. destruct z; reflexivity. Qed.

Lemma Zdigits2_opp (z : Z) : Zdigits2 (- z) = Zdigits2 z.
Proof. destruct z; reflexivity. Qed.

(** The mantissa with its sign, against the integer. *)
Lemma int_mantissa_cases (z : Z) :
  z <> 0 -> Z.abs z <= 2 ^ 53 ->
  let v := JS.signed (z <? 0) (int_mantissa z) in
  (int_exponent z <= 0 /\ v = z * 2 ^ (- int_exponent z)) \/
  (int_exponent z = 1 /\ z = 2 * v /\ Z.abs z = 2 ^ 53).
Proof.
  intros Hz Hb v. pose proof (int_exponent_range z Hz Hb) as Hr.
  pose proof (Zdigits2_bounds z Hz) as [Hlo Hhi].
  assert (Hv : v = Z.sgn z * Z.pos (int_mantissa z)).
  { unfold v, JS.signed. generalize (int_mantissa z).
    destruct z; [contradiction|reflexivity|reflexivity]. }
  unfold int_mantissa in Hv.
  destruct (Z.leb_spec (int_exponent z) 0) as [Hle|Hgt].
  - left. split; [exact Hle|].
    assert (0 < 2 ^ (- int_exponent z)) by (apply Z.pow_pos_nonneg; lia).
    rewrite Z2Pos.id in Hv by nia. rewrite Hv. rewrite Z.mul_assoc. f_equal. lia.
  - right. assert (He : int_exponent z = 1) by lia.
    assert (Habs : Z.abs z = 2 ^ 53).
    { unfold int_exponent in He. replace (Zdigits2 z - 1) with 53 in Hlo by lia. lia. }
    rewrite Habs in Hv. change (2 ^ 53 / 2) with (2 ^ 52) in Hv.
    change (Z.pos (Z.to_pos (2 ^ 52))) with (2 ^ 52) in Hv.
    split; [exact He|]. split; [|exact Habs]. change (2 ^ 53) with (2 * 2 ^ 52) in Habs. lia.
Qed.

Lemma digits2_pos_scale (p M : positive) (j : Z) :
  0 <= j -> Z.pos M = Z.pos p * 2 ^ j ->
  Z.pos (digits2_pos M) = Z.pos (digits2_pos p) + j.
Proof.
  intros Hj HM. apply digits2_pos_unique.
  pose proof (digits2_pos_bounds p) as [Hlo Hhi].
  assert (0 < 2 ^ j) by (apply Z.pow_pos_nonneg; lia).
  rewrite HM.
  replace (Z.pos (digits2_pos p) + j - 1) with (Z.pos (digits2_pos p) - 1 + j) by lia.
  rewrite !Z.pow_add_r by lia.
  split; [apply Z.mul_le_mono_nonneg_r|apply Z.mul_lt_mono_pos_r]; lia.
Qed.

(** An integer of magnitude up to [2^53] scaled by a power of 2 is
    normalized to the Number of the integer. *)
Lemma normalize_exact (c j : Z) :
  0 <= j -> Z.abs c <= 2 ^ 53 ->
  binary_normalize JS.prec JS.emax (c * 2 ^ j) (- j) false = JS.of_Z c.
Proof.
  intros Hj Hb. destruct (Z.eq_dec c 0) as [->|Hc]; [reflexivity|].
  rewrite of_Z_finite by assumption.
  pose proof (int_exponent_range c Hc Hb) as Hr.
  pose proof (int_mantissa_cases c Hc Hb) as Hcases. cbv zeta in Hcases.
  assert (0 < 2 ^ j) by (apply Z.pow_pos_nonneg; lia).
  assert (Hround : forall s p, Z.abs c = Z.pos p -> s = (c <? 0) ->
            binary_round JS.prec JS.emax s (Z.to_pos (Z.pos p * 2 ^ j)) (- j)
            = S754_finite s (int_mantissa c) (int_exponent c)).
  { intros s p Hp Hs.
    assert (HM : Z.pos (Z.to_pos (Z.pos p * 2 ^ j)) = Z.pos p * 2 ^ j)
      by (apply Z2Pos.id; nia).
    assert (Hm : Z.pos (int_mantissa c) = Z.abs (JS.signed (c <? 0) (int_mantissa c))).
    { unfold JS.signed. destruct (c <? 0); reflexivity. }
    apply binary_round_exact.
    - rewrite (digits2_pos_scale p _ j Hj HM). unfold int_exponent.
      rewrite <- Zdigits2_abs, Hp. cbn [Zdigits2]. lia.
    - lia.
    - rewrite HM, <- Hp, Hm.
      destruct Hcases as [[Hle Hv]|[He [Hv Habs]]].
      + rewrite Hv, Z.abs_mul, (Z.abs_eq (2 ^ _)) by (apply Z.pow_nonneg; lia).
        rewrite <- !Z.mul_assoc, <- !Z.pow_add_r by lia. do 2 f_equal. lia.
      + rewrite He. rewrite Z.min_r by lia.
        replace (Z.abs c) with (2 * Z.abs (JS.signed (c <? 0) (int_mantissa c))) by lia.
        replace (- j - - j) with 0 by lia. replace (1 - - j) with (1 + j) by lia.
        rewrite Z.pow_0_r, Z.pow_add_r by lia. change (2 ^ 1) with 2. lia. }
  destruct c as [|p|p]; [contradiction| |].
  - replace (Z.pos p * 2 ^ j) with (Z.pos (Z.to_pos (Z.pos p * 2 ^ j)))
      by (apply Z2Pos.id; nia).
    cbn [binary_normalize]. apply Hround; reflexivity.
  - replace (Z.neg p * 2 ^ j) with (Z.neg (Z.to_pos (Z.pos p * 2 ^ j))).
    + cbn [binary_normalize]. apply Hround; reflexivity.
    + rewrite <- Pos2Z.opp_pos, Z2Pos.id by nia. lia.
Qed.

Lemma to_Z_of_Z (z : Z) :
  Z.abs z <= 2 ^ 53 -> JS.to_Z (JS.of_Z z) = Some z.
Proof.
  intros Hb. destruct (Z.eq_dec z 0) as [->|Hz]; [reflexivity|].
  rewrite of_Z_finite by assumption.
  pose proof (int_exponent_range z Hz Hb) as Hr.
  pose proof (int_mantissa_cases z Hz Hb) as Hcases. cbv zeta in Hcases.
  unfold JS.to_Z, JS.mul_pow2, JS.floor_div_pow2.
  destruct Hcases as [[Hle Hv]|[He [Hv Habs]]].
  - rewrite Hv. destruct (Z.leb_spec 0 (int_exponent z)).
    + replace (int_exponent z) with 0 by lia. cbn [Z.opp]. rewrite Z.pow_0_r, Z.mul_1_r.
      rewrite Z.shiftl_0_r. reflexivity.
    + assert (2 ^ (- int_exponent z) <> 0) by (apply Z.pow_nonzero; lia).
      rewrite Z.shiftr_div_pow2, Z.div_mul, Z.shiftl_mul_pow2, Z.eqb_refl by lia.
      reflexivity.
  - rewrite He. cbn [Z.leb Z.compare]. rewrite Z.shiftl_mul_pow2 by lia.
    change (2 ^ 1) with 2. f_equal. lia.
Qed.

Lemma shl_align_value (m : positive) (e ez : Z) :
  ez <= e -> Z.pos (fst (shl_align m e ez)) = Z.pos m * 2 ^ (e - ez).
Proof.
  intros Hle. unfold shl_align. destruct (ez - e) as [|d|d] eqn:Hd; cbn [fst]; try lia.
  - replace (e - ez) with 0 by lia. lia.
  - rewrite iter_xO. do 2 f_equal. lia.
Qed.

Lemma cond_Zopp_signed (s : bool) (m : positive) (k : Z) :
  cond_Zopp s (Z.pos m * k) = JS.signed s m * k.
Proof. destruct s; cbn [cond_Zopp JS.signed]; lia. Qed.

(** The mantissa of the Number of [z] aligned to an exponent [ez]. *)
Lemma aligned_value (z ez : Z) :
  z <> 0 -> Z.abs z <= 2 ^ 53 -> ez <= int_exponent z -> ez <= 0 ->
  cond_Zopp (z <? 0) (Z.pos (fst (shl_align (int_mantissa z) (int_exponent z) ez)))
  = z * 2 ^ (- ez).
Proof.
  intros Hz Hb Hez H0. rewrite shl_align_value, cond_Zopp_signed by lia.
  pose proof (int_exponent_range z Hz Hb) as Hr.
  destruct (int_mantissa_cases z Hz Hb) as [[Hle Hv]|[He [Hv Habs]]].
  - rewrite Hv, <- Z.mul_assoc, <- Z.pow_add_r by lia. do 2 f_equal. lia.
  - rewrite He. replace (1 - ez) with (1 + - ez) by lia.
    rewrite Z.pow_add_r by lia. change (2 ^ 1) with 2.
    set (v := JS.signed (z <? 0) (int_mantissa z)) in *. clearbody v.
    rewrite Hv. ring.
Qed.

Lemma add_zero_l (y : JS.Number) :
  (forall s, y <> S754_zero s \/ s = false) -> JS.add (JS.of_Z 0) y = y.
Proof.
  intros Hy. destruct y as [s| | |]; try reflexivity.
  destruct (Hy s) as [H| ->]; [congruence|reflexivity].
Qed.

Lemma of_Z_not_negative_zero (z : Z) (s : bool) :
  Z.abs z <= 2 ^ 53 -> JS.of_Z z <> S754_zero s \/ s = false.
Proof.
  intros Hb. destruct (Z.eq_dec z 0) as [->|Hz].
  - destruct s; [left; discriminate|right; reflexivity].
  - left. rewrite of_Z_finite by assumption. discriminate.
Qed.

(** [a + b] and [a - b] on integers, while the operands and the result
    have magnitude up to [2^53]. *)
Lemma add_exact (a b : Z) :
  Z.abs a <= 2 ^ 53 -> Z.abs b <= 2 ^ 53 -> Z.abs (a + b) <= 2 ^ 53 ->
  JS.add (JS.of_Z a) (JS.of_Z b) = JS.of_Z (a + b).
Proof.
  intros Ha Hb Hab.
  destruct (Z.eq_dec a 0) as [->|Hza].
  { apply add_zero_l. intros s. apply of_Z_not_negative_zero, Hb. }
  destruct (Z.eq_dec b 0) as [->|Hzb].
  { rewrite Z.add_0_r, (of_Z_finite a) by assumption. reflexivity. }
  rewrite (of_Z_finite a), (of_Z_finite b) by assumption.
  pose proof (int_exponent_range a Hza Ha) as Hra.
  pose proof (int_exponent_range b Hzb Hb) as Hrb.
  unfold JS.add, SFadd. cbv zeta.
  set (ez := Z.min (int_exponent a) (int_exponent b)).
  destruct (Z_le_gt_dec ez 0) as [Hez|Hez].
  - rewrite !aligned_value by (unfold ez; lia).
    rewrite <- Z.mul_add_distr_r.
    pose proof (normalize_exact (a + b) (- ez)) as Hn.
    rewrite Z.opp_involutive in Hn. apply Hn; lia.
  - assert (Hea : int_exponent a = 1) by (unfold ez in Hez; lia).
    assert (Heb : int_exponent b = 1) by (unfold ez in Hez; lia).
    destruct (int_mantissa_cases a Hza Ha) as [[Hle _]|[_ [Hva Hab']]]; [lia|].
    destruct (int_mantissa_cases b Hzb Hb) as [[Hle _]|[_ [Hvb Hbb']]]; [lia|].
    assert (Hsum : a + b = 0) by lia.
    rewrite Hsum. unfold ez. rewrite Hea, Heb. cbn [Z.min Z.compare].
    rewrite !shl_align_value by lia. rewrite Z.sub_diag, Z.pow_0_r, !cond_Zopp_signed.
    replace (JS.signed (a <? 0) (int_mantissa a) * 1 + JS.signed (b <? 0) (int_mantissa b) * 1)
      with 0 by lia.
    reflexivity.
Qed.

Lemma of_Z_opp (z : Z) :
  z <> 0 -> Z.abs z <= 2 ^ 53 ->
  JS.of_Z (- z) = S754_finite (negb (z <? 0)) (int_mantissa z) (int_exponent z).
Proof.
  intros Hz Hb. rewrite of_Z_finite by lia.
  unfold int_mantissa, int_exponent. rewrite Zdigits2_opp, Z.abs_opp.
  f_equal. destruct z; [contradiction|reflexivity|reflexivity].
Qed.

Lemma sub_exact (a b : Z) :
  Z.abs a <= 2 ^ 53 -> Z.abs b <= 2 ^ 53 -> Z.abs (a - b) <= 2 ^ 53 ->
  JS.sub (JS.of_Z a) (JS.of_Z b) = JS.of_Z (a - b).
Proof.
  intros Ha Hb Hab.
  destruct (Z.eq_dec b 0) as [->|Hzb].
  { rewrite Z.sub_0_r. destruct (Z.eq_dec a 0) as [->|Hza]; [reflexivity|].
    rewrite (of_Z_finite a) by assumption. reflexivity. }
  destruct (Z.eq_dec a 0) as [->|Hza].
  { rewrite Z.sub_0_l, of_Z_opp, (of_Z_finite b) by assumption. reflexivity. }
  rewrite (of_Z_finite a), (of_Z_finite b) by assumption.
  pose proof (int_exponent_range a Hza Ha) as Hra.
  pose proof (int_exponent_range b Hzb Hb) as Hrb.
  unfold JS.sub, SFsub. cbv zeta.
  set (ez := Z.min (int_exponent a) (int_exponent b)).
  destruct (Z_le_gt_dec ez 0) as [Hez|Hez].
  - rewrite !aligned_value by (unfold ez; lia).
    rewrite <- Z.mul_sub_distr_r.
    pose proof (normalize_exact (a - b) (- ez)) as Hn.
    rewrite Z.opp_involutive in Hn. apply Hn; lia.
  - assert (Hea : int_exponent a = 1) by (unfold ez in Hez; lia).
    assert (Heb : int_exponent b = 1) by (unfold ez in Hez; lia).
    destruct (int_mantissa_cases a Hza Ha) as [[Hle _]|[_ [Hva Hab']]]; [lia|].
    destruct (int_mantissa_cases b Hzb Hb) as [[Hle _]|[_ [Hvb Hbb']]]; [lia|].
    assert (Hsum : a - b = 0) by lia.
    rewrite Hsum. unfold ez. rewrite Hea, Heb. cbn [Z.min Z.compare].
    rewrite !shl_align_value by lia. rewrite Z.sub_diag, Z.pow_0_r, !cond_Zopp_signed.
    replace (JS.signed (a <? 0) (int_mantissa a) * 1 - JS.signed (b <? 0) (int_mantissa b) * 1)
      with 0 by lia.
    reflexivity.
Qed.

Lemma abs_of_Z (z : Z) :
  Z.abs z <= 2 ^ 53 -> JS.abs (JS.of_Z z) = JS.of_Z (Z.abs z).
Proof.
  intros Hb. destruct (Z.eq_dec z 0) as [->|Hz]; [reflexivity|].
  rewrite !of_Z_finite by lia. unfold JS.abs, SFabs, int_mantissa, int_exponent.
  rewrite Zdigits2_abs, Z.abs_idemp. f_equal.
  symmetry. apply Z.ltb_ge. lia.
Qed.

Lemma le_zero_of_Z (z : Z) :
  Z.abs z <= 2 ^ 53 -> JS.le (JS.of_Z 0) (JS.of_Z z) = (0 <=? z).
Proof.
  intros Hb. destruct (Z.eq_dec z 0) as [->|Hz]; [reflexivity|].
  rewrite (of_Z_finite z) by assumption.
  destruct z; [contradiction|reflexivity|reflexivity].
Qed.

Lemma lt_one_of_Z (q : Z) :
  Z.abs q <= 2 ^ 53 -> JS.lt (JS.of_Z 1) (JS.of_Z q) = (1 <? q).
Proof.
  intros Hb. destruct (Z.eq_dec q 0) as [->|Hz]; [reflexivity|].
  rewrite (of_Z_finite q) by assumption.
  destruct q as [|p|p]; [contradiction| |reflexivity].
  change (JS.of_Z 1) with (S754_finite false 4503599627370496 (-52)).
  change (Z.pos p <? 0) with false.
  pose proof (digits2_pos_bounds p) as [Hlo Hhi].
  destruct (Pos.eq_dec p 1%positive) as [->|Hp]; [reflexivity|].
  assert (Hd : 2 <= Z.pos (digits2_pos p)).
  { destruct p; cbn [digits2_pos]; lia. }
  assert (Hcmp : (-52 ?= int_exponent (Z.pos p)) = Lt).
  { apply Z.compare_lt_iff. unfold int_exponent. cbn [Zdigits2]. lia. }
  unfold JS.lt, SFltb, SFcompare. rewrite Hcmp.
  symmetry. apply Z.ltb_lt. lia.
Qed.

(** Integers of magnitude up to [2^53] print as their decimal digits. *)
Lemma Number_toString_of_Z (z : Z) :
  Z.abs z <= 2 ^ 53 -> JS.Number_toString (JS.of_Z z) = JS.decimal z.
Proof.
  intros Hb. destruct (Z.eq_dec z 0) as [->|Hz]; [reflexivity|].
  destruct (Z.eq_dec z (2 ^ 53)) as [->|Hhi]; [vm_compute; reflexivity|].
  destruct (Z.eq_dec z (- 2 ^ 53)) as [->|Hlo]; [vm_compute; reflexivity|].
  pose proof (to_Z_of_Z (Z.abs z)) as Habs.
  rewrite Z.abs_idemp, of_Z_finite in Habs by lia.
  rewrite of_Z_finite by assumption.
  unfold JS.Number_toString.
  unfold int_mantissa, int_exponent in Habs. rewrite Zdigits2_abs, Z.abs_idemp in Habs.
  replace (Z.abs z <? 0) with false in Habs by (symmetry; apply Z.ltb_ge; lia).
  fold (int_exponent z) in Habs. fold (int_mantissa z) in Habs.
  rewrite Habs by lia.
  replace (Z.abs z <? 2 ^ 53) with true by (symmetry; apply Z.ltb_lt; lia).
  destruct z as [|p|p]; [contradiction|reflexivity|reflexivity].
Qed.

End IntegerNumbers.

(** ** Ability modifiers *)

Section Modifiers.
Import Data AdventurerDataModel.

(** The table of the rules as bands [(lowest score, highest score,
    modifier)] over the scores 3..18. *)
Definition modifier_bands : list (Z * Z * Z) :=
  [(3, 3, -3); (4, 5, -2); (6, 8, -1); (9, 12, 0); (13, 15, 1); (16, 17, 2); (18, 18, 3)].

Lemma derive_mod_score (a : Ability) : score (derive_mod a) = score a.
Proof. reflexivity. Qed.

Lemma derive_mod_mod (a : Ability) :
  ability_mod (derive_mod a) = computeModifier (score a).
Proof. reflexivity. Qed.

(** C2. For a score [s] in 3..18 [computeModifier s] is the modifier of
    the band of the table that holds [s] (and one band does), it agrees
    with the table at the boundary scores 3, 5, 8, 12, 15, 17 and 18, and
    [prepareDerivedData] leaves every ability of an adventurer with its
    score unchanged and its modifier equal to [computeModifier] of that
    score. *)
Theorem computeModifier_table (s : Z) (d : AdventurerData) :
  3 <= s <= 18 ->
  (exists lo hi m, In (lo, hi, m) modifier_bands /\ lo <= s <= hi) /\
  (forall lo hi m,
      In (lo, hi, m) modifier_bands -> lo <= s <= hi -> computeModifier s = m) /\
  map computeModifier [3; 5; 8; 12; 15; 17; 18] = [-3; -2; -1; 0; 1; 2; 3] /\
  Forall (fun a => ability_mod a = computeModifier (score a))
         (Object_values (abilities (prepareDerivedData d))) /\
  map score (Object_values (abilities (prepareDerivedData d)))
  = map score (Object_values (abilities d)).
Proof.
  intros Hs. repeat split.
  - assert (Hc : s = 3 \/ 4 <= s <= 5 \/ 6 <= s <= 8 \/ 9 <= s <= 12
                 \/ 13 <= s <= 15 \/ 16 <= s <= 17 \/ s = 18) by lia.
    unfold modifier_bands.
    destruct Hc as [H|[H|[H|[H|[H|[H|H]]]]]].
    + exists 3, 3, (-3). simpl. split; [tauto | lia].
    + exists 4, 5, (-2). simpl. split; [tauto | lia].
    + exists 6, 8, (-1). simpl. split; [tauto | lia].
    + exists 9, 12, 0. simpl. split; [tauto | lia].
    + exists 13, 15, 1. simpl. split; [tauto | lia].
    + exists 16, 17, 2. simpl. split; [tauto | lia].
    + exists 18, 18, 3. simpl. split; [tauto | lia].
  - intros lo hi m Hin Hband. unfold computeModifier.
    simpl in Hin.
    repeat (destruct Hin as [Hin|Hin];
            [ injection Hin as <- <- <-;
              repeat match goal with
                     | |- context [?a <=? ?b] => destruct (Z.leb_spec a b); try lia
                     end; reflexivity
            | ]).
    contradiction.
  - repeat constructor.
Qed.

Lemma computeModifier_table_witness :
  3 <= 12 <= 18 /\ computeModifier 12 = 0.
Proof.
  split; [lia |].
  destruct (computeModifier_table 12
              {| attack := 0;
                 abilities :=
                   {| strength := {| score := 12; ability_mod := 0 |};
                      intelligence := {| score := 10; ability_mod := 0 |};
                      wisdom := {| score := 10; ability_mod := 0 |};
                      dexterity := {| score := 10; ability_mod := 0 |};
                      constitution := {| score := 10; ability_mod := 0 |};
                      charisma := {| score := 10; ability_mod := 0 |} |};
                 kindred := "human"; creatureType := "mortal";
                 xp := {| xp_value := 0; xp_nextLevel := 2000; xp_modifier := 0 |};
                 extraSkills := [] |}) as (_ & H & _); [lia |].
  apply (H 9 12 0); [simpl; tauto | lia].
Defined.

End Modifiers.

(** ** Attack roll formula *)

Section AttackFormula.
Import Data DolmenSheet.

Definition sample_abilities (str dex : Z) : Abilities :=
  {| strength := {| score := 10; ability_mod := str |};
     intelligence := {| score := 10; ability_mod := 0 |};
     wisdom := {| score := 10; ability_mod := 0 |};
     dexterity := {| score := 10; ability_mod := dex |};
     constitution := {| score := 10; ability_mod := 0 |};
     charisma := {| score := 10; ability_mod := 0 |} |}.

Definition sample_adventurer (atk str dex : Z) : AdventurerData :=
  {| attack := atk; abilities := sample_abilities str dex;
     kindred := "human"; creatureType := "mortal";
     xp := {| xp_value := 0; xp_nextLevel := 2000; xp_modifier := 0 |};
     extraSkills := [] |}.

Example formula_3 : _buildAttackFormula (JS.of_Z 3) = "1d20 + 3"%string.
Proof. reflexivity. Qed.

Example formula_minus_2 : _buildAttackFormula (JS.of_Z (-2)) = "1d20 - 2"%string.
Proof. reflexivity. Qed.

Example formula_0 : _buildAttackFormula (JS.of_Z 0) = "1d20 + 0"%string.
Proof. reflexivity. Qed.

(** The sum of the attack bonus and the modifier, and the formula built
    from it, while the bonus, the modifier and their sum [t] have magnitude
    up to [2^53]. *)
Lemma totalMod_exact (a : Actor) (attackType : string) (t : Z) :
  t = attack (actor_system a)
      + (if String.eqb attackType "melee"
         then ability_mod (strength (abilities (actor_system a)))
         else ability_mod (dexterity (abilities (actor_system a)))) ->
  Z.abs (attack (actor_system a)) <= 2 ^ 53 ->
  Z.abs (t - attack (actor_system a)) <= 2 ^ 53 ->
  Z.abs t <= 2 ^ 53 ->
  totalMod (_getAttackModifiers a attackType) = JS.of_Z t.
Proof.
  intros Ht Ha Hm Hb. unfold _getAttackModifiers, totalMod. cbn [snd].
  assert (Hor : JS.or_else (JS.of_Z (attack (actor_system a))) (JS.of_Z 0)
                = JS.of_Z (attack (actor_system a))).
  { destruct (Z.eq_dec (attack (actor_system a)) 0) as [->|Hz]; [reflexivity|].
    rewrite of_Z_finite by assumption. reflexivity. }
  rewrite Hor.
  destruct (String.eqb attackType "melee");
    (rewrite add_exact;
     [ rewrite Ht; reflexivity
     | assumption
     | match goal with
       | |- Z.abs ?m <= _ => replace m with (t - attack (actor_system a)) by lia
       end; exact Hm
     | rewrite <- Ht; exact Hb ]).
Qed.

Lemma buildAttackFormula_exact (t : Z) :
  Z.abs t <= 2 ^ 53 ->
  _buildAttackFormula (JS.of_Z t)
  = if 0 <=? t then "1d20 + " +:+ JS.decimal t else "1d20 - " +:+ JS.decimal (Z.abs t).
Proof.
  intros Hb. unfold _buildAttackFormula.
  rewrite le_zero_of_Z, abs_of_Z, !Number_toString_of_Z by lia.
  reflexivity.
Qed.

(** C1. While the attack bonus, the modifier and their sum
    have magnitude up to [2^53], the modifier [t] of an attack is the
    actor's attack bonus plus the strength modifier for a melee attack and
    plus the dexterity modifier for a missile attack, and the formula built
    for it is "1d20 + " followed by the decimal digits of [t] when [t] is
    not negative and "1d20 - " followed by the decimal digits of [|t|] when
    it is negative, so that a modifier of 0 gives "1d20 + 0". *)
Theorem attack_formula_by_sign (a : Actor) (attackType : string) (t : Z) :
  (attackType = "melee"%string /\
     t = attack (actor_system a)
         + ability_mod (strength (abilities (actor_system a)))) \/
  (attackType = "missile"%string /\
     t = attack (actor_system a)
         + ability_mod (dexterity (abilities (actor_system a)))) ->
  Z.abs (attack (actor_system a)) <= 2 ^ 53 ->
  Z.abs (t - attack (actor_system a)) <= 2 ^ 53 ->
  Z.abs t <= 2 ^ 53 ->
  totalMod (_getAttackModifiers a attackType) = JS.of_Z t /\
  JS.to_Z (totalMod (_getAttackModifiers a attackType)) = Some t /\
  (0 <= t ->
     _buildAttackFormula (totalMod (_getAttackModifiers a attackType))
     = "1d20 + " +:+ JS.decimal t) /\
  (t < 0 ->
     _buildAttackFormula (totalMod (_getAttackModifiers a attackType))
     = "1d20 - " +:+ JS.decimal (- t)) /\
  (t = 0 ->
     _buildAttackFormula (totalMod (_getAttackModifiers a attackType))
     = "1d20 + 0"%string).
Proof.
  intros Hkind Ha Hm Hb.
  assert (Htotal : totalMod (_getAttackModifiers a attackType) = JS.of_Z t).
  { apply totalMod_exact; try assumption.
    destruct Hkind as [[-> ->]|[-> ->]]; reflexivity. }
  rewrite Htotal, buildAttackFormula_exact, to_Z_of_Z by assumption.
  split; [reflexivity|]. split; [reflexivity|]. split; [|split].
  - intros H. destruct (Z.leb_spec 0 t); [reflexivity|lia].
  - intros H. destruct (Z.leb_spec 0 t); [lia|]. rewrite Z.abs_neq by lia. reflexivity.
  - intros ->. reflexivity.
Qed.

Lemma attack_formula_by_sign_witness :
  _buildAttackFormula
    (totalMod (_getAttackModifiers
                 {| actor_system := sample_adventurer 1 (-3) 2; actor_items := [] |}
                 "melee"))
  = "1d20 - 2"%string.
Proof.
  destruct (attack_formula_by_sign
              {| actor_system := sample_adventurer 1 (-3) 2; actor_items := [] |}
              "melee" (-2)) as (_ & _ & _ & H & _).
  - left. split; reflexivity.
  - vm_compute. discriminate.
  - vm_compute. discriminate.
  - vm_compute. discriminate.
  - apply H. lia.
Defined.

(** C1 does not extend beyond [2^53]: with an attack bonus of [2^53] and
    a strength modifier of 1 the sum of the two Numbers is [2^53], and the
    formula of a melee attack shows 9007199254740992 where the integer sum
    is 9007199254740993. *)
Lemma attack_formula_beyond_safe_integers :
  let a := {| actor_system := sample_adventurer (2 ^ 53) 1 0; actor_items := [] |} in
  let t := attack (actor_system a)
           + ability_mod (strength (abilities (actor_system a))) in
  0 <= t /\
  JS.decimal t = "9007199254740993"%string /\
  _buildAttackFormula (totalMod (_getAttackModifiers a "melee"))
  = "1d20 + 9007199254740992"%string /\
  _buildAttackFormula (totalMod (_getAttackModifiers a "melee"))
  <> "1d20 + " +:+ JS.decimal t.
Proof.
  cbv zeta. split; [vm_compute; discriminate|].
  split; [vm_compute; reflexivity|].
  split; [vm_compute; reflexivity|vm_compute; discriminate].
Qed.

End AttackFormula.

(** ** Weapon quality checkboxes *)

Section Qualities.
Import Data DolmenItemSheet.

(** [indexOf] finds the first occurrence: nothing before it is equal. *)
Lemma indexOf_from_first (l : list string) (x : string) (i : Z) :
  In x l ->
  exists before after,
    l = before ++ x :: after /\ ~ In x before /\
    indexOf_from l x i = i + Z.of_nat (length before).
Proof.
  revert i. induction l as [|y l IH]; intros i Hin; [destruct Hin |].
  simpl. destruct (String.eqb_spec y x) as [->|Hne].
  - exists [], l. simpl. repeat split; [tauto | lia].
  - destruct Hin as [Heq|Hin]; [congruence |].
    destruct (IH (i + 1) Hin) as (before & after & -> & Hnot & Hidx).
    exists (y :: before), after. simpl. repeat split.
    + intros [H|H]; [congruence | tauto].
    + rewrite Hidx. lia.
Qed.

Lemma splice1_middle {A} (before after : list A) (x : A) :
  splice1 (before ++ x :: after) (Z.of_nat (length before)) = before ++ after.
Proof.
  unfold splice1.
  destruct (Z.ltb_spec (Z.of_nat (length before)) 0); [lia |].
  rewrite Z.min_l by (rewrite length_app; simpl; lia).
  rewrite Nat2Z.id.
  rewrite take_app_length.
  change (S (length before)) with (1 + length before)%nat.
  rewrite Nat.add_comm, <- drop_drop, drop_app_length. reflexivity.
Qed.

Definition others (quality : string) (l : list string) : list string :=
  List.filter (fun q => negb (String.eqb q quality)) l.

Lemma others_app (quality : string) (l k : list string) :
  others quality (l ++ k) = others quality l ++ others quality k.
Proof. apply List.filter_app. Qed.

Lemma others_self (quality : string) : others quality [quality] = [].
Proof. unfold others. simpl. rewrite String.eqb_refl. reflexivity. Qed.

(** C9. The list a toggled quality checkbox persists is the old list with
    the quality appended when the box is checked and the quality was
    absent, the old list without the first occurrence of the quality when
    the box is unchecked and the quality was present, and the old list
    otherwise; in every case the entries other than that quality are the
    same, in the same order. *)
Theorem quality_toggle (quality : string) (checked : bool) (old : list string) :
  (checked = true -> ~ In quality old ->
     onQualityChange quality checked (Some old) = old ++ [quality]) /\
  (checked = false -> In quality old ->
     exists before after,
       old = before ++ quality :: after /\ ~ In quality before /\
       onQualityChange quality checked (Some old) = before ++ after) /\
  (checked = true -> In quality old ->
     onQualityChange quality checked (Some old) = old) /\
  (checked = false -> ~ In quality old ->
     onQualityChange quality checked (Some old) = old) /\
  others quality (onQualityChange quality checked (Some old)) = others quality old.
Proof.
  unfold onQualityChange. simpl.
  destruct (includes old quality) eqn:Hinc.
  - apply includes_In in Hinc as Hin.
    destruct (indexOf_from_first old quality 0 Hin)
      as (before & after & Hold & Hnot & Hidx).
    unfold indexOf. rewrite Hidx, Z.add_0_l.
    assert (Hsp : splice1 old (Z.of_nat (length before)) = before ++ after)
      by (rewrite Hold; apply splice1_middle).
    destruct checked; simpl; repeat split; try congruence; try tauto.
    + intros _ _. exists before, after. rewrite Hsp. tauto.
    + rewrite Hsp, Hold, !others_app.
      change (quality :: after) with ([quality] ++ after).
      rewrite others_app, others_self. reflexivity.
  - apply includes_not_In in Hinc as Hnin.
    destruct checked; simpl; repeat split; try congruence; try tauto.
    rewrite others_app, others_self, app_nil_r. reflexivity.
Qed.

Lemma quality_toggle_witness :
  onQualityChange "reach" false (Some ["melee"; "reach"; "brace"; "reach"]%string)
  = ["melee"; "brace"; "reach"]%string.
Proof.
  destruct (quality_toggle "reach" false ["melee"; "reach"; "brace"; "reach"]%string)
    as (_ & H & _).
  destruct H as (before & after & Hold & Hnot & ->);
    [reflexivity | simpl; right; left; reflexivity |].
  destruct before as [|b0 [|b1 before]]; simpl in Hold.
  - discriminate.
  - inversion Hold; subst. reflexivity.
  - inversion Hold; subst. exfalso. apply Hnot. simpl. right; left; reflexivity.
Defined.

End Qualities.

(** ** Inventory quantity buttons *)

Section Quantity.
Import Data DolmenSheet.

Definition quantity_ok (i : ItemDocument) : Prop := 1 <= quantity (item_system i).

Lemma item_id_set_quantity (q : Z) (i : ItemDocument) :
  item_id (set_quantity q i) = item_id i.
Proof. reflexivity. Qed.

Lemma items_get_In (items : list ItemDocument) (id : string) (i : ItemDocument) :
  items_get items id = Some i -> In i items /\ item_id i = id.
Proof.
  unfold items_get. intros H. apply find_some in H as [Hin Heq].
  split; [exact Hin | now apply String.eqb_eq].
Qed.

Lemma items_get_update_same (items : list ItemDocument) (id : string)
    (f : ItemDocument -> ItemDocument) (i : ItemDocument) :
  (forall j, item_id (f j) = item_id j) ->
  items_get items id = Some i ->
  items_get (items_update items id f) id = Some (f i).
Proof.
  intros Hf. unfold items_get.
  induction items as [|j items IH]; simpl; [discriminate |].
  destruct (String.eqb (item_id j) id) eqn:Hj; simpl.
  - intros [= ->]. rewrite Hf, Hj. reflexivity.
  - rewrite Hj. exact IH.
Qed.

Lemma items_get_update_other (items : list ItemDocument) (id id' : string)
    (f : ItemDocument -> ItemDocument) :
  (forall j, item_id (f j) = item_id j) ->
  id' <> id ->
  items_get (items_update items id f) id' = items_get items id'.
Proof.
  intros Hf Hne. unfold items_get.
  induction items as [|j items IH]; simpl; [reflexivity |].
  destruct (String.eqb_spec (item_id j) id) as [Hj|Hj]; simpl.
  - rewrite Hf. destruct (String.eqb_spec (item_id j) id'); [congruence | reflexivity].
  - destruct (String.eqb (item_id j) id'); [reflexivity | exact IH].
Qed.

Lemma items_update_Forall (P : ItemDocument -> Prop) (items : list ItemDocument)
    (id : string) (f : ItemDocument -> ItemDocument) :
  (forall j, In j items -> item_id j = id -> P (f j)) ->
  Forall P items -> Forall P (items_update items id f).
Proof.
  induction items as [|j items IH]; simpl; intros Hf Hall; [constructor |].
  inversion Hall as [|? ? Hj Hrest]; subst.
  destruct (String.eqb_spec (item_id j) id) as [Heq|Hne].
  - constructor; [apply Hf; auto | exact Hrest].
  - constructor; [exact Hj | apply IH; auto].
Qed.

Lemma truthy_id_Some (id : string) : id <> EmptyString -> truthy_id (Some id) = Some id.
Proof.
  intros H. unfold truthy_id. destruct (String.eqb_spec id EmptyString); congruence.
Qed.

Lemma update_quantity_of_Z (z : Z) :
  Z.abs z <= 2 ^ 53 -> update_quantity (JS.of_Z z) = set_quantity z.
Proof. intros Hb. unfold update_quantity. rewrite to_Z_of_Z by exact Hb. reflexivity. Qed.

(** [currentQty] for a quantity that is not 0. *)
Lemma currentQty_exact (q : Z) :
  q <> 0 -> Z.abs q <= 2 ^ 53 -> JS.or_else (JS.of_Z q) (JS.of_Z 1) = JS.of_Z q.
Proof. intros Hq Hb. rewrite (of_Z_finite q) by assumption. reflexivity. Qed.

(** What the two buttons store for a quantity from 1 to [2^53]. *)
Lemma increase_as_update (a : Actor) (id : string) (item : ItemDocument) :
  id <> EmptyString ->
  items_get (actor_items a) id = Some item ->
  1 <= quantity (item_system item) <= 2 ^ 53 ->
  _onIncreaseQty (Some id) a
  = set_items (items_update (actor_items a) id
                 (set_quantity (if quantity (item_system item) <? 2 ^ 53
                                then quantity (item_system item) + 1
                                else quantity (item_system item)))) a.
Proof.
  intros Hid Hget Hq. unfold _onIncreaseQty.
  rewrite (truthy_id_Some id Hid), Hget. cbv zeta.
  rewrite currentQty_exact by lia.
  destruct (Z.ltb_spec (quantity (item_system item)) (2 ^ 53)) as [Hlt|Hge].
  - rewrite add_exact, update_quantity_of_Z by lia. reflexivity.
  - replace (quantity (item_system item)) with (2 ^ 53) by lia. reflexivity.
Qed.

Lemma decrease_as_update (a : Actor) (id : string) (item : ItemDocument) :
  id <> EmptyString ->
  items_get (actor_items a) id = Some item ->
  1 <= quantity (item_system item) <= 2 ^ 53 ->
  _onDecreaseQty (Some id) a
  = if 1 <? quantity (item_system item)
    then set_items (items_update (actor_items a) id
                      (set_quantity (quantity (item_system item) - 1))) a
    else a.
Proof.
  intros Hid Hget Hq. unfold _onDecreaseQty.
  rewrite (truthy_id_Some id Hid), Hget. cbv zeta.
  rewrite currentQty_exact, lt_one_of_Z by lia.
  destruct (1 <? quantity (item_system item)); [|reflexivity].
  rewrite sub_exact, update_quantity_of_Z by lia. reflexivity.
Qed.

(** C10. For an inventory item of the actor whose quantity
    is at least 1, as the schema requires, and at most [2^53]: the
    increase button sets its quantity to the current quantity plus 1 when
    that is below [2^53]; the decrease button sets it to the current
    quantity minus 1 when the current quantity is greater than 1 and
    otherwise changes nothing; neither touches another item; and both keep
    every quantity of the inventory at 1 or more. *)
Theorem quantity_buttons (a : Actor) (id : string) (item : ItemDocument) :
  id <> EmptyString ->
  items_get (actor_items a) id = Some item ->
  1 <= quantity (item_system item) <= 2 ^ 53 ->
  (quantity (item_system item) < 2 ^ 53 ->
     items_get (actor_items (_onIncreaseQty (Some id) a)) id
       = Some (set_quantity (quantity (item_system item) + 1) item)) /\
  (1 < quantity (item_system item) ->
     items_get (actor_items (_onDecreaseQty (Some id) a)) id
       = Some (set_quantity (quantity (item_system item) - 1) item)) /\
  (quantity (item_system item) <= 1 -> _onDecreaseQty (Some id) a = a) /\
  (forall id', id' <> id ->
     items_get (actor_items (_onIncreaseQty (Some id) a)) id'
       = items_get (actor_items a) id' /\
     items_get (actor_items (_onDecreaseQty (Some id) a)) id'
       = items_get (actor_items a) id') /\
  (Forall quantity_ok (actor_items a) ->
     Forall quantity_ok (actor_items (_onIncreaseQty (Some id) a)) /\
     Forall quantity_ok (actor_items (_onDecreaseQty (Some id) a))).
Proof.
  intros Hid Hget Hq.
  rewrite (increase_as_update a id item Hid Hget Hq).
  rewrite (decrease_as_update a id item Hid Hget Hq).
  split; [|split; [|split; [|split]]].
  - intros Hlt. destruct (Z.ltb_spec (quantity (item_system item)) (2 ^ 53)); [|lia].
    simpl. apply items_get_update_same; [reflexivity | exact Hget].
  - intros Hlt. destruct (Z.ltb_spec 1 (quantity (item_system item))); [| lia].
    simpl. apply items_get_update_same; [reflexivity | exact Hget].
  - intros Hle. destruct (Z.ltb_spec 1 (quantity (item_system item))); [lia |].
    reflexivity.
  - intros id' Hne. split.
    + simpl. apply items_get_update_other; [reflexivity | assumption].
    + destruct (Z.ltb_spec 1 (quantity (item_system item))); [| reflexivity].
      simpl. apply items_get_update_other; [reflexivity | assumption].
  - intros Hall. split.
    + simpl. apply items_update_Forall; [| exact Hall].
      intros j _ _. unfold quantity_ok. simpl.
      destruct (quantity (item_system item) <? 2 ^ 53); lia.
    + destruct (Z.ltb_spec 1 (quantity (item_system item))); [| exact Hall].
      simpl. apply items_update_Forall; [| exact Hall].
      intros j _ _. unfold quantity_ok. simpl. lia.
Qed.

Definition sample_item (id : string) (t : ItemType) (eq : bool) (q : Z)
    (qs : option (list string)) : ItemDocument :=
  {| item_id := id; item_name := id; item_img := "icons/svg/item-bag.svg";
     item_type := t;
     item_system := {| equipped := eq; quantity := q; notes := EmptyString;
                       damage := "1d6"; qualities := qs; bulk := "light" |} |}.

Definition sample_actor (items : list ItemDocument) : Actor :=
  {| actor_system := sample_adventurer 1 2 (-1); actor_items := items |}.

Lemma quantity_buttons_witness :
  items_get
    (actor_items
       (_onIncreaseQty (Some "torch"%string)
          (sample_actor [sample_item "rope" Item false 1 None;
                         sample_item "torch" Item false 3 None])))
    "torch"
  = Some (sample_item "torch" Item false 4 None).
Proof.
  apply (quantity_buttons
           (sample_actor [sample_item "rope" Item false 1 None;
                          sample_item "torch" Item false 3 None])
           "torch" (sample_item "torch" Item false 3 None)).
  - discriminate.
  - reflexivity.
  - vm_compute. split; discriminate.
  - vm_compute. reflexivity.
Defined.

(** C10 does not extend to an increase at [2^53]: the sum of the Numbers
    [2^53] and 1 is [2^53], so a quantity of 9007199254740992 stays as it
    is. *)
Lemma quantity_beyond_safe_integers :
  let coins := sample_item "coins" Treasure false (2 ^ 53) None in
  let a := sample_actor [coins] in
  1 <= quantity (item_system coins) /\
  items_get (actor_items (_onIncreaseQty (Some "coins"%string) a)) "coins"
  = Some coins /\
  items_get (actor_items (_onIncreaseQty (Some "coins"%string) a)) "coins"
  <> Some (set_quantity (quantity (item_system coins) + 1) coins).
Proof.
  cbv zeta. split; [vm_compute; discriminate|].
  split; [vm_compute; reflexivity|vm_compute; discriminate].
Qed.

End Quantity.

(** ** Adding an extra skill *)

Section ExtraSkills.
Import Data DolmenSheet.

Variable localize : string -> string.
Variable CONFIG_extraSkills : list string.
Variable CONFIG_maxExtraSkills : Z.

Local Abbreviation openAddSkillDialog :=
  (_openAddSkillDialog localize CONFIG_extraSkills CONFIG_maxExtraSkills).

Definition held (w : World) : list ExtraSkill := extraSkills (actor_system (w_actor w)).

Definition unused (w : World) : list string :=
  List.filter (fun id => negb (includes (map skill_id (held w)) id)) CONFIG_extraSkills.

Definition no_skills_warning : string :=
  or_string (localize "DOLMEN.NoSkillsAvailable") "No more skills available to add.".

Lemma unused_spec (w : World) (id : string) :
  In id (unused w) <-> In id CONFIG_extraSkills /\ ~ In id (map skill_id (held w)).
Proof.
  unfold unused. rewrite filter_In, negb_true_iff, includes_not_In. tauto.
Qed.

Lemma map_fst_options (f : string -> string) (l : list string) :
  map fst (map (fun id => (id, f id)) l) = l.
Proof.
  induction l as [|x l IH]; simpl; [reflexivity | now rewrite IH].
Qed.

(** C8. When the number of extra skills held has reached the configured
    maximum, the add-skill action only warns: whether or not unused skill
    ids remain, no dialog opens and the actor (its skill list) is as
    before.  It also only warns when no configured id is unused.
    Otherwise it opens the dialog, whose choices are, in configuration
    order, exactly the configured skill ids that are not held. *)
Theorem add_skill_guard (w : World) :
  (CONFIG_maxExtraSkills <= Z.of_nat (length (held w)) ->
     openAddSkillDialog w = warn no_skills_warning w /\
     w_actor (openAddSkillDialog w) = w_actor w /\
     w_dialog (openAddSkillDialog w) = w_dialog w) /\
  (unused w = [] -> openAddSkillDialog w = warn no_skills_warning w) /\
  (Z.of_nat (length (held w)) < CONFIG_maxExtraSkills -> unused w <> [] ->
     exists options,
       openAddSkillDialog w = open_dialog (AddSkillDialog options) w /\
       map fst options = unused w /\
       (forall id, In id (map fst options) <->
                   In id CONFIG_extraSkills /\ ~ In id (map skill_id (held w)))).
Proof.
  unfold _openAddSkillDialog. fold (held w). fold (unused w). fold no_skills_warning.
  repeat split.
  - destruct (Z.leb_spec CONFIG_maxExtraSkills (Z.of_nat (length (held w)))); [| lia].
    rewrite orb_true_r. reflexivity.
  - destruct (Z.leb_spec CONFIG_maxExtraSkills (Z.of_nat (length (held w)))); [| lia].
    rewrite orb_true_r. reflexivity.
  - destruct (Z.leb_spec CONFIG_maxExtraSkills (Z.of_nat (length (held w)))); [| lia].
    rewrite orb_true_r. reflexivity.
  - intros ->. reflexivity.
  - intros Hlt Hne.
    destruct (Z.leb_spec CONFIG_maxExtraSkills (Z.of_nat (length (held w)))); [lia |].
    destruct (unused w) as [|u us] eqn:Hu; [congruence |].
    rewrite orb_false_r.
    destruct (Z.eqb_spec (Z.of_nat (length (u :: us))) 0) as [H0|_];
      [simpl in H0; lia |].
    eexists. split; [reflexivity |]. split.
    + apply map_fst_options.
    + intros id. rewrite map_fst_options, <- Hu. apply unused_spec.
Qed.

End ExtraSkills.

Section ExtraSkillsWitness.
Import Data DolmenSheet.

Definition sample_world (a : Actor) : World :=
  {| w_actor := a; w_notifications := []; w_menu := None; w_dialog := None;
     w_chat := [] |}.

Definition skilled_actor (ids : list string) : Actor :=
  set_extraSkills (map (fun id => {| skill_id := id; skill_target := 6 |}) ids)
                  (sample_actor []).

(** Two skills held, a maximum of two, two configured ids still unused:
    the action is rejected. *)
Lemma add_skill_guard_witness :
  let w := sample_world (skilled_actor ["alertness"; "stalking"]%string) in
  let config := ["alertness"; "detectMagic"; "stalking"; "tracking"]%string in
  unused config w = ["detectMagic"; "tracking"]%string /\
  w_dialog (_openAddSkillDialog (fun key => key) config 2 w) = None /\
  w_actor (_openAddSkillDialog (fun key => key) config 2 w) = w_actor w.
Proof.
  intros w config.
  destruct (add_skill_guard (fun key => key) config 2 w) as [H _].
  destruct H as (_ & Ha & Hd); [simpl; lia |].
  split; [reflexivity |]. split; [rewrite Hd; reflexivity | exact Ha].
Defined.

End ExtraSkillsWitness.

(** ** Attack workflow *)

Section AttackWorkflow.
Import Data DolmenSheet.

Variable localize : string -> string.
Variable format : string -> list (string * string) -> string.

Local Abbreviation onAttackRoll := (_onAttackRoll localize format).
Local Abbreviation rollAttack := (_rollAttack localize).

(** An equipped weapon that carries the quality tag. *)
Definition candidate (quality : string) (item : ItemDocument) : Prop :=
  item_type item = Weapon /\
  equipped (item_system item) = true /\
  exists qs, qualities (item_system item) = Some qs /\ In quality qs.

Lemma is_weapon_type (t : ItemType) :
  String.eqb (type_name t) "Weapon" = true <-> t = Weapon.
Proof. destruct t; simpl; split; congruence. Qed.

Lemma candidates_spec (a : Actor) (quality : string) (item : ItemDocument) :
  In item (_getEquippedWeaponsByQuality a quality)
  <-> In item (actor_items a) /\ candidate quality item.
Proof.
  unfold _getEquippedWeaponsByQuality, candidate.
  rewrite filter_In, !andb_true_iff, is_weapon_type.
  destruct (qualities (item_system item)) as [qs|].
  - rewrite includes_In. split.
    + intros (Hin & (Ht & He) & Hq). eauto 10.
    + intros (Hin & Ht & He & qs' & [= <-] & Hq). auto.
  - split.
    + intros (_ & _ & H). discriminate.
    + intros (_ & _ & _ & qs & H & _). discriminate.
Qed.

(** The chat message of a full attack: the attack roll with its formula
    and its critical or fumble state, then the damage roll of the weapon. *)
Definition attack_message (weapon : ItemDocument) (attackType : string) (d20 : Z)
    (a : Actor) : ChatMessage :=
  let formula := _buildAttackFormula (totalMod (_getAttackModifiers a attackType)) in
  {| msg_weapon := weapon; msg_attackType := attackType;
     msg_attack :=
       Some {| attack_formula := formula;
               resultClass := fst (_getAttackResultState localize d20);
               resultLabel := snd (_getAttackResultState localize d20) |};
     msg_damage := Some {| damage_formula := damage (item_system weapon) |};
     msg_rolls := [formula; damage (item_system weapon)] |}.

Lemma rollAttack_message (weapon : ItemDocument) (attackType : string) (d20 : Z)
    (w : World) :
  rollAttack weapon attackType d20 w
  = create_chat (attack_message weapon attackType d20 (w_actor w)) w.
Proof. reflexivity. Qed.

(** C7. On a left click for an attack type the candidate weapons are
    exactly the actor's items that are equipped weapons whose qualities
    contain that type.  With no candidate the handler only adds a warning:
    no chat message is created, no menu opens and the actor is unchanged.
    With exactly one candidate it creates at once one chat message for that
    weapon and attack type, holding first the attack roll, whose formula is
    the one built from the modifier of the attack and whose state is
    critical on a 20 and fumble on a 1, and then the damage roll, whose
    formula is the damage of the weapon; nothing else changes.  With two or
    more it shows the weapon menu listing the candidates and creates no
    chat message. *)
Theorem attack_click (attackType : string) (d20 : Z) (w : World) :
  (forall item,
      In item (_getEquippedWeaponsByQuality (w_actor w) attackType)
      <-> In item (actor_items (w_actor w)) /\ candidate attackType item) /\
  (_getEquippedWeaponsByQuality (w_actor w) attackType = [] ->
     onAttackRoll attackType d20 w = warn (no_weapon_warning localize format attackType) w /\
     w_chat (onAttackRoll attackType d20 w) = w_chat w /\
     w_menu (onAttackRoll attackType d20 w) = w_menu w /\
     w_actor (onAttackRoll attackType d20 w) = w_actor w) /\
  (forall weapon,
      _getEquippedWeaponsByQuality (w_actor w) attackType = [weapon] ->
      let formula :=
        _buildAttackFormula (totalMod (_getAttackModifiers (w_actor w) attackType)) in
      onAttackRoll attackType d20 w = rollAttack weapon attackType d20 w /\
      w_chat (onAttackRoll attackType d20 w)
      = w_chat w ++
        [{| msg_weapon := weapon; msg_attackType := attackType;
            msg_attack :=
              Some {| attack_formula := formula;
                      resultClass :=
                        if d20 =? 20 then "critical"
                        else if d20 =? 1 then "fumble" else EmptyString;
                      resultLabel :=
                        if d20 =? 20
                        then roll_label (localize "DOLMEN.Attack.Critical")
                        else if d20 =? 1
                             then roll_label (localize "DOLMEN.Attack.Fumble")
                             else EmptyString |};
            msg_damage := Some {| damage_formula := damage (item_system weapon) |};
            msg_rolls := [formula; damage (item_system weapon)] |}] /\
      w_menu (onAttackRoll attackType d20 w) = w_menu w /\
      w_notifications (onAttackRoll attackType d20 w) = w_notifications w /\
      w_actor (onAttackRoll attackType d20 w) = w_actor w) /\
  ((2 <= length (_getEquippedWeaponsByQuality (w_actor w) attackType))%nat ->
     onAttackRoll attackType d20 w
     = open_menu (WeaponMenu (_getEquippedWeaponsByQuality (w_actor w) attackType) attackType)
                 (remove_menu w) /\
     w_chat (onAttackRoll attackType d20 w) = w_chat w /\
     w_notifications (onAttackRoll attackType d20 w) = w_notifications w /\
     w_actor (onAttackRoll attackType d20 w) = w_actor w).
Proof.
  split; [intros item; apply candidates_spec |].
  unfold _onAttackRoll.
  destruct (_getEquippedWeaponsByQuality (w_actor w) attackType) as [|w0 [|w1 ws]] eqn:Hws.
  - split; [| split].
    + intros _. repeat split.
    + intros weapon H. discriminate H.
    + simpl. lia.
  - split; [| split].
    + discriminate.
    + intros weapon [= <-]. cbv zeta.
      change (Z.of_nat (length [w0]) =? 0) with false.
      change (Z.of_nat (length [w0]) =? 1) with true.
      cbn [head]. rewrite rollAttack_message.
      unfold attack_message, _getAttackResultState, create_chat.
      cbn [w_chat w_menu w_notifications w_actor].
      split; [reflexivity|]. split; [|repeat split].
      destruct (d20 =? 20); [reflexivity|]. destruct (d20 =? 1); reflexivity.
    + simpl. lia.
  - split; [| split].
    + discriminate.
    + intros weapon H. discriminate H.
    + intros _.
      replace (Z.of_nat (length (w0 :: w1 :: ws)) =? 0) with false
        by (symmetry; apply Z.eqb_neq; simpl; lia).
      replace (Z.of_nat (length (w0 :: w1 :: ws)) =? 1) with false
        by (symmetry; apply Z.eqb_neq; simpl; lia).
      repeat split.
Qed.

End AttackWorkflow.

Section AttackWorkflowWitness.
Import Data DolmenSheet.

Definition armed_actor : Actor :=
  sample_actor
    [sample_item "sword" Weapon true 1 (Some ["melee"]%string);
     sample_item "bow" Weapon true 1 (Some ["missile"; "two-handed"]%string);
     sample_item "spear" Weapon false 1 (Some ["melee"; "brace"]%string);
     sample_item "shield" Armor true 1 None].

(** One equipped melee weapon: the click rolls with it. *)
Lemma attack_click_witness :
  let sword := sample_item "sword" Weapon true 1 (Some ["melee"]%string) in
  w_chat (_onAttackRoll (fun key => key) (fun key _ => key) "melee" 20
            (sample_world armed_actor))
  = [{| msg_weapon := sword; msg_attackType := "melee";
        msg_attack :=
          Some {| attack_formula := "1d20 + 3"; resultClass := "critical";
                  resultLabel := roll_label "DOLMEN.Attack.Critical" |};
        msg_damage := Some {| damage_formula := "1d6" |};
        msg_rolls := ["1d20 + 3"; "1d6"]%string |}].
Proof.
  intros sword.
  destruct (attack_click (fun key => key) (fun key _ => key) "melee" 20
              (sample_world armed_actor)) as (_ & _ & H & _).
  destruct (H sword eq_refl) as (_ & Hchat & _).
  exact Hchat.
Defined.

End AttackWorkflowWitness.

(** ** Inventory grouping *)

Section Grouping.
Import Data DolmenSheet.

Variable localize : string -> string.

Local Abbreviation groupItemsByType := (_groupItemsByType localize).

#[local] Instance ItemType_eq_dec : EqDecision ItemType.
Proof. solve_decision. Defined.

(** The display order, as item types. *)
Definition display_order : list ItemType := [Weapon; Armor; Item; Treasure; Foraged].

(** The input items of one type, in input order. *)
Definition items_of_type (t : ItemType) (items : list PreparedItem) : list PreparedItem :=
  List.filter (fun i => bool_decide (data_type i = t)) items.

(** The group expected for a type: its name, lower-cased name, localized
    label, members and the five flags. *)
Definition group_with (t : ItemType) (members : list PreparedItem) : Group :=
  {| group_type := type_name t;
     typeLower := JS.toLowerCase (type_name t);
     label := localize ("TYPES.Item." +:+ type_name t);
     group_items := members;
     isWeapon := bool_decide (t = Weapon);
     isArmor := bool_decide (t = Armor);
     isItem := bool_decide (t = Item);
     isTreasure := bool_decide (t = Treasure);
     isForaged := bool_decide (t = Foraged) |}.

Definition expected_group (items : list PreparedItem) (t : ItemType) : option Group :=
  match items_of_type t items with
  | [] => None
  | members => Some (group_with t members)
  end.

Lemma type_name_inj (t u : ItemType) : type_name t = type_name u -> t = u.
Proof. destruct t, u; simpl; intros H; try reflexivity; discriminate H. Qed.

Lemma new_group_with (t : ItemType) : new_group localize t = group_with t [].
Proof. destruct t; reflexivity. Qed.

Lemma push_group_with (t : ItemType) (members : list PreparedItem) (i : PreparedItem) :
  push_item i (group_with t members) = group_with t (members ++ [i]).
Proof. reflexivity. Qed.

Lemma items_of_type_snoc_same (items : list PreparedItem) (i : PreparedItem) :
  items_of_type (data_type i) (items ++ [i]) = items_of_type (data_type i) items ++ [i].
Proof.
  unfold items_of_type. rewrite List.filter_app. simpl.
  rewrite bool_decide_eq_true_2 by reflexivity. reflexivity.
Qed.

Lemma items_of_type_snoc_other (t : ItemType) (items : list PreparedItem)
    (i : PreparedItem) :
  data_type i <> t -> items_of_type t (items ++ [i]) = items_of_type t items.
Proof.
  intros Hne. unfold items_of_type. rewrite List.filter_app. simpl.
  rewrite bool_decide_eq_false_2 by exact Hne. apply app_nil_r.
Qed.

(** What the loop has built after reading [items]: under each type name,
    the group of the items of that type read so far, if there is one. *)
Lemma groups_after_loop (items : list PreparedItem) (t : ItemType) :
  foldl (group_step localize) ∅ items !! type_name t = expected_group items t.
Proof.
  induction items as [|i items IH] using rev_ind.
  - simpl. apply lookup_empty.
  - rewrite foldl_snoc.
    set (groups := foldl (group_step localize) ∅ items) in *.
    unfold group_step.
    destruct (decide (data_type i = t)) as [<-|Hne].
    + rewrite lookup_alter_eq. unfold expected_group in *.
      rewrite items_of_type_snoc_same.
      destruct (items_of_type (data_type i) items) as [|m members] eqn:Hmem.
      * rewrite IH, lookup_insert_eq. simpl.
        rewrite new_group_with, push_group_with. reflexivity.
      * rewrite IH, IH. simpl. rewrite push_group_with. reflexivity.
    + assert (Hkey : type_name (data_type i) <> type_name t)
        by (intros H; apply Hne, type_name_inj, H).
      rewrite lookup_alter_ne by exact Hkey.
      unfold expected_group in *. rewrite items_of_type_snoc_other by exact Hne.
      destruct (groups !! type_name (data_type i));
        [| rewrite lookup_insert_ne by exact Hkey]; exact IH.
Qed.

(** C6. Grouping a list of prepared items returns, for the types Weapon,
    Armor, Item, Treasure and Foraged in this order, the group of each type
    that occurs in the input and nothing for a type that does not occur; the
    group of a type carries the type's name, its localized label, the five
    flags that tell which type it is, and as members exactly the input items
    of that type in input order. *)
Theorem groupItemsByType_spec (items : list PreparedItem) :
  groupItemsByType items = omap (expected_group items) display_order /\
  (forall t, In t display_order ->
     (items_of_type t items = [] <->
      forall g, In g (groupItemsByType items) -> group_type g <> type_name t)) /\
  (forall g, In g (groupItemsByType items) ->
     exists t, In t display_order /\ items_of_type t items <> [] /\
               g = group_with t (items_of_type t items)).
Proof.
  assert (Heq : groupItemsByType items = omap (expected_group items) display_order).
  { unfold _groupItemsByType, typeOrder, display_order. simpl.
    rewrite <- !groups_after_loop. reflexivity. }
  assert (Hin : forall g, In g (groupItemsByType items) <->
                          exists t, In t display_order /\ expected_group items t = Some g).
  { intros g. rewrite Heq, <- list_elem_of_In, list_elem_of_omap.
    split; intros (t & Ht & Hg); exists t; split; auto;
      [apply list_elem_of_In | apply list_elem_of_In]; exact Ht. }
  split; [exact Heq |]. split.
  - intros t Ht. split.
    + intros Hnone g Hg Hname. apply Hin in Hg as (u & _ & Hu).
      unfold expected_group in Hu.
      destruct (items_of_type u items) as [|m members] eqn:Hmem; [discriminate |].
      injection Hu as <-. simpl in Hname. apply type_name_inj in Hname as ->.
      congruence.
    + intros Hall. destruct (items_of_type t items) as [|m members] eqn:Hmem;
        [reflexivity |].
      exfalso. apply (Hall (group_with t (m :: members))); [| reflexivity].
      apply Hin. exists t. split; [exact Ht |].
      unfold expected_group. rewrite Hmem. reflexivity.
  - intros g Hg. apply Hin in Hg as (t & Ht & Hg). exists t.
    unfold expected_group in Hg.
    destruct (items_of_type t items) as [|m members] eqn:Hmem; [discriminate |].
    injection Hg as <-. repeat split; [exact Ht | discriminate].
Qed.

End Grouping.

Section GroupingExample.
Import Data DolmenSheet.

Definition prepared (id : string) (t : ItemType) : PreparedItem :=
  {| data_id := id; data_name := id; data_img := "icons/svg/item-bag.svg";
     data_type := t;
     data_system := {| equipped := true; quantity := 1; notes := EmptyString;
                       damage := "1d6"; qualities := None; bulk := "light" |};
     data_isWeapon := String.eqb (type_name t) "Weapon";
     data_isArmor := String.eqb (type_name t) "Armor";
     cssClass := JS.toLowerCase (type_name t);
     hasNotes := false;
     qualitiesDisplay := None;
     bulkDisplay := None |}.

Definition sample_inventory : list PreparedItem :=
  [prepared "mail" Armor; prepared "sword" Weapon; prepared "bow" Weapon;
   prepared "gem" Treasure].

(** Types Armor, Weapon, Weapon, Treasure: the groups are Weapon with two
    items, Armor with one, Treasure with one; Item and Foraged are absent. *)
Lemma groupItemsByType_spec_witness :
  map (fun g => (group_type g, map data_id (group_items g), label g))
      (_groupItemsByType (fun key => key) sample_inventory)
  = [("Weapon", ["sword"; "bow"], "TYPES.Item.Weapon");
     ("Armor", ["mail"], "TYPES.Item.Armor");
     ("Treasure", ["gem"], "TYPES.Item.Treasure")]%string.
Proof.
  destruct (groupItemsByType_spec (fun key => key) sample_inventory) as [-> _].
  reflexivity.
Defined.

Example grouping_by_evaluation :
  map (fun g => (group_type g, length (group_items g), isWeapon g, isArmor g, isTreasure g))
      (_groupItemsByType (fun key => key) sample_inventory)
  = [("Weapon"%string, 2%nat, true, false, false);
     ("Armor"%string, 1%nat, false, true, false);
     ("Treasure"%string, 1%nat, false, false, true)].
Proof. vm_compute. reflexivity. Qed.

End GroupingExample.

(** ** Exact arithmetic of the specification, and checking by enumeration *)

Section Exact.

(** [floor (n / d + 1/2)] for a positive [d]: the nearest integer to the
    rational [n / d], a tie going up. *)
Definition round_half_up (n d : Z) : Z := (2 * n + d) / (2 * d).

(** The text of a height of [F] feet and [I] inches. *)
Definition feet_inches (F I : Z) : string :=
  JS.decimal F +:+ String JS.quote (JS.decimal I +:+ String JS.dquote EmptyString).

Definition same_text (a b : option string) : bool :=
  match a, b with
  | Some x, Some y => String.eqb x y
  | _, _ => false
  end.

Lemma same_text_eq (a b : option string) : same_text a b = true -> a = b.
Proof.
  destruct a as [x|], b as [y|]; simpl; try discriminate.
  intros H. apply String.eqb_eq in H. congruence.
Qed.

(** The integers [0 .. n-1]. *)
Definition upto (n : Z) : list Z := map Z.of_nat (seq 0 (Z.to_nat n)).

Lemma In_upto (n z : Z) : 0 <= z < n -> In z (upto n).
Proof.
  intros H. unfold upto. apply in_map_iff. exists (Z.to_nat z).
  split; [lia | apply in_seq; lia].
Qed.

Lemma forallb_upto (P : Z -> bool) (n : Z) :
  forallb P (upto n) = true -> forall z, 0 <= z < n -> P z = true.
Proof.
  intros H z Hz. rewrite forallb_forall in H. apply H, In_upto, Hz.
Qed.

End Exact.

(** ** Reading numerals: [parseInt] on decimal text *)

Section Numerals.

(** The value of a decimal numeral read after the digits that gave [acc]. *)
Fixpoint uint_value (d : Decimal.uint) (acc : Z) : Z :=
  match d with
  | Decimal.Nil => acc
  | Decimal.D0 l => uint_value l (10 * acc + 0)
  | Decimal.D1 l => uint_value l (10 * acc + 1)
  | Decimal.D2 l => uint_value l (10 * acc + 2)
  | Decimal.D3 l => uint_value l (10 * acc + 3)
  | Decimal.D4 l => uint_value l (10 * acc + 4)
  | Decimal.D5 l => uint_value l (10 * acc + 5)
  | Decimal.D6 l => uint_value l (10 * acc + 6)
  | Decimal.D7 l => uint_value l (10 * acc + 7)
  | Decimal.D8 l => uint_value l (10 * acc + 8)
  | Decimal.D9 l => uint_value l (10 * acc + 9)
  end.

Lemma parse_digits_numeral (d : Decimal.uint) (rest : string) (acc : Z) :
  JS.parse_digits 10 (NilEmpty.string_of_uint d +:+ rest) (Some acc)
  = JS.parse_digits 10 rest (Some (uint_value d acc)).
Proof.
  revert acc. induction d; intros acc; simpl; try reflexivity; apply IHd.
Qed.

Lemma of_uint_acc_value (d : Decimal.uint) (p : positive) :
  Z.pos (Pos.of_uint_acc d p) = uint_value d (Z.pos p).
Proof.
  revert p. induction d; intros p; simpl; try reflexivity;
    rewrite IHd; f_equal; lia.
Qed.

Lemma of_uint_value (d : Decimal.uint) : Z.of_N (Pos.of_uint d) = uint_value d 0.
Proof.
  induction d; simpl; try reflexivity; try exact IHd;
    rewrite of_uint_acc_value; reflexivity.
Qed.

Lemma to_uint_value (p : positive) : uint_value (Pos.to_uint p) 0 = Z.pos p.
Proof.
  rewrite <- of_uint_value, DecimalPos.Unsigned.of_to. reflexivity.
Qed.

(** Characters that are decimal digits. *)
Definition is_digit (c : ascii) : bool :=
  let n := nat_of_ascii c in ((48 <=? n) && (n <=? 57))%nat.

Fixpoint digits_only (s : string) : bool :=
  match s with
  | EmptyString => true
  | String c s' => is_digit c && digits_only s'
  end.

Lemma numeral_digits_only (d : Decimal.uint) :
  digits_only (NilEmpty.string_of_uint d) = true.
Proof. induction d; simpl; auto. Qed.

(** The decimal text of a natural number is a nonempty numeral of that
    value. *)
Lemma decimal_numeral (n : Z) :
  0 <= n ->
  exists d, d <> Decimal.Nil /\ JS.decimal n = NilEmpty.string_of_uint d /\
            uint_value d 0 = n.
Proof.
  intros Hn. unfold JS.decimal. destruct n as [|p|p]; [| | lia].
  - exists (Decimal.D0 Decimal.Nil). repeat split. discriminate.
  - exists (Pos.to_uint p). split; [apply Unsigned.to_uint_nonnil |]. split.
    + simpl. unfold NilZero.string_of_uint.
      destruct (Pos.to_uint p) eqn:E; try reflexivity.
      exfalso. exact (Unsigned.to_uint_nonnil p E).
    + apply to_uint_value.
Qed.

Lemma decimal_digits_only (n : Z) : 0 <= n -> digits_only (JS.decimal n) = true.
Proof.
  intros Hn. destruct (decimal_numeral n Hn) as (d & _ & -> & _).
  apply numeral_digits_only.
Qed.

Lemma decimal_nonempty (n : Z) : 0 <= n -> (0 < String.length (JS.decimal n))%nat.
Proof.
  intros Hn. destruct (decimal_numeral n Hn) as (d & Hd & -> & _).
  destruct d; simpl; try lia. destruct (Hd eq_refl).
Qed.

Lemma append_cons (a : ascii) (s t : string) :
  String a s +:+ t = String a (s +:+ t).
Proof. reflexivity. Qed.

Lemma app_empty_r (s : string) : s +:+ EmptyString = s.
Proof.
  induction s as [|a s IH]; [reflexivity |]. rewrite append_cons, IH. reflexivity.
Qed.

(** A numeral has no white space, sign or 0x prefix to strip. *)
Lemma numeral_prefixes (d : Decimal.uint) :
  d <> Decimal.Nil ->
  JS.strip_hex_prefix (snd (JS.strip_sign (JS.trim_start (NilEmpty.string_of_uint d))))
  = (10, NilEmpty.string_of_uint d) /\
  fst (JS.strip_sign (JS.trim_start (NilEmpty.string_of_uint d))) = false.
Proof.
  intros Hd. destruct d as [|d|d|d|d|d|d|d|d|d|d]; try congruence;
    destruct d; split; reflexivity.
Qed.

Lemma parseInt_numeral (d : Decimal.uint) :
  d <> Decimal.Nil ->
  JS.parseInt (NilEmpty.string_of_uint d)
  = if uint_value d 0 =? 0 then S754_zero false else JS.of_Z (uint_value d 0).
Proof.
  intros Hd. unfold JS.parseInt.
  destruct (numeral_prefixes d Hd) as [Hhex Hsign].
  destruct (JS.strip_sign (JS.trim_start (NilEmpty.string_of_uint d))) as [neg s1].
  simpl in Hhex, Hsign. subst neg. rewrite Hhex.
  assert (Hparse : JS.parse_digits 10 (NilEmpty.string_of_uint d) None
                   = Some (uint_value d 0)).
  { rewrite <- (app_empty_r (NilEmpty.string_of_uint d)).
    destruct d; try congruence; simpl;
      rewrite parse_digits_numeral; reflexivity. }
  rewrite Hparse. reflexivity.
Qed.

(** [parseInt] reads back the decimal text of a natural number. *)
Lemma parseInt_decimal (n : Z) : 0 <= n -> JS.parseInt (JS.decimal n) = JS.of_Z n.
Proof.
  intros Hn. destruct (decimal_numeral n Hn) as (d & Hd & -> & <-).
  rewrite (parseInt_numeral d Hd).
  destruct (Z.eqb_spec (uint_value d 0) 0) as [->|]; reflexivity.
Qed.

End Numerals.

(** ** Numbers of natural numbers are truthy or zero *)

Section NumberLemmas.

Lemma shr_1_nonneg (mrs : shr_record) : 0 <= shr_m mrs -> 0 <= shr_m (shr_1 mrs).
Proof.
  destruct mrs as [m r s]. simpl. intros Hm.
  destruct m as [|[p|p|]|p]; simpl; lia.
Qed.

Lemma iter_pos_invariant {A} (P : A -> Prop) (f : A -> A) :
  (forall x, P x -> P (f x)) -> forall n x, P x -> P (SpecFloat.iter_pos f n x).
Proof.
  intros Hf. induction n; intros x Hx; simpl; auto.
Qed.

Lemma shr_nonneg (mrs : shr_record) (e n : Z) :
  0 <= shr_m mrs -> 0 <= shr_m (fst (shr mrs e n)).
Proof.
  intros Hm. destruct n; simpl; try exact Hm.
  apply (iter_pos_invariant (fun r => 0 <= shr_m r)); [apply shr_1_nonneg | exact Hm].
Qed.

Lemma shr_fexp_nonneg (m e : Z) (l : location) :
  0 <= m -> 0 <= shr_m (fst (shr_fexp JS.prec JS.emax m e l)).
Proof.
  intros Hm. unfold shr_fexp. apply shr_nonneg.
  destruct l as [|[ | | ]]; exact Hm.
Qed.

Lemma round_nearest_even_nonneg (m : Z) (l : location) :
  0 <= m -> 0 <= round_nearest_even m l.
Proof.
  intros Hm. destruct l as [|[ | | ]]; simpl; try lia.
  destruct (Z.even m); lia.
Qed.

(** Rounding a mantissa that is not negative gives a zero of the given
    sign, a finite Number of that sign or an infinity; never NaN. *)
Lemma binary_round_aux_truthy (sx : bool) (mx ex : Z) (lx : location) :
  0 <= mx ->
  binary_round_aux JS.prec JS.emax sx mx ex lx = S754_zero sx \/
  JS.falsy (binary_round_aux JS.prec JS.emax sx mx ex lx) = false.
Proof.
  intros Hm. unfold binary_round_aux.
  pose proof (shr_fexp_nonneg mx ex lx Hm) as H1.
  destruct (shr_fexp JS.prec JS.emax mx ex lx) as [mrs' e']. simpl in H1.
  pose proof (shr_fexp_nonneg
                (round_nearest_even (shr_m mrs') (loc_of_shr_record mrs')) e' loc_Exact
                (round_nearest_even_nonneg _ _ H1)) as H2.
  destruct (shr_fexp JS.prec JS.emax
              (round_nearest_even (shr_m mrs') (loc_of_shr_record mrs')) e' loc_Exact)
    as [mrs'' e'']. simpl in H2.
  destruct (shr_m mrs'') as [|m|m]; [left; reflexivity | right | lia].
  destruct (e'' <=? JS.emax - JS.prec); reflexivity.
Qed.

(** [n || 0] is [n] for the Number of a natural number. *)
Lemma or0_of_Z (n : Z) : 0 <= n -> DolmenSheet.or0 (JS.of_Z n) = JS.of_Z n.
Proof.
  intros Hn. destruct n as [|p|p]; [reflexivity | | lia].
  unfold DolmenSheet.or0, JS.or_else, JS.of_Z, binary_normalize, binary_round.
  destruct (shl_align p 0 (fexp JS.prec JS.emax (Z.pos (digits2_pos p) + 0))) as [mz ez].
  destruct (binary_round_aux_truthy false (Z.pos mz) ez loc_Exact ltac:(lia)) as [H|H];
    rewrite H; reflexivity.
Qed.

End NumberLemmas.

(** ** Searching and cutting text *)

Section StringLemmas.

Lemma length_append (s t : string) :
  String.length (s +:+ t) = (String.length s + String.length t)%nat.
Proof.
  induction s as [|a s IH]; [reflexivity |].
  rewrite append_cons. simpl. rewrite IH. reflexivity.
Qed.

Lemma is_digit_neq (a c : ascii) : is_digit a = true -> is_digit c = false -> Ascii.eqb a c = false.
Proof.
  intros Ha Hc. destruct (Ascii.eqb_spec a c) as [->|]; congruence.
Qed.

(** [indexOf] of a character that is not a digit runs over leading digits. *)
Lemma index_from_digits (c : ascii) (s rest : string) (i : Z) :
  digits_only s = true -> is_digit c = false ->
  JS.index_from c (s +:+ rest) i = JS.index_from c rest (i + Z.of_nat (String.length s)).
Proof.
  intros Hs Hc. revert i. induction s as [|a s IH]; intros i.
  - simpl. f_equal. lia.
  - simpl in Hs. apply andb_true_iff in Hs as [Ha Hs].
    rewrite append_cons. simpl. rewrite (is_digit_neq a c Ha Hc), (IH Hs).
    f_equal. lia.
Qed.

Lemma substring_prefix (s rest : string) :
  String.substring 0 (String.length s) (s +:+ rest) = s.
Proof.
  induction s as [|a s IH].
  - destruct rest; reflexivity.
  - rewrite append_cons. simpl. rewrite IH. reflexivity.
Qed.

Lemma substring_skip (s rest : string) (k m : nat) :
  String.substring (String.length s + k) m (s +:+ rest) = String.substring k m rest.
Proof.
  induction s as [|a s IH]; [reflexivity |].
  rewrite append_cons. simpl. exact IH.
Qed.

Lemma JS_substring_prefix (s rest : string) :
  JS.substring (s +:+ rest) 0 (Z.of_nat (String.length s)) = s.
Proof.
  unfold JS.substring. rewrite length_append.
  rewrite !Z.max_l, Z.min_l, (Z.min_l (Z.of_nat (String.length s))), Z.min_l, Z.max_r by lia.
  rewrite Z.sub_0_r, Nat2Z.id. apply substring_prefix.
Qed.

Lemma JS_substring_middle (s t rest : string) (c : ascii) :
  JS.substring (s +:+ String c (t +:+ rest))
               (Z.of_nat (String.length s) + 1)
               (Z.of_nat (String.length s) + 1 + Z.of_nat (String.length t))
  = t.
Proof.
  unfold JS.substring. rewrite length_append. simpl String.length.
  rewrite length_append.
  rewrite !Z.max_l by lia.
  rewrite (Z.min_l (Z.of_nat (String.length s) + 1)) by lia.
  rewrite (Z.min_l (Z.of_nat (String.length s) + 1 + Z.of_nat (String.length t))) by lia.
  rewrite Z.min_l, Z.max_r by lia.
  replace (Z.to_nat (Z.of_nat (String.length s) + 1)) with (String.length s + 1)%nat by lia.
  replace (Z.to_nat (Z.of_nat (String.length s) + 1 + Z.of_nat (String.length t)
                     - (Z.of_nat (String.length s) + 1)))
    with (String.length t) by lia.
  rewrite substring_skip. simpl. apply substring_prefix.
Qed.

End StringLemmas.

(** ** Height and weight conversion: what the handlers compute *)

Section UniversalConversion.
Import DolmenSheet.

Lemma quote_not_digit : is_digit JS.quote = false.
Proof. reflexivity. Qed.

Lemma dquote_not_digit : is_digit JS.dquote = false.
Proof. reflexivity. Qed.

(** The positions of the two marks in the text of [F] feet [I] inches. *)
Lemma feet_inches_marks (F I : Z) :
  0 <= F -> 0 <= I ->
  JS.indexOf (feet_inches F I) JS.quote = Z.of_nat (String.length (JS.decimal F)) /\
  JS.indexOf (feet_inches F I) JS.dquote
  = Z.of_nat (String.length (JS.decimal F)) + 1 + Z.of_nat (String.length (JS.decimal I)).
Proof.
  intros HF HI. unfold JS.indexOf, feet_inches. split.
  - rewrite (index_from_digits _ _ _ _ (decimal_digits_only F HF) quote_not_digit).
    simpl. lia.
  - rewrite (index_from_digits _ _ _ _ (decimal_digits_only F HF) dquote_not_digit).
    change (JS.index_from JS.dquote
              (String JS.quote (JS.decimal I +:+ String JS.dquote EmptyString))
              (0 + Z.of_nat (String.length (JS.decimal F))))
      with (JS.index_from JS.dquote (JS.decimal I +:+ String JS.dquote EmptyString)
              (0 + Z.of_nat (String.length (JS.decimal F)) + 1)).
    rewrite (index_from_digits _ _ _ _ (decimal_digits_only I HI) dquote_not_digit).
    simpl. lia.
Qed.

(** For every height: the centimeters are
    [Math.round((F * 12 + I) * 2.54)] as computed on Numbers. *)
Lemma cm_of_feet_inches_parsed (F I : Z) :
  0 <= F -> 0 <= I ->
  cm_of_feet_inches (feet_inches F I)
  = JS.Math_round
      (JS.mul (JS.add (JS.mul (JS.of_Z F) (JS.of_Z 12)) (JS.of_Z I)) lit_2_54).
Proof.
  intros HF HI. unfold cm_of_feet_inches.
  destruct (feet_inches_marks F I HF HI) as [-> ->].
  pose proof (decimal_nonempty F HF) as HlF.
  destruct (Z.eqb_spec (Z.of_nat (String.length (JS.decimal F))) (-1)); [lia |].
  destruct (Z.ltb_spec 0 (Z.of_nat (String.length (JS.decimal F)))); [| lia].
  destruct (Z.ltb_spec (Z.of_nat (String.length (JS.decimal F)))
              (Z.of_nat (String.length (JS.decimal F)) + 1
               + Z.of_nat (String.length (JS.decimal I)))); [| lia].
  simpl andb. cbv iota.
  unfold feet_inches.
  rewrite JS_substring_prefix, JS_substring_middle.
  rewrite (parseInt_decimal F HF), (parseInt_decimal I HI).
  rewrite (or0_of_Z F HF), (or0_of_Z I HI). reflexivity.
Qed.

Lemma feet_inches_of_cm_parsed (cm : Z) :
  0 <= cm ->
  feet_inches_of_cm (JS.decimal cm)
  = (let totalInches := JS.Math_round (JS.div (JS.of_Z cm) lit_2_54) in
     f ← JS.toString (JS.Math_floor (JS.div totalInches (JS.of_Z 12)));
     i ← JS.toString (JS.rem totalInches (JS.of_Z 12));
     Some (f +:+ String JS.quote (i +:+ String JS.dquote EmptyString))).
Proof.
  intros H. unfold feet_inches_of_cm.
  rewrite (parseInt_decimal cm H), (or0_of_Z cm H). reflexivity.
Qed.



End UniversalConversion.

(** ** Height and weight conversion: agreement with exact rounding *)

Section Conversion.
Import Data DolmenSheet.

(** The formulas of the handlers on Numbers. *)
Definition double_cm (F I : Z) : JS.Number :=
  JS.Math_round (JS.mul (JS.add (JS.mul (JS.of_Z F) (JS.of_Z 12)) (JS.of_Z I)) lit_2_54).

Definition double_inches (cm : Z) : JS.Number :=
  JS.Math_round (JS.div (JS.of_Z cm) lit_2_54).

Definition double_feet_inches (cm : Z) : option string :=
  f ← JS.toString (JS.Math_floor (JS.div (double_inches cm) (JS.of_Z 12)));
  i ← JS.toString (JS.rem (double_inches cm) (JS.of_Z 12));
  Some (f +:+ String JS.quote (i +:+ String JS.dquote EmptyString)).

Definition double_kg (lbs : Z) : JS.Number :=
  JS.Math_round (JS.mul (JS.of_Z lbs) lit_0_453592).

Definition double_lbs (kg : Z) : JS.Number :=
  JS.Math_round (JS.div (JS.of_Z kg) lit_0_453592).

Definition set_height_cm (v : string) (inp : ConversionInputs) : ConversionInputs :=
  {| height_feet := height_feet inp; height_cm := v;
     weight_lbs := weight_lbs inp; weight_kg := weight_kg inp |}.

Definition set_height_feet (v : string) (inp : ConversionInputs) : ConversionInputs :=
  {| height_feet := v; height_cm := height_cm inp;
     weight_lbs := weight_lbs inp; weight_kg := weight_kg inp |}.

Definition set_weight_kg (v : string) (inp : ConversionInputs) : ConversionInputs :=
  {| height_feet := height_feet inp; height_cm := height_cm inp;
     weight_lbs := weight_lbs inp; weight_kg := v |}.

Definition set_weight_lbs (v : string) (inp : ConversionInputs) : ConversionInputs :=
  {| height_feet := height_feet inp; height_cm := height_cm inp;
     weight_lbs := v; weight_kg := weight_kg inp |}.

(** Feet and inches to centimeters, for heights up to 49 feet 49 inches:
    the double-precision result is the exact rounding. *)
Definition cm_agrees (F I : Z) : bool :=
  same_text (JS.toString (double_cm F I))
            (Some (JS.decimal (round_half_up ((F * 12 + I) * 254) 100))).

Lemma cm_agrees_all : forallb (fun F => forallb (cm_agrees F) (upto 50)) (upto 50) = true.
Proof. vm_cast_no_check (eq_refl true). Qed.

Lemma double_cm_exact (F I : Z) :
  0 <= F <= 49 -> 0 <= I <= 49 ->
  JS.toString (double_cm F I)
  = Some (JS.decimal (round_half_up ((F * 12 + I) * 254) 100)).
Proof.
  intros HF HI. apply same_text_eq.
  pose proof (forallb_upto _ _ cm_agrees_all F ltac:(lia)) as H.
  cbv beta in H. exact (forallb_upto _ _ H I ltac:(lia)).
Qed.

(** Centimeters to feet and inches, up to 999 cm. *)
Definition feet_inches_agree (cm : Z) : bool :=
  same_text (double_feet_inches cm)
            (Some (feet_inches (round_half_up (cm * 100) 254 / 12)
                               (round_half_up (cm * 100) 254 mod 12))).

Lemma feet_inches_agree_all : forallb feet_inches_agree (upto 1000) = true.
Proof. vm_cast_no_check (eq_refl true). Qed.

Lemma double_feet_inches_exact (cm : Z) :
  0 <= cm <= 999 ->
  double_feet_inches cm
  = Some (feet_inches (round_half_up (cm * 100) 254 / 12)
                      (round_half_up (cm * 100) 254 mod 12)).
Proof.
  intros H. apply same_text_eq.
  exact (forallb_upto _ _ feet_inches_agree_all cm ltac:(lia)).
Qed.


Definition blank_inputs : ConversionInputs :=
  {| height_feet := feet_inches 0 0; height_cm := "0";
     weight_lbs := "0"; weight_kg := "0" |}.
















End Conversion.

(** ** Experience dialog *)

Section Experience.
Import Data DolmenSheet.

Definition xp_actor (current : Z) : Actor :=
  {| actor_system :=
       {| attack := 0; abilities := sample_abilities 0 0;
          kindred := "human"; creatureType := "mortal";
          xp := {| xp_value := current; xp_nextLevel := 2000; xp_modifier := 0 |};
          extraSkills := [] |};
     actor_items := [] |}.

(** [floor (gained * (1 + bonus / 100))] in exact arithmetic. *)
Definition exact_adjusted (gained bonus : Z) : Z := (gained * (100 + bonus)) / 100.

(** 100 gained at a bonus of 10 is 110, added to the current total; the
    bonus entered is stored with it. *)
Example xp_100_bonus_10 :
  _openXPDialog_add (xp_actor 250) "100" "10"
  = {| system_xp_value := JS.of_Z 360; system_xp_modifier := JS.of_Z 10 |}.
Proof. vm_compute. reflexivity. Qed.

(** Nothing gained is nothing added, for every bonus from -20 to 20. *)
Example xp_nothing_gained :
  forallb
    (fun b =>
       same_text
         (JS.toString
            (system_xp_value
               (_openXPDialog_add (xp_actor 250) "0" (JS.decimal (b - 20)))))
         (Some "250"%string))
    (upto 41) = true.
Proof. vm_compute. reflexivity. Qed.

(** The inputs [(gained, bonus)] at which the amount added in double
    precision is not the exact amount, with the amount added. *)
Definition departs (gained bonus : Z) : list (Z * Z * option Z) :=
  let v := JS.to_Z (adjustedXP (JS.of_Z gained) (JS.of_Z bonus)) in
  match v with
  | Some a => if a =? exact_adjusted gained bonus then [] else [(gained, bonus, v)]
  | None => [(gained, bonus, v)]
  end.

(** Up to 100 gained and for every bonus from -20 to 20, the amount added
    is the exact one except at five inputs, where it is one less. *)
Lemma departures_upto_100 :
  flat_map (fun g => flat_map (fun b => departs g (b - 20)) (upto 41)) (upto 101)
  = [(25, 16, Some 28); (50, 16, Some 57);
     (100, 13, Some 112); (100, 15, Some 114); (100, 16, Some 115)].
Proof. vm_cast_no_check (eq_refl (A := list (Z * Z * option Z))
         [(25, 16, Some 28); (50, 16, Some 57);
          (100, 13, Some 112); (100, 15, Some 114); (100, 16, Some 115)]). Qed.

(** C3, at the input where the code departs from it.  With 100 gained and
    a bonus of 15 the dialog adds 114: in double precision 1 + 15/100 is
    just below 1.15, so the product is just below 115 and its floor is 114,
    while floor (100 * (1 + 15/100)) is 115.  The bonus is stored as
    entered. *)
Theorem xp_bonus_15_adds_114 :
  _openXPDialog_add (xp_actor 0) "100" "15"
  = {| system_xp_value := JS.of_Z 114; system_xp_modifier := JS.of_Z 15 |} /\
  JS.to_Z (adjustedXP (JS.of_Z 100) (JS.of_Z 15)) = Some 114 /\
  exact_adjusted 100 15 = 115.
Proof. vm_compute. repeat split; reflexivity. Qed.

End Experience.

(** * Further properties *)

(** ** Choice objects *)

Section ChoiceObjects.
Import Choices.

Variable localize : string -> string.

Local Abbreviation choices := (buildChoices localize).
Local Abbreviation choicesWithBlank := (buildChoicesWithBlank localize).

Lemma buildChoices_snoc (namespace : string) (keys : list string) (key : string) :
  choices namespace (keys ++ [key])
  = if String.eqb key "__proto__" then choices namespace keys
    else <[key := localize (namespace +:+ "." +:+ key)]> (choices namespace keys).
Proof. unfold buildChoices. rewrite foldl_snoc. reflexivity. Qed.

Lemma buildChoices_lookup (namespace : string) (keys : list string) (k : string) :
  choices namespace keys !! k
  = if Data.includes keys k && negb (String.eqb k "__proto__")
    then Some (localize (namespace +:+ "." +:+ k)) else None.
Proof.
  induction keys as [|key keys IH] using rev_ind.
  - apply lookup_empty.
  - rewrite buildChoices_snoc.
    assert (Hinc : Data.includes (keys ++ [key]) k
                   = Data.includes keys k || String.eqb key k).
    { clear IH. induction keys as [|y keys IH]; simpl.
      - apply orb_false_r.
      - rewrite IH. apply orb_assoc. }
    rewrite Hinc.
    destruct (String.eqb_spec key "__proto__") as [->|Hproto].
    + rewrite IH. destruct (String.eqb_spec "__proto__" k) as [<-|Hne].
      * rewrite !andb_false_r. reflexivity.
      * rewrite orb_false_r. reflexivity.
    + destruct (String.eqb_spec key k) as [->|Hne].
      * rewrite lookup_insert_eq, orb_true_r.
        destruct (String.eqb_spec k "__proto__"); [contradiction|reflexivity].
      * rewrite lookup_insert_ne by exact Hne. rewrite orb_false_r. exact IH.
Qed.

(** X1. A choice object built from a list of keys has an entry exactly for
    the keys of the list other than [__proto__], and the label of a key is
    the localization of namespace.key; a key that is not in the list has no
    entry, [__proto__] never has one (assigning a string to it stores
    nothing), and a key listed twice has the same single entry. *)
Theorem buildChoices_entries (namespace : string) (keys : list string) (k : string) :
  (In k keys -> k <> "__proto__"%string ->
     buildChoices localize namespace keys !! k
     = Some (localize (namespace +:+ "." +:+ k))) /\
  (~ In k keys -> buildChoices localize namespace keys !! k = None) /\
  buildChoices localize namespace keys !! "__proto__"%string = None /\
  buildChoices localize namespace (keys ++ [k]) !! k
  = buildChoices localize namespace (k :: keys) !! k /\
  (In k keys ->
     buildChoices localize namespace (keys ++ [k]) = buildChoices localize namespace keys).
Proof.
  split; [|split; [|split; [|split]]].
  - intros Hin Hne. rewrite buildChoices_lookup.
    apply includes_In in Hin. rewrite Hin.
    destruct (String.eqb_spec k "__proto__"); [contradiction|reflexivity].
  - intros Hnin. rewrite buildChoices_lookup.
    apply includes_not_In in Hnin. rewrite Hnin. reflexivity.
  - rewrite buildChoices_lookup, String.eqb_refl, andb_false_r. reflexivity.
  - rewrite !buildChoices_lookup.
    assert (H1 : Data.includes (keys ++ [k]) k = true)
      by (apply includes_In, in_or_app; right; left; reflexivity).
    assert (H2 : Data.includes (k :: keys) k = true)
      by (apply includes_In; left; reflexivity).
    rewrite H1, H2. reflexivity.
  - intros Hin. rewrite buildChoices_snoc.
    destruct (String.eqb_spec k "__proto__") as [->|Hne]; [reflexivity|].
    apply insert_id.
    rewrite buildChoices_lookup. apply includes_In in Hin. rewrite Hin.
    destruct (String.eqb_spec k "__proto__"); [contradiction|reflexivity].
Qed.

Lemma buildChoicesWithBlank_lookup (namespace : string) (keys : list string)
    (blankLabel k : string) :
  choicesWithBlank namespace keys blankLabel !! k
  = if Data.includes keys k && negb (String.eqb k "__proto__")
    then Some (localize (namespace +:+ "." +:+ k))
    else if String.eqb k "none" then Some blankLabel else None.
Proof.
  unfold buildChoicesWithBlank. rewrite lookup_union, buildChoices_lookup.
  destruct (Data.includes keys k && negb (String.eqb k "__proto__")).
  - destruct ({["none"%string := blankLabel]} !! k); reflexivity.
  - rewrite (left_id None _). destruct (String.eqb_spec k "none") as [->|Hne].
    + apply lookup_singleton_eq.
    + apply lookup_singleton_ne. congruence.
Qed.

(** X2. A choice object with a blank option has the entries of the plain
    one and, under the key none, the blank label; when none is itself one of
    the keys its localized label replaces the blank label. *)
Theorem buildChoicesWithBlank_entries (namespace : string) (keys : list string)
    (blankLabel k : string) :
  (~ In "none"%string keys ->
     buildChoicesWithBlank localize namespace keys blankLabel !! "none"%string
     = Some blankLabel) /\
  (In "none"%string keys ->
     buildChoicesWithBlank localize namespace keys blankLabel !! "none"%string
     = Some (localize (namespace +:+ ".none"))) /\
  (k <> "none"%string ->
     buildChoicesWithBlank localize namespace keys blankLabel !! k
     = buildChoices localize namespace keys !! k).
Proof.
  repeat split.
  - intros Hnin. rewrite buildChoicesWithBlank_lookup.
    apply includes_not_In in Hnin. rewrite Hnin. reflexivity.
  - intros Hin. rewrite buildChoicesWithBlank_lookup.
    apply includes_In in Hin. rewrite Hin. reflexivity.
  - intros Hne. rewrite buildChoicesWithBlank_lookup, buildChoices_lookup.
    destruct (Data.includes keys k && negb (String.eqb k "__proto__")); [reflexivity |].
    destruct (String.eqb_spec k "none"); [contradiction | reflexivity].
Qed.

End ChoiceObjects.

Section ChoiceObjectsWitness.
Import Choices.

Lemma buildChoices_entries_witness :
  buildChoices (fun key => key) "DOLMEN.Item.Size" sizes !! "medium"%string
  = Some "DOLMEN.Item.Size.medium"%string /\
  buildChoices (fun key => key) "DOLMEN.Item.Size" sizes !! "huge"%string = None.
Proof.
  split.
  - destruct (buildChoices_entries (fun key => key) "DOLMEN.Item.Size" sizes "medium")
      as (H & _).
    apply H; [simpl; right; left; reflexivity | discriminate].
  - destruct (buildChoices_entries (fun key => key) "DOLMEN.Item.Size" sizes "huge")
      as (_ & H & _).
    apply H. simpl. intros [E|[E|[E|E]]]; try discriminate E. exact E.
Defined.

Lemma buildChoicesWithBlank_entries_witness :
  buildChoicesWithBlank (fun key => key) "DOLMEN.MoonPhases" moonPhases " " !! "none"%string
  = Some " "%string /\
  buildChoicesWithBlank (fun key => key) "DOLMEN.Item.Bulk" armorBulks " " !! "none"%string
  = Some "DOLMEN.Item.Bulk.none"%string.
Proof.
  split.
  - destruct (buildChoicesWithBlank_entries (fun key => key) "DOLMEN.MoonPhases"
                moonPhases " " "none") as (H & _).
    apply H. simpl. intros [E|[E|[E|E]]]; try discriminate E. exact E.
  - destruct (buildChoicesWithBlank_entries (fun key => key) "DOLMEN.Item.Bulk"
                armorBulks " " "none") as (_ & H & _).
    apply H. simpl. left; reflexivity.
Defined.

End ChoiceObjectsWitness.

(** ** Dropdowns and the schema *)

Section DropdownsAndSchema.
Import Choices Dropdowns.

Variable localize : string -> string.

Lemma choices_offered (namespace : string) (keys : list string) (k : string) :
  Data.includes keys "__proto__" = false ->
  is_Some (buildChoices localize namespace keys !! k) <-> In k keys.
Proof.
  intros Hproto. rewrite buildChoices_lookup, <- includes_In.
  destruct (String.eqb_spec k "__proto__") as [->|Hne].
  - rewrite Hproto. cbn [andb]. split; [intros [x H]|intros H]; discriminate H.
  - rewrite andb_true_r.
    destruct (Data.includes keys k); split; intros H; try reflexivity; try discriminate H.
    + eexists. reflexivity.
    + destruct H as [x H]. discriminate H.
Qed.

Lemma choicesWithBlank_offered (namespace : string) (keys : list string)
    (blankLabel k : string) :
  Data.includes keys "__proto__" = false ->
  is_Some (buildChoicesWithBlank localize namespace keys blankLabel !! k)
  <-> In k ("none"%string :: keys).
Proof.
  intros Hproto. rewrite buildChoicesWithBlank_lookup. simpl. rewrite <- includes_In.
  destruct (String.eqb_spec k "__proto__") as [->|Hp].
  - rewrite Hproto. cbn [andb String.eqb Ascii.eqb Bool.eqb].
    split; [intros [x H]; discriminate H|intros [H|H]; discriminate H].
  - rewrite andb_true_r. destruct (Data.includes keys k).
    + split; [intros _; right; reflexivity | intros _; eexists; reflexivity].
    + destruct (String.eqb_spec k "none") as [->|Hne].
      * split; [intros _; left; reflexivity | intros _; eexists; reflexivity].
      * split.
        -- intros [x H]. discriminate H.
        -- intros [H|H]; [congruence | discriminate H].
Qed.

Lemma union_offered (m1 m2 : gmap string string) (k : string) :
  is_Some ((m1 ∪ m2) !! k) <-> is_Some (m1 !! k) \/ is_Some (m2 !! k).
Proof.
  rewrite lookup_union. destruct (m1 !! k), (m2 !! k); simpl;
    split; intros H; eauto; destruct H as [[x H]|[x H]]; discriminate H.
Qed.

(** X3. Each dropdown of the two sheets offers exactly the values the
    schema accepts for the field it edits: kindred, class, alignment,
    encumbrance method, moon name, moon phase and creature type on the actor
    sheet; weapon size, armor bulk, armor fit, foraged type and spell type
    on the item sheet. *)
Theorem dropdowns_offer_schema_choices :
  Forall (fun '(dropdown, accepted) =>
            forall k : string, is_Some (dropdown !! k) <-> In k accepted)
         (dropdown_fields localize).
Proof.
  unfold dropdown_fields.
  repeat first [apply List.Forall_nil | apply List.Forall_cons];
    intros k;
    unfold kindredChoices, classChoices, alignmentChoices, encumbranceChoices,
      moonNameChoices, moonPhaseChoices, creatureTypeChoices, weaponSizeChoices,
      armorBulkChoices, armorFitChoices, foragedTypeChoices, spellTypeChoices;
    rewrite ?union_offered, ?choices_offered, ?choicesWithBlank_offered by reflexivity;
    simpl; tauto.
Qed.

End DropdownsAndSchema.

(** ** Quality checkboxes: the listener and the next render *)

Section QualityOptions.
Import Data Choices DolmenItemSheet.

Variable localize : string -> string.

Local Abbreviation qualityOptions := (buildQualityOptions localize).

(** The option with [checked] replaced for one id. *)
Definition set_checked (quality : string) (checked : bool) (o : QualityOption)
    : QualityOption :=
  if String.eqb (option_id o) quality
  then {| option_id := option_id o; option_label := option_label o;
          option_checked := checked |}
  else o.

Lemma includes_app (l k : list string) (x : string) :
  includes (l ++ k) x = includes l x || includes k x.
Proof.
  induction l as [|y l IH]; simpl; [reflexivity |].
  rewrite IH. apply orb_assoc.
Qed.

Lemma includes_single (q x : string) : includes [q] x = String.eqb q x.
Proof. simpl. apply orb_false_r. Qed.

(** Membership after a toggle, for a list without duplicates. *)
Lemma includes_after_toggle (quality : string) (checked : bool) (old : list string)
    (x : string) :
  NoDup old ->
  includes (onQualityChange quality checked (Some old)) x
  = if String.eqb x quality then checked else includes old x.
Proof.
  intros Hnd. unfold onQualityChange. simpl.
  destruct (includes old quality) eqn:Hinc.
  - apply includes_In in Hinc as Hin.
    destruct (indexOf_from_first old quality 0 Hin)
      as (before & after & Hold & Hnot & Hidx).
    unfold indexOf. rewrite Hidx, Z.add_0_l.
    assert (Hafter : ~ In quality after).
    { rewrite Hold in Hnd. apply NoDup_ListNoDup in Hnd.
      apply List.NoDup_remove_2 in Hnd. intros H. apply Hnd, in_or_app. right; exact H. }
    destruct checked; simpl.
    + destruct (String.eqb_spec x quality) as [->|]; [exact Hinc | reflexivity].
    + rewrite Hold at 1. rewrite splice1_middle, includes_app.
      destruct (String.eqb_spec x quality) as [->|Hne].
      * apply includes_not_In in Hnot. apply includes_not_In in Hafter.
        rewrite Hnot, Hafter. reflexivity.
      * rewrite Hold, includes_app. simpl.
        destruct (String.eqb_spec quality x); [congruence | reflexivity].
  - destruct checked; simpl.
    + rewrite includes_app, includes_single.
      destruct (String.eqb_spec x quality) as [->|Hne].
      * rewrite String.eqb_refl. apply orb_true_r.
      * destruct (String.eqb_spec quality x); [congruence | apply orb_false_r].
    + destruct (String.eqb_spec x quality) as [->|]; [exact Hinc | reflexivity].
Qed.

Lemma toggle_NoDup (quality : string) (checked : bool) (old : list string) :
  NoDup old -> NoDup (onQualityChange quality checked (Some old)).
Proof.
  intros Hnd. unfold onQualityChange. simpl.
  destruct (includes old quality) eqn:Hinc.
  - destruct checked; simpl; [exact Hnd |].
    apply includes_In in Hinc as Hin.
    destruct (indexOf_from_first old quality 0 Hin)
      as (before & after & Hold & Hnot & Hidx).
    unfold indexOf. rewrite Hidx, Z.add_0_l. rewrite Hold at 1.
    rewrite splice1_middle. rewrite Hold in Hnd.
    apply NoDup_ListNoDup. apply NoDup_ListNoDup in Hnd.
    exact (List.NoDup_remove_1 _ _ _ Hnd).
  - destruct checked; simpl; [| exact Hnd].
    apply includes_not_In in Hinc.
    apply NoDup_app. split; [exact Hnd |]. split; [| apply NoDup_singleton].
    intros x Hx Hq. apply list_elem_of_singleton in Hq as ->.
    apply Hinc, list_elem_of_In, Hx.
Qed.

(** X4. On an item whose quality list has no duplicate, toggling a quality
    checkbox leaves the list without duplicate, and the checkboxes built for
    the next render are the previous ones with only the toggled quality's
    box changed, to the state just clicked. *)
Theorem quality_checkbox_follows_click (quality : string) (checked : bool)
    (old : list string) :
  NoDup old ->
  NoDup (onQualityChange quality checked (Some old)) /\
  qualityOptions (Some (onQualityChange quality checked (Some old)))
  = map (set_checked quality checked) (qualityOptions (Some old)).
Proof.
  intros Hnd. split; [apply toggle_NoDup, Hnd |].
  unfold buildQualityOptions. simpl default. rewrite map_map.
  apply map_ext. intros id. unfold set_checked. simpl.
  rewrite (includes_after_toggle quality checked old id Hnd).
  destruct (String.eqb id quality); reflexivity.
Qed.

End QualityOptions.

Section QualityOptionsWitness.
Import Data Choices DolmenItemSheet.

(** Unchecking reach on a melee, reach weapon: only the reach box changes. *)
Lemma quality_checkbox_follows_click_witness :
  map option_checked
      (buildQualityOptions (fun key => key)
         (Some (onQualityChange "reach" false (Some ["melee"; "reach"]%string))))
  = [false; false; false; true; false; false; false; false; false; false; false].
Proof.
  destruct (quality_checkbox_follows_click (fun key => key) "reach" false
              ["melee"; "reach"]%string) as [_ ->].
  - apply (bool_decide_unpack _). vm_compute. exact I.
  - reflexivity.
Defined.

End QualityOptionsWitness.

(** ** Derived data of an adventurer *)

Section DerivedData.
Import Data AdventurerDataModel DolmenSheet.

Ltac case_leb :=
  repeat match goal with
         | |- context [?a <=? ?b] => destruct (Z.leb_spec a b)
         end.

Lemma computeModifier_range (s : Z) : -3 <= computeModifier s <= 3.
Proof. unfold computeModifier. case_leb; lia. Qed.

(** X5. For every integer score, inside or outside 3..18, the modifier is
    between -3 and 3, the bounds of the schema; and a higher score never has
    a lower modifier. *)
Theorem computeModifier_bounded_monotone (s t : Z) :
  s <= t ->
  -3 <= computeModifier s <= 3 /\ computeModifier s <= computeModifier t.
Proof.
  intros Hst. split; [apply computeModifier_range |].
  unfold computeModifier. case_leb; lia.
Qed.

Lemma computeModifier_bounded_monotone_witness :
  computeModifier 2 = -3 /\ computeModifier 25 = 3 /\
  computeModifier 2 <= computeModifier 25.
Proof.
  destruct (computeModifier_bounded_monotone 2 25) as [_ H]; [lia |].
  split; [reflexivity | split; [reflexivity | exact H]].
Defined.

Lemma creatureType_cases (k : string) :
  getCreatureTypeForKindred k
  = if String.eqb "grimalkin" k || String.eqb "elf" k then "fairy"%string
    else if String.eqb "woodgrue" k then "demi-fey"%string
    else "mortal"%string.
Proof.
  unfold getCreatureTypeForKindred. simpl. rewrite !orb_false_r. reflexivity.
Qed.

(** X6. The creature type derived from a kindred, whatever string the
    kindred is: fairy exactly for grimalkin and elf, demi-fey exactly for
    woodgrue, mortal for everything else; so it is always one of the three
    values the schema accepts. *)
Theorem creatureType_of_kindred (k : string) :
  (getCreatureTypeForKindred k = "fairy"%string
   <-> k = "grimalkin"%string \/ k = "elf"%string) /\
  (getCreatureTypeForKindred k = "demi-fey"%string <-> k = "woodgrue"%string) /\
  (getCreatureTypeForKindred k = "mortal"%string
   <-> k <> "grimalkin"%string /\ k <> "elf"%string /\ k <> "woodgrue"%string) /\
  In (getCreatureTypeForKindred k) Schema.creatureType_choices.
Proof.
  rewrite creatureType_cases.
  destruct (String.eqb_spec "grimalkin" k) as [Hg|Hg];
    destruct (String.eqb_spec "elf" k) as [He|He];
    destruct (String.eqb_spec "woodgrue" k) as [Hw|Hw]; simpl;
    (split; [| split; [| split]]);
    try (split; intros; intuition congruence);
    unfold Schema.creatureType_choices; simpl; auto.
Qed.

(** X7. Preparing derived data twice is the same as preparing it once;
    afterwards every ability modifier is within -3..3 and the creature type
    is one the schema accepts, whatever was stored before; and the attack
    bonus, kindred, experience and extra skills are left as they were. *)
Theorem prepareDerivedData_settles (d : AdventurerData) :
  prepareDerivedData (prepareDerivedData d) = prepareDerivedData d /\
  Forall (fun a => -3 <= ability_mod a <= 3)
         (Object_values (abilities (prepareDerivedData d))) /\
  In (creatureType (prepareDerivedData d)) Schema.creatureType_choices /\
  attack (prepareDerivedData d) = attack d /\
  kindred (prepareDerivedData d) = kindred d /\
  xp (prepareDerivedData d) = xp d /\
  extraSkills (prepareDerivedData d) = extraSkills d.
Proof.
  split; [reflexivity |]. split.
  - repeat constructor; simpl; apply computeModifier_range.
  - split; [| repeat split]. simpl. apply creatureType_of_kindred.
Qed.

(** X8. After derived data has been prepared, and while the attack bonus
    is at least 3 away from [2^53] in magnitude, the modifier of a melee
    attack is the attack bonus plus the modifier of the strength score, that
    of any other attack the attack bonus plus the modifier of the dexterity
    score, and either is an integer within 3 of the attack bonus. *)
Theorem attack_modifier_from_scores (d : AdventurerData) (items : list ItemDocument)
    (attackType : string) :
  Z.abs (attack d) + 3 <= 2 ^ 53 ->
  let a := {| actor_system := prepareDerivedData d; actor_items := items |} in
  totalMod (_getAttackModifiers a "melee")
  = JS.of_Z (attack d + computeModifier (score (strength (abilities d)))) /\
  (attackType <> "melee"%string ->
     totalMod (_getAttackModifiers a attackType)
     = JS.of_Z (attack d + computeModifier (score (dexterity (abilities d))))) /\
  exists t : Z,
    JS.to_Z (totalMod (_getAttackModifiers a attackType)) = Some t /\
    attack d - 3 <= t <= attack d + 3.
Proof.
  intros Hb a.
  pose proof (computeModifier_range (score (strength (abilities d)))) as Hs.
  pose proof (computeModifier_range (score (dexterity (abilities d)))) as Hd.
  assert (Htotal : forall kind,
            totalMod (_getAttackModifiers a kind)
            = JS.of_Z (attack d
                       + (if String.eqb kind "melee"
                          then computeModifier (score (strength (abilities d)))
                          else computeModifier (score (dexterity (abilities d)))))).
  { intros kind. apply totalMod_exact; [reflexivity| | |]; cbn [a actor_system];
      change (attack (prepareDerivedData d)) with (attack d);
      destruct (String.eqb kind "melee"); lia. }
  split; [apply (Htotal "melee"%string)|]. split.
  - intros Hne. rewrite Htotal.
    destruct (String.eqb_spec attackType "melee"); [contradiction | reflexivity].
  - rewrite Htotal. eexists. split.
    + apply to_Z_of_Z. destruct (String.eqb attackType "melee"); lia.
    + destruct (String.eqb attackType "melee"); lia.
Qed.

Lemma attack_modifier_from_scores_witness :
  totalMod (_getAttackModifiers
              {| actor_system := prepareDerivedData (sample_adventurer 2 0 0);
                 actor_items := [] |} "melee")
  = JS.of_Z 2.
Proof.
  destruct (attack_modifier_from_scores (sample_adventurer 2 0 0) [] "melee")
    as (H & _).
  - vm_compute. discriminate.
  - exact H.
Defined.

End DerivedData.

(** ** Inventory buttons and drops *)

Section InventoryActions.
Import Data DolmenSheet DolmenSheetInventory.

Definition unique_ids (a : Actor) : Prop := NoDup (map item_id (actor_items a)).

Lemma items_get_None (items : list ItemDocument) (id : string) :
  items_get items id = None <-> ~ In id (map item_id items).
Proof.
  unfold items_get. induction items as [|j items IH]; simpl; [tauto |].
  destruct (String.eqb_spec (item_id j) id) as [Heq|Hne].
  - split; [discriminate | tauto].
  - rewrite IH. tauto.
Qed.

Lemma items_update_fixed (items : list ItemDocument) (id : string)
    (f : ItemDocument -> ItemDocument) (i : ItemDocument) :
  items_get items id = Some i -> f i = i -> items_update items id f = items.
Proof.
  unfold items_get. induction items as [|j items IH]; simpl; intros Hget Hf;
    [reflexivity |].
  destruct (String.eqb (item_id j) id).
  - injection Hget as ->. rewrite Hf. reflexivity.
  - rewrite IH by assumption. reflexivity.
Qed.

Lemma items_update_twice (items : list ItemDocument) (id : string)
    (f g : ItemDocument -> ItemDocument) :
  (forall j, item_id (f j) = item_id j) ->
  items_update (items_update items id f) id g
  = items_update items id (fun j => g (f j)).
Proof.
  intros Hf. induction items as [|j items IH]; simpl; [reflexivity |].
  destruct (String.eqb (item_id j) id) eqn:Hj; simpl.
  - rewrite Hf, Hj. reflexivity.
  - rewrite Hj, IH. reflexivity.
Qed.

Lemma items_update_ids (items : list ItemDocument) (id : string)
    (f : ItemDocument -> ItemDocument) :
  (forall j, item_id (f j) = item_id j) ->
  map item_id (items_update items id f) = map item_id items.
Proof.
  intros Hf. induction items as [|j items IH]; simpl; [reflexivity |].
  destruct (String.eqb (item_id j) id); simpl; [rewrite Hf | rewrite IH]; reflexivity.
Qed.

(** X9. The equip, stow, delete, increase and decrease buttons change
    nothing when the button carries no item id, an empty one, or one that is
    not an item of the actor. *)
Theorem inventory_buttons_need_an_item (target : option string) (confirmed : bool)
    (a : Actor) :
  (target = None \/ target = Some EmptyString \/
   exists id, target = Some id /\ items_get (actor_items a) id = None) ->
  _onEquipItem target a = a /\ _onStowItem target a = a /\
  _onDeleteItem target confirmed a = a /\
  _onIncreaseQty target a = a /\ _onDecreaseQty target a = a.
Proof.
  unfold _onEquipItem, _onStowItem, _onDeleteItem, _onIncreaseQty, _onDecreaseQty.
  intros [-> | [-> | (id & -> & Hget)]]; simpl; [tauto | tauto |].
  destruct (String.eqb id EmptyString); [tauto |].
  rewrite Hget. tauto.
Qed.

Lemma inventory_buttons_need_an_item_witness :
  let a := sample_actor [sample_item "rope" Item false 1 None] in
  _onDeleteItem (Some "lantern"%string) true a = a /\
  _onEquipItem (Some EmptyString) a = a.
Proof.
  intros a. split.
  - destruct (inventory_buttons_need_an_item (Some "lantern"%string) true a)
      as (_ & _ & H & _); [| exact H].
    right; right. exists "lantern"%string. split; reflexivity.
  - destruct (inventory_buttons_need_an_item (Some EmptyString) true a)
      as (H & _); [| exact H].
    right; left. reflexivity.
Defined.

Lemma equip_found (a : Actor) (id : string) (item : ItemDocument) :
  id <> EmptyString -> items_get (actor_items a) id = Some item ->
  _onEquipItem (Some id) a
  = set_items (items_update (actor_items a) id (set_equipped true)) a /\
  _onStowItem (Some id) a
  = set_items (items_update (actor_items a) id (set_equipped false)) a.
Proof.
  intros Hid Hget. unfold _onEquipItem, _onStowItem.
  rewrite (truthy_id_Some id Hid), Hget. split; reflexivity.
Qed.

(** X10. For an item of the actor, the equip button sets its equipped flag
    and the stow button clears it; neither touches another item nor the
    order of the inventory; pressing one twice is the same as pressing it
    once, and the later of the two buttons wins. *)
Theorem equip_and_stow (a : Actor) (id : string) (item : ItemDocument) :
  id <> EmptyString ->
  items_get (actor_items a) id = Some item ->
  let equip := _onEquipItem (Some id) in
  let stow := _onStowItem (Some id) in
  items_get (actor_items (equip a)) id = Some (set_equipped true item) /\
  items_get (actor_items (stow a)) id = Some (set_equipped false item) /\
  (forall id', id' <> id ->
     items_get (actor_items (equip a)) id' = items_get (actor_items a) id' /\
     items_get (actor_items (stow a)) id' = items_get (actor_items a) id') /\
  map item_id (actor_items (equip a)) = map item_id (actor_items a) /\
  map item_id (actor_items (stow a)) = map item_id (actor_items a) /\
  equip (equip a) = equip a /\ stow (stow a) = stow a /\
  stow (equip a) = stow a /\ equip (stow a) = equip a.
Proof.
  intros Hid Hget equip stow.
  destruct (equip_found a id item Hid Hget) as [He Hs].
  assert (Hafter : forall e,
            items_get (items_update (actor_items a) id (set_equipped e)) id
            = Some (set_equipped e item))
    by (intros e; apply items_get_update_same; [reflexivity | exact Hget]).
  assert (Hagain : equip (equip a) = equip a /\ stow (stow a) = stow a /\
                   stow (equip a) = stow a /\ equip (stow a) = equip a).
  { subst equip stow. unfold _onEquipItem, _onStowItem.
    rewrite (truthy_id_Some id Hid), Hget. cbn [actor_items set_items].
    rewrite !Hafter, !items_update_twice by reflexivity. repeat split. }
  subst equip stow. rewrite He, Hs in *. cbn [actor_items set_items] in *.
  split; [apply Hafter |]. split; [apply Hafter |].
  split; [intros id' Hne; split; apply items_get_update_other;
          solve [reflexivity | assumption] |].
  split; [apply items_update_ids; reflexivity |].
  split; [apply items_update_ids; reflexivity |].
  exact Hagain.
Qed.

Lemma equip_and_stow_witness :
  let a := sample_actor [sample_item "rope" Item false 1 None;
                         sample_item "sword" Weapon false 1 (Some ["melee"]%string)] in
  items_get (actor_items (_onEquipItem (Some "sword"%string) a)) "sword"
  = Some (sample_item "sword" Weapon true 1 (Some ["melee"]%string)).
Proof.
  intros a.
  destruct (equip_and_stow a "sword"
              (sample_item "sword" Weapon false 1 (Some ["melee"]%string)))
    as (H & _); [discriminate | reflexivity |].
  exact H.
Defined.


Definition weapon_with (quality : string) (item : ItemDocument) : bool :=
  String.eqb (type_name (item_type item)) "Weapon"
  && equipped (item_system item)
  && match qualities (item_system item) with
     | Some qs => includes qs quality
     | None => false
     end.

Definition not_id (id : string) (item : ItemDocument) : bool :=
  negb (String.eqb (item_id item) id).

Lemma filter_not_id_absent (l : list ItemDocument) (id : string) :
  ~ In id (map item_id l) -> List.filter (not_id id) l = l.
Proof.
  induction l as [|j l IH]; simpl; intros Hnot; [reflexivity |].
  unfold not_id at 1. destruct (String.eqb_spec (item_id j) id) as [Heq|Hne]; [tauto |].
  simpl. rewrite IH by tauto. reflexivity.
Qed.

Lemma filter_ids_incl (P : ItemDocument -> bool) (l : list ItemDocument) (id : string) :
  In id (map item_id (List.filter P l)) -> In id (map item_id l).
Proof.
  rewrite !in_map_iff. intros (j & Hid & Hin). apply filter_In in Hin as [Hin _].
  eauto.
Qed.

Lemma stowed_candidates (items : list ItemDocument) (id quality : string) :
  List.NoDup (map item_id items) ->
  List.filter (weapon_with quality) (items_update items id (set_equipped false))
  = List.filter (not_id id) (List.filter (weapon_with quality) items).
Proof.
  induction items as [|j items IH]; simpl; intros Hnd; [reflexivity |].
  inversion Hnd as [|? ? Hnot Hnd']; subst.
  destruct (String.eqb_spec (item_id j) id) as [Heq|Hne].
  - assert (Hrest : List.filter (not_id id) (List.filter (weapon_with quality) items)
                    = List.filter (weapon_with quality) items).
    { apply filter_not_id_absent. intros H. apply filter_ids_incl in H. congruence. }
    simpl. replace (weapon_with quality (set_equipped false j)) with false
      by (unfold weapon_with; simpl; rewrite andb_false_r; reflexivity).
    destruct (weapon_with quality j); simpl; [| now rewrite Hrest].
    unfold not_id at 1. rewrite Heq, String.eqb_refl. simpl. now rewrite Hrest.
  - simpl. destruct (weapon_with quality j); simpl.
    + unfold not_id at 1. destruct (String.eqb_spec (item_id j) id); [contradiction |].
      simpl. rewrite IH by assumption. reflexivity.
    + apply IH. assumption.
Qed.

End InventoryActions.

Section InventoryAndAttack.
Import Data DolmenSheet DolmenSheetInventory.

Variable localize : string -> string.
Variable format : string -> list (string * string) -> string.

(** X11. Which weapons an attack click finds follows the equip and stow
    buttons: an unequipped weapon that carries the quality is found once its
    equip button is pressed; with unique item ids, stowing an item removes
    exactly it from the weapons found; and after the only weapon found is
    stowed, the attack click only warns that there is no weapon. *)
Theorem equipped_weapons_follow_buttons (a : Actor) (id quality : string)
    (item : ItemDocument) :
  unique_ids a ->
  id <> EmptyString ->
  items_get (actor_items a) id = Some item ->
  (item_type item = Weapon ->
   (exists qs, qualities (item_system item) = Some qs /\ In quality qs) ->
   In (set_equipped true item)
      (_getEquippedWeaponsByQuality (_onEquipItem (Some id) a) quality)) /\
  _getEquippedWeaponsByQuality (_onStowItem (Some id) a) quality
  = List.filter (not_id id) (_getEquippedWeaponsByQuality a quality) /\
  (forall d20 w,
     w_actor w = a ->
     _getEquippedWeaponsByQuality a quality = [item] ->
     _onAttackRoll localize format quality d20 (update_actor (_onStowItem (Some id)) w)
     = warn (no_weapon_warning localize format quality)
            (update_actor (_onStowItem (Some id)) w)).
Proof.
  intros Hnd Hid Hget.
  destruct (equip_found a id item Hid Hget) as [He Hs].
  assert (Hstow : _getEquippedWeaponsByQuality (_onStowItem (Some id) a) quality
                  = List.filter (not_id id) (_getEquippedWeaponsByQuality a quality)).
  { rewrite Hs. unfold _getEquippedWeaponsByQuality. cbn [actor_items set_items].
    apply (stowed_candidates (actor_items a) id quality).
    apply NoDup_ListNoDup. exact Hnd. }
  split; [| split; [exact Hstow |]].
  - intros Htype (qs & Hqs & Hin).
    apply candidates_spec. split.
    + rewrite He. cbn [actor_items set_items].
      eapply items_get_In.
      apply items_get_update_same; [reflexivity | exact Hget].
    + unfold candidate. simpl. eauto.
  - intros d20 w Hw Hone. unfold _onAttackRoll.
    cbn [w_actor update_actor]. rewrite Hw, Hstow, Hone.
    apply items_get_In in Hget as [_ Hitem].
    simpl. unfold not_id. rewrite Hitem, String.eqb_refl. reflexivity.
Qed.

End InventoryAndAttack.

Section InventoryAndAttackWitness.
Import Data DolmenSheet DolmenSheetInventory.

(** The sword is the only equipped melee weapon; once it is stowed a melee
    click finds none. *)
Lemma equipped_weapons_follow_buttons_witness :
  _getEquippedWeaponsByQuality (_onStowItem (Some "sword"%string) armed_actor) "melee" = [] /\
  w_chat (_onAttackRoll (fun key => key) (fun key _ => key) "melee" 20
            (update_actor (_onStowItem (Some "sword"%string)) (sample_world armed_actor)))
  = [].
Proof.
  destruct (equipped_weapons_follow_buttons (fun key => key) (fun key _ => key)
              armed_actor "sword" "melee"
              (sample_item "sword" Weapon true 1 (Some ["melee"]%string)))
    as (_ & Hstow & Hwarn).
  - apply (bool_decide_unpack _). vm_compute. exact I.
  - discriminate.
  - reflexivity.
  - split; [rewrite Hstow; reflexivity |].
    rewrite (Hwarn 20 (sample_world armed_actor) eq_refl eq_refl). reflexivity.
Defined.

End InventoryAndAttackWitness.

Section DeleteAndDrop.
Import Data DolmenSheet DolmenSheetInventory.

Lemma items_delete_filter (items : list ItemDocument) (id : string) :
  List.NoDup (map item_id items) ->
  items_delete items id = List.filter (not_id id) items.
Proof.
  induction items as [|j items IH]; simpl; intros Hnd; [reflexivity |].
  inversion Hnd as [|? ? Hnot Hnd']; subst.
  unfold not_id at 1.
  destruct (String.eqb_spec (item_id j) id) as [Heq|Hne]; simpl.
  - symmetry. apply filter_not_id_absent. congruence.
  - rewrite IH by assumption. reflexivity.
Qed.

Lemma items_get_delete_other (items : list ItemDocument) (id id' : string) :
  id' <> id -> items_get (items_delete items id) id' = items_get items id'.
Proof.
  intros Hne. unfold items_get.
  induction items as [|j items IH]; simpl; [reflexivity |].
  destruct (String.eqb_spec (item_id j) id) as [Hj|Hj]; simpl.
  - destruct (String.eqb_spec (item_id j) id'); [congruence | reflexivity].
  - destruct (String.eqb (item_id j) id'); [reflexivity | exact IH].
Qed.

Lemma items_delete_length (items : list ItemDocument) (id : string) (i : ItemDocument) :
  items_get items id = Some i ->
  S (length (items_delete items id)) = length items.
Proof.
  unfold items_get. induction items as [|j items IH]; simpl; [discriminate |].
  destruct (String.eqb (item_id j) id); simpl; [reflexivity |].
  intros H. rewrite IH by exact H. reflexivity.
Qed.

(** X12. Deleting an item of the actor: when the confirmation is declined
    nothing changes; when it is confirmed (item ids being unique) the item
    can no longer be looked up, every other item is still there under its
    id and in the same order, the inventory is one item shorter and the
    actor's own data is untouched. *)
Theorem delete_item (a : Actor) (id : string) (item : ItemDocument) :
  unique_ids a ->
  id <> EmptyString ->
  items_get (actor_items a) id = Some item ->
  _onDeleteItem (Some id) false a = a /\
  items_get (actor_items (_onDeleteItem (Some id) true a)) id = None /\
  (forall id', id' <> id ->
     items_get (actor_items (_onDeleteItem (Some id) true a)) id'
     = items_get (actor_items a) id') /\
  actor_items (_onDeleteItem (Some id) true a) = List.filter (not_id id) (actor_items a) /\
  S (length (actor_items (_onDeleteItem (Some id) true a))) = length (actor_items a) /\
  actor_system (_onDeleteItem (Some id) true a) = actor_system a.
Proof.
  intros Hnd Hid Hget. unfold _onDeleteItem.
  rewrite (truthy_id_Some id Hid), Hget. cbn [actor_items actor_system set_items].
  apply NoDup_ListNoDup in Hnd.
  split; [reflexivity |]. split; [| split; [| split; [| split]]].
  - apply items_get_None. rewrite items_delete_filter by exact Hnd.
    rewrite in_map_iff. intros (j & Hj & Hin).
    apply filter_In in Hin as [_ Hin]. unfold not_id in Hin.
    rewrite Hj, String.eqb_refl in Hin. discriminate.
  - intros id' Hne. apply items_get_delete_other. exact Hne.
  - apply items_delete_filter. exact Hnd.
  - eapply items_delete_length. exact Hget.
  - reflexivity.
Qed.

Lemma delete_item_witness :
  let a := sample_actor [sample_item "rope" Item false 1 None;
                         sample_item "torch" Item false 3 None;
                         sample_item "sword" Weapon true 1 (Some ["melee"]%string)] in
  map item_id (actor_items (_onDeleteItem (Some "torch"%string) true a))
  = ["rope"; "sword"]%string.
Proof.
  intros a.
  destruct (delete_item a "torch" (sample_item "torch" Item false 3 None))
    as (_ & _ & _ & H & _).
  - apply (bool_decide_unpack _). vm_compute. exact I.
  - discriminate.
  - reflexivity.
  - rewrite H. reflexivity.
Defined.

Lemma set_equipped_same (i : ItemDocument) :
  set_equipped (equipped (item_system i)) i = i.
Proof. destruct i as [? ? ? ? []]. reflexivity. Qed.

(** X13. A drop on the sheet.  Data that is not an item changes nothing.
    An item of another owner is copied: the inventory gains exactly one
    item, at the end, equipped exactly when the drop was on the equipped
    list.  An item of the actor itself ends up equipped exactly when the
    drop was on the equipped list, with nothing else changed, and the actor
    is not updated at all when the flag already agrees.  A drop outside
    both lists counts as a drop on the stowed list. *)
Theorem drop_on_sheet (ev : DropEvent) (newId : string) (a : Actor) :
  (drop_type ev <> "Item"%string -> _onDrop ev newId a = a) /\
  (drop_type ev = "Item"%string -> drop_ownItem ev = false ->
     actor_items (_onDrop ev newId a) = actor_items a ++ [itemData ev newId] /\
     equipped (item_system (itemData ev newId)) = onto_equipped ev /\
     item_name (itemData ev newId) = item_name (drop_item ev) /\
     item_type (itemData ev newId) = item_type (drop_item ev) /\
     quantity (item_system (itemData ev newId)) = quantity (item_system (drop_item ev)) /\
     damage (item_system (itemData ev newId)) = damage (item_system (drop_item ev)) /\
     qualities (item_system (itemData ev newId))
     = qualities (item_system (drop_item ev))) /\
  (drop_type ev = "Item"%string -> drop_ownItem ev = true ->
   items_get (actor_items a) (item_id (drop_item ev)) = Some (drop_item ev) ->
     items_get (actor_items (_onDrop ev newId a)) (item_id (drop_item ev))
     = Some (set_equipped (onto_equipped ev) (drop_item ev)) /\
     (forall id', id' <> item_id (drop_item ev) ->
        items_get (actor_items (_onDrop ev newId a)) id' = items_get (actor_items a) id') /\
     map item_id (actor_items (_onDrop ev newId a)) = map item_id (actor_items a) /\
     (equipped (item_system (drop_item ev)) = onto_equipped ev -> _onDrop ev newId a = a)) /\
  (drop_targetList ev <> Some "equipped"%string -> onto_equipped ev = false) /\
  actor_system (_onDrop ev newId a) = actor_system a.
Proof.
  unfold _onDrop.
  split; [| split; [| split; [| split]]].
  - intros Hne. destruct (String.eqb_spec (drop_type ev) "Item"); [contradiction | reflexivity].
  - intros -> ->. simpl. repeat split.
  - intros -> -> Hget. simpl.
    destruct (Bool.eqb_spec (equipped (item_system (drop_item ev))) (onto_equipped ev))
      as [Heq|Hne]; simpl.
    + rewrite <- Heq, set_equipped_same. repeat split. exact Hget.
    + split; [apply items_get_update_same; [reflexivity | exact Hget] |].
      split; [intros id' Hid; apply items_get_update_other; [reflexivity | exact Hid] |].
      split; [apply items_update_ids; reflexivity | contradiction].
  - unfold onto_equipped. destruct (drop_targetList ev) as [l|]; [| reflexivity].
    intros Hne. destruct (String.eqb_spec l "equipped"); [congruence | reflexivity].
  - destruct (String.eqb (drop_type ev) "Item"); [| reflexivity].
    destruct (drop_ownItem ev); simpl; [| reflexivity].
    destruct (Bool.eqb _ _); reflexivity.
Qed.

(** A sword of the actor, equipped, dropped outside both lists: stowed. *)
Lemma drop_on_sheet_witness :
  let ev := {| drop_type := "Item"; drop_targetList := None;
               drop_item := sample_item "sword" Weapon true 1 (Some ["melee"]%string);
               drop_ownItem := true |} in
  items_get (actor_items (_onDrop ev "new" armed_actor)) "sword"
  = Some (sample_item "sword" Weapon false 1 (Some ["melee"]%string)).
Proof.
  intros ev.
  destruct (drop_on_sheet ev "new" armed_actor) as (_ & _ & H & _).
  destruct (H eq_refl eq_refl eq_refl) as (H1 & _). exact H1.
Defined.

End DeleteAndDrop.

Section QuantityRoundTrip.
Import Data DolmenSheet DolmenSheetInventory.

Lemma set_quantity_back (q q' : Z) (i : ItemDocument) :
  q' = quantity (item_system i) -> set_quantity q' (set_quantity q i) = i.
Proof. intros ->. destruct i as [? ? ? ? []]. reflexivity. Qed.

(** X14. For an item of the actor, decrease undoes increase whenever the
    stored quantity is at least 1 and below [2^53], and increase undoes
    decrease whenever it is greater than 1 and at most [2^53].  A stored
    quantity of 0 is treated as 1: increase then stores 2 and decrease
    changes nothing. *)
Theorem quantity_round_trip (a : Actor) (id : string) (item : ItemDocument) :
  id <> EmptyString ->
  items_get (actor_items a) id = Some item ->
  (1 <= quantity (item_system item) < 2 ^ 53 ->
     _onDecreaseQty (Some id) (_onIncreaseQty (Some id) a) = a) /\
  (1 < quantity (item_system item) <= 2 ^ 53 ->
     _onIncreaseQty (Some id) (_onDecreaseQty (Some id) a) = a) /\
  (quantity (item_system item) = 0 ->
     items_get (actor_items (_onIncreaseQty (Some id) a)) id
     = Some (set_quantity 2 item) /\
     _onDecreaseQty (Some id) a = a).
Proof.
  intros Hid Hget.
  assert (Hafter : forall q,
            items_get (items_update (actor_items a) id (set_quantity q)) id
            = Some (set_quantity q item))
    by (intros q; apply items_get_update_same; [reflexivity | exact Hget]).
  split; [| split].
  - intros Hq. rewrite (increase_as_update a id item Hid Hget) by lia.
    destruct (Z.ltb_spec (quantity (item_system item)) (2 ^ 53)); [|lia].
    rewrite (decrease_as_update
               (set_items (items_update (actor_items a) id
                             (set_quantity (quantity (item_system item) + 1))) a)
               id (set_quantity (quantity (item_system item) + 1) item)
               Hid (Hafter _)) by (cbn [quantity item_system set_quantity]; lia).
    cbn [quantity item_system set_quantity].
    destruct (Z.ltb_spec 1 (quantity (item_system item) + 1)); [| lia].
    cbn [actor_items actor_system set_items].
    rewrite items_update_twice by reflexivity.
    rewrite (items_update_fixed _ _ _ item Hget) by (apply set_quantity_back; lia).
    destruct a; reflexivity.
  - intros Hq. rewrite (decrease_as_update a id item Hid Hget) by lia.
    destruct (Z.ltb_spec 1 (quantity (item_system item))); [| lia].
    rewrite (increase_as_update
               (set_items (items_update (actor_items a) id
                             (set_quantity (quantity (item_system item) - 1))) a)
               id (set_quantity (quantity (item_system item) - 1) item)
               Hid (Hafter _)) by (cbn [quantity item_system set_quantity]; lia).
    cbn [quantity item_system set_quantity].
    destruct (Z.ltb_spec (quantity (item_system item) - 1) (2 ^ 53)); [|lia].
    cbn [actor_items actor_system set_items].
    rewrite items_update_twice by reflexivity.
    rewrite (items_update_fixed _ _ _ item Hget) by (apply set_quantity_back; lia).
    destruct a; reflexivity.
  - intros Hq. unfold _onDecreaseQty, _onIncreaseQty.
    rewrite (truthy_id_Some id Hid), Hget, Hq. cbv zeta.
    change (JS.or_else (JS.of_Z 0) (JS.of_Z 1)) with (JS.of_Z 1).
    change (JS.add (JS.of_Z 1) (JS.of_Z 1)) with (JS.of_Z 2).
    change (JS.lt (JS.of_Z 1) (JS.of_Z 1)) with false.
    rewrite update_quantity_of_Z by (vm_compute; discriminate).
    split; [apply Hafter | reflexivity].
Qed.

Lemma quantity_round_trip_witness :
  let a := sample_actor [sample_item "rope" Item false 1 None;
                         sample_item "torch" Item false 3 None] in
  _onDecreaseQty (Some "rope"%string) (_onIncreaseQty (Some "rope"%string) a) = a.
Proof.
  intros a.
  destruct (quantity_round_trip a "rope" (sample_item "rope" Item false 1 None))
    as (H & _); [discriminate | reflexivity |].
  apply H. vm_compute. split; [discriminate|reflexivity].
Defined.

End QuantityRoundTrip.

(** ** The list of extra skills *)

Section SkillList.
Import Data DolmenSheet.

Variable localize : string -> string.
Variable CONFIG_extraSkills : list string.
Variable CONFIG_maxExtraSkills : Z.

Local Abbreviation openAddSkillDialog :=
  (_openAddSkillDialog localize CONFIG_extraSkills CONFIG_maxExtraSkills).

(** What the data model says of the list: ids are unique, all are
    configured skills, and there are no more than the maximum. *)
Definition skills_ok (w : World) : Prop :=
  NoDup (map skill_id (held w)) /\
  Forall (fun s => In (skill_id s) CONFIG_extraSkills) (held w) /\
  Z.of_nat (length (held w)) <= CONFIG_maxExtraSkills.

Lemma splice1_sublist {A} (l : list A) (start : Z) : splice1 l start `sublist_of` l.
Proof.
  unfold splice1.
  set (k := Z.to_nat (if start <? 0
                      then Z.max (Z.of_nat (length l) + start) 0
                      else Z.min start (Z.of_nat (length l)))).
  transitivity (take k l ++ drop k l); [| now rewrite take_drop].
  apply sublist_app; [reflexivity |].
  replace (drop (S k) l) with (drop 1 (drop k l))
    by (rewrite drop_drop; f_equal; lia).
  apply sublist_drop.
Qed.

Lemma splice1_lookup {A} (l : list A) (index : Z) (i : nat) :
  0 <= index ->
  splice1 l index !! i = if Z.of_nat i <? index then l !! i else l !! S i.
Proof.
  intros Hidx. unfold splice1.
  destruct (Z.ltb_spec index 0); [lia |].
  set (k := Z.to_nat (Z.min index (Z.of_nat (length l)))).
  assert (Hk : (k <= length l)%nat) by (subst k; lia).
  assert (Hlen : length (take k l) = k) by (rewrite length_take; lia).
  destruct (Nat.lt_ge_cases i k) as [Hlt|Hge].
  - rewrite lookup_app_l by (rewrite Hlen; exact Hlt).
    rewrite lookup_take_lt by exact Hlt.
    destruct (Z.ltb_spec (Z.of_nat i) index); [reflexivity | subst k; lia].
  - rewrite lookup_app_r by (rewrite Hlen; exact Hge).
    rewrite Hlen, lookup_drop.
    replace (S k + (i - k))%nat with (S i) by lia.
    destruct (Z.ltb_spec (Z.of_nat i) index) as [Hi|Hi]; [| reflexivity].
    assert (length l <= i)%nat by (subst k; lia).
    rewrite (lookup_ge_None_2 l i) by lia.
    apply lookup_ge_None_2. lia.
Qed.

Lemma splice1_beyond {A} (l : list A) (index : Z) :
  Z.of_nat (length l) <= index -> splice1 l index = l.
Proof.
  intros Hge. unfold splice1.
  destruct (Z.ltb_spec index 0); [lia |].
  rewrite Z.min_r by lia. rewrite Nat2Z.id.
  rewrite firstn_all, drop_ge by lia. apply app_nil_r.
Qed.

(** X15. Removing an extra skill by position.  For a position that is not
    negative, the entries before it stay where they are and the later ones
    move up by one, so that exactly the entry at that position is gone; a
    position at or past the end removes nothing; a negative position counts
    from the end of the list; and removing the last position right after
    adding a skill gives back the list as it was. *)
Theorem remove_skill_by_position (index : Z) (skillId : string) (w : World) :
  (0 <= index ->
     forall i : nat,
       held (_removeSkill index w) !! i
       = if Z.of_nat i <? index then held w !! i else held w !! S i) /\
  (0 <= index < Z.of_nat (length (held w)) ->
     S (length (held (_removeSkill index w))) = length (held w)) /\
  (Z.of_nat (length (held w)) <= index -> held (_removeSkill index w) = held w) /\
  (index < 0 ->
     held (_removeSkill index w)
     = held (_removeSkill (Z.max (Z.of_nat (length (held w)) + index) 0) w)) /\
  held (_removeSkill (Z.of_nat (length (held w))) (_addSkill skillId w)) = held w /\
  actor_items (w_actor (_removeSkill index w)) = actor_items (w_actor w).
Proof.
  change (held (_removeSkill index w)) with (splice1 (held w) index).
  split; [intros Hidx i; apply splice1_lookup; exact Hidx |].
  split; [| split; [apply splice1_beyond | split; [| split; [| reflexivity]]]].
  - intros [H0 Hlt]. unfold splice1.
    destruct (Z.ltb_spec index 0); [lia |].
    rewrite Z.min_l by lia.
    rewrite length_app, length_take, length_drop. lia.
  - intros Hneg.
    change (held (_removeSkill (Z.max (Z.of_nat (length (held w)) + index) 0) w))
      with (splice1 (held w) (Z.max (Z.of_nat (length (held w)) + index) 0)).
    unfold splice1.
    destruct (Z.ltb_spec index 0); [| lia].
    destruct (Z.ltb_spec (Z.max (Z.of_nat (length (held w)) + index) 0) 0); [lia |].
    rewrite (Z.min_l (Z.max _ _)) by lia. reflexivity.
  - change (held (_removeSkill (Z.of_nat (length (held w))) (_addSkill skillId w)))
      with (splice1 (held w ++ [{| skill_id := skillId; skill_target := 6 |}])
                    (Z.of_nat (length (held w)))).
    rewrite splice1_middle. apply app_nil_r.
Qed.

Lemma remove_skill_by_position_witness :
  let w := sample_world (skilled_actor ["alertness"; "stalking"; "tracking"]%string) in
  map skill_id (held (_removeSkill 1 w)) = ["alertness"; "tracking"]%string /\
  map skill_id (held (_removeSkill 3 w)) = ["alertness"; "stalking"; "tracking"]%string.
Proof.
  intros w.
  destruct (remove_skill_by_position 3 "survival" w) as (_ & _ & H & _).
  split; [reflexivity |]. rewrite H; [reflexivity | simpl; lia].
Defined.

(** X16. The list of extra skills stays valid (unique ids, only configured
    skills, no more than the maximum): removing at any position keeps it
    valid, and so does adding the skill picked in the add-skill dialog when
    the action has opened it; the picked skill is appended with target 6. *)
Theorem skill_list_stays_valid (w : World) (index : Z) (selected : string)
    (options : list (string * string)) :
  skills_ok w ->
  skills_ok (_removeSkill index w) /\
  (w_dialog w = None ->
   w_dialog (openAddSkillDialog w) = Some (AddSkillDialog options) ->
   In selected (map fst options) ->
     held (_openAddSkillDialog_add selected (openAddSkillDialog w))
     = held w ++ [{| skill_id := selected; skill_target := 6 |}] /\
     skills_ok (_openAddSkillDialog_add selected (openAddSkillDialog w))).
Proof.
  intros (Hnd & Hall & Hmax). split.
  - unfold skills_ok.
    change (held (_removeSkill index w)) with (splice1 (held w) index).
    pose proof (splice1_sublist (held w) index) as Hsub.
    split; [| split].
    + eapply sublist_NoDup; [exact Hnd |].
      apply (fmap_sublist skill_id). exact Hsub.
    + rewrite Forall_forall in Hall |- *. intros s Hs.
      apply Hall. eapply elem_of_sublist; eassumption.
    + apply sublist_length in Hsub. lia.
  - unfold _openAddSkillDialog. fold (held w). fold (unused CONFIG_extraSkills w).
    intros Hnone.
    destruct ((Z.of_nat (length (unused CONFIG_extraSkills w)) =? 0)
              || (CONFIG_maxExtraSkills <=? Z.of_nat (length (held w)))) eqn:Hguard.
    + simpl. rewrite Hnone. discriminate.
    + simpl. intros [= <-].
      rewrite (map_fst_options (fun id => localize ("DOLMEN.Skills." +:+ id))).
      intros Hin.
      apply orb_false_iff in Hguard as [_ Hlt]. apply Z.leb_gt in Hlt.
      apply (unused_spec localize) in Hin as [Hconf Hnew].
      split; [reflexivity |].
      unfold skills_ok.
      change (held (_openAddSkillDialog_add selected
                      (open_dialog (AddSkillDialog
                         (map (fun id => (id, localize ("DOLMEN.Skills." +:+ id)))
                              (unused CONFIG_extraSkills w))) w)))
        with (held w ++ [{| skill_id := selected; skill_target := 6 |}]).
      split; [| split].
      * rewrite map_app. apply NoDup_app. split; [exact Hnd |].
        split; [| apply NoDup_singleton].
        intros x Hx Hx'. apply list_elem_of_singleton in Hx'. subst x.
        apply Hnew. apply list_elem_of_In. exact Hx.
      * apply Forall_app. split; [exact Hall |].
        apply List.Forall_cons; [exact Hconf | apply List.Forall_nil].
      * rewrite length_app. simpl. lia.
Qed.

End SkillList.

Section SkillListWitness.
Import Data DolmenSheet.

(** One skill held, a maximum of two: the dialog opens, and picking
    tracking appends it. *)
Lemma skill_list_stays_valid_witness :
  let w := sample_world (skilled_actor ["alertness"]%string) in
  let config := ["alertness"; "stalking"; "tracking"]%string in
  map skill_id
    (held (_openAddSkillDialog_add "tracking"
             (_openAddSkillDialog (fun key => key) config 2 w)))
  = ["alertness"; "tracking"]%string.
Proof.
  intros w config.
  destruct (skill_list_stays_valid (fun key => key) config 2 w 0 "tracking"
              [("stalking", "DOLMEN.Skills.stalking");
               ("tracking", "DOLMEN.Skills.tracking")]%string) as [_ H].
  - split; [| split].
    + apply (bool_decide_unpack _). vm_compute. exact I.
    + apply List.Forall_cons; [simpl; tauto | apply List.Forall_nil].
    + simpl. lia.
  - destruct H as [-> _]; [reflexivity | reflexivity | simpl; tauto | reflexivity].
Defined.

End SkillListWitness.

(** ** Right click on an attack icon, and the menus *)

Section RollMenus.
Import Data DolmenSheet.

Variable localize : string -> string.
Variable format : string -> list (string * string) -> string.

Local Abbreviation onAttackRollContextMenu := (_onAttackRollContextMenu localize format).
Local Abbreviation click := (onItemClick localize).

(** The formula of the attack roll of the actor of [w]. *)
Definition attack_formula_of (w : World) (attackType : string) : string :=
  _buildAttackFormula (totalMod (_getAttackModifiers (w_actor w) attackType)).

(** A message of an attack roll alone. *)
Definition attack_only (weapon : ItemDocument) (attackType : string) (d20 : Z)
    (w : World) (msg : ChatMessage) : Prop :=
  msg_weapon msg = weapon /\ msg_attackType msg = attackType /\
  msg_damage msg = None /\
  msg_rolls msg = [attack_formula_of w attackType] /\
  exists atk,
    msg_attack msg = Some atk /\
    attack_formula atk = attack_formula_of w attackType /\
    (resultClass atk = "critical"%string <-> d20 = 20) /\
    (resultClass atk = "fumble"%string <-> d20 = 1) /\
    (resultClass atk = EmptyString <-> d20 <> 20 /\ d20 <> 1).

(** A message of a damage roll alone. *)
Definition damage_only (weapon : ItemDocument) (attackType : string)
    (msg : ChatMessage) : Prop :=
  msg_weapon msg = weapon /\ msg_attackType msg = attackType /\
  msg_attack msg = None /\
  msg_damage msg = Some {| damage_formula := damage (item_system weapon) |} /\
  msg_rolls msg = [damage (item_system weapon)].

Lemma result_class (d20 : Z) :
  (fst (_getAttackResultState localize d20) = "critical"%string <-> d20 = 20) /\
  (fst (_getAttackResultState localize d20) = "fumble"%string <-> d20 = 1) /\
  (fst (_getAttackResultState localize d20) = EmptyString <-> d20 <> 20 /\ d20 <> 1).
Proof.
  unfold _getAttackResultState.
  destruct (Z.eqb_spec d20 20) as [->|H20]; simpl.
  - repeat split; try discriminate; try lia.
  - destruct (Z.eqb_spec d20 1) as [->|H1]; simpl.
    + repeat split; try discriminate; try lia.
    + repeat split; try discriminate; try lia.
Qed.

Lemma rollAttackOnly_message (weapon : ItemDocument) (attackType : string) (d20 : Z)
    (w : World) :
  exists msg,
    _rollAttackOnly localize weapon attackType d20 w = create_chat msg w /\
    attack_only weapon attackType d20 w msg.
Proof.
  unfold _rollAttackOnly, _performAttackRoll. cbn [negb].
  eexists. split; [reflexivity |].
  unfold attack_only. cbn [msg_weapon msg_attackType msg_damage msg_rolls msg_attack].
  split; [reflexivity |]. split; [reflexivity |]. split; [reflexivity |].
  split; [reflexivity |].
  eexists. split; [reflexivity |]. cbn [attack_formula resultClass].
  split; [reflexivity |]. apply result_class.
Qed.

Lemma rollDamageOnly_message (weapon : ItemDocument) (attackType : string) (d20 : Z)
    (w : World) :
  exists msg,
    _rollDamageOnly localize weapon attackType d20 w = create_chat msg w /\
    damage_only weapon attackType msg.
Proof.
  unfold _rollDamageOnly, _performAttackRoll. cbn [negb].
  eexists. split; [reflexivity |]. unfold damage_only. repeat split.
Qed.

(** What a chosen roll type does with a weapon in a world whose menu has
    just been closed. *)
Definition rolled (rollType : string) (weapon : ItemDocument) (attackType : string)
    (d20 : Z) (w w' : World) : Prop :=
  w_menu w' = None /\ w_actor w' = w_actor w /\
  w_notifications w' = w_notifications w /\
  (rollType = "attack"%string ->
     exists msg, w_chat w' = w_chat w ++ [msg] /\
                 attack_only weapon attackType d20 w msg) /\
  (rollType = "damage"%string ->
     exists msg, w_chat w' = w_chat w ++ [msg] /\
                 damage_only weapon attackType msg) /\
  (rollType <> "attack"%string -> rollType <> "damage"%string ->
     w_chat w' = w_chat w).

Lemma roll_of_type (rollType : string) (weapon : ItemDocument) (attackType : string)
    (d20 : Z) (w : World) :
  rolled rollType weapon attackType d20 w
    (remove_menu
       (if String.eqb rollType "attack" then _rollAttackOnly localize weapon attackType d20 w
        else if String.eqb rollType "damage"
             then _rollDamageOnly localize weapon attackType d20 w
             else w)).
Proof.
  destruct (rollAttackOnly_message weapon attackType d20 w) as (ma & Ha & Hma).
  destruct (rollDamageOnly_message weapon attackType d20 w) as (md & Hd & Hmd).
  rewrite Ha, Hd. unfold rolled.
  destruct (String.eqb_spec rollType "attack") as [->|Hna].
  - repeat split; try reflexivity; try congruence.
    intros _. exists ma. split; [reflexivity | exact Hma].
  - destruct (String.eqb_spec rollType "damage") as [->|Hnd].
    + repeat split; try reflexivity; try congruence.
      intros _. exists md. split; [reflexivity | exact Hmd].
    + repeat split; try reflexivity; congruence.
Qed.

Lemma several (A : Type) (l : list A) :
  (2 <= length l)%nat ->
  (Z.of_nat (length l) =? 0) = false /\ (Z.of_nat (length l) =? 1) = false.
Proof. intros H. split; apply Z.eqb_neq; lia. Qed.

(** X17. A right click on an attack icon only warns when no equipped
    weapon carries the quality, and otherwise shows the roll-type menu in
    place of any open menu.  With one such weapon, choosing a roll type
    closes the menu and posts one message for that weapon: an attack roll
    alone (critical exactly on a 20 of the d20, fumble exactly on a 1) or a
    damage roll alone with the weapon's damage expression as its formula;
    any other roll type posts nothing.  With several weapons the choice
    shows the weapon menu; the weapon picked there is rolled the same way,
    and an id that is not an item of the actor only closes the menu. *)
Theorem right_click_rolls (attackType rollType weaponId : string) (d20 : Z) (w : World) :
  let weapons := _getEquippedWeaponsByQuality (w_actor w) attackType in
  let w1 := onAttackRollContextMenu attackType w in
  let w2 := click weaponId rollType d20 w1 in
  (weapons = [] -> w1 = warn (no_weapon_warning localize format attackType) w) /\
  (weapons <> [] -> w1 = open_menu (RollTypeMenu weapons attackType) (remove_menu w)) /\
  (forall weapon, weapons = [weapon] -> rolled rollType weapon attackType d20 w w2) /\
  ((2 <= length weapons)%nat ->
     w2 = open_menu (WeaponSelectionMenu weapons attackType rollType) (remove_menu w) /\
     forall pickedId pickedType,
       (forall weapon,
          items_get (actor_items (w_actor w)) pickedId = Some weapon ->
          rolled rollType weapon attackType d20 w (click pickedId pickedType d20 w2)) /\
       (items_get (actor_items (w_actor w)) pickedId = None ->
          click pickedId pickedType d20 w2 = remove_menu w)).
Proof.
  intros weapons w1 w2. subst w2 w1 weapons. unfold _onAttackRollContextMenu.
  unfold _createContextMenu.
  destruct (_getEquippedWeaponsByQuality (w_actor w) attackType) as [|w0 ws] eqn:Hws.
  - split; [reflexivity |]. split; [congruence |].
    split; [discriminate | simpl; lia].
  - replace (Z.of_nat (length (w0 :: ws)) =? 0) with false
      by (symmetry; apply Z.eqb_neq; simpl; lia).
    split; [discriminate |]. split; [reflexivity |].
    split.
    + intros weapon [= <- ->]. unfold onItemClick. simpl.
      generalize (roll_of_type rollType w0 attackType d20 (remove_menu w)).
      destruct (String.eqb rollType "attack");
        [| destruct (String.eqb rollType "damage")]; exact (fun H => H).
    + intros Hlen. destruct (several _ _ Hlen) as [_ Hmany].
      assert (Hmenu : click weaponId rollType d20
                        (open_menu (RollTypeMenu (w0 :: ws) attackType) (remove_menu w))
                      = open_menu (WeaponSelectionMenu (w0 :: ws) attackType rollType)
                                  (remove_menu w)).
      { unfold onItemClick. cbn [w_menu open_menu]. rewrite Hmany. reflexivity. }
      rewrite Hmenu. split; [reflexivity |].
      intros pickedId pickedType. unfold onItemClick. simpl.
      split.
      * intros weapon ->.
        generalize (roll_of_type rollType weapon attackType d20 w).
        destruct (String.eqb rollType "attack");
          [| destruct (String.eqb rollType "damage")]; exact (fun H => H).
      * intros ->. reflexivity.
Qed.

(** X18. When a left click has shown the weapon menu (several equipped
    weapons carry the quality), picking an item of the actor closes the
    menu and posts one message for it with both rolls, the attack roll
    first and then the damage roll with the weapon's damage expression; an
    id that is not an item of the actor only closes the menu. *)
Theorem weapon_menu_pick (attackType weaponId rollType : string) (d20 d20' : Z)
    (w : World) :
  (2 <= length (_getEquippedWeaponsByQuality (w_actor w) attackType))%nat ->
  let w1 := _onAttackRoll localize format attackType d20' w in
  let w2 := click weaponId rollType d20 w1 in
  w_menu w2 = None /\ w_actor w2 = w_actor w /\
  w_notifications w2 = w_notifications w /\
  (items_get (actor_items (w_actor w)) weaponId = None -> w2 = remove_menu w) /\
  (forall weapon,
     items_get (actor_items (w_actor w)) weaponId = Some weapon ->
     exists msg atk,
       w_chat w2 = w_chat w ++ [msg] /\
       msg_weapon msg = weapon /\ msg_attackType msg = attackType /\
       msg_attack msg = Some atk /\
       attack_formula atk = attack_formula_of w attackType /\
       msg_damage msg = Some {| damage_formula := damage (item_system weapon) |} /\
       msg_rolls msg = [attack_formula_of w attackType; damage (item_system weapon)]).
Proof.
  intros Hlen w1 w2. subst w2 w1. unfold _onAttackRoll.
  destruct (several _ _ Hlen) as [-> ->].
  unfold _openWeaponContextMenu, _createContextMenu, onItemClick.
  cbn [w_menu open_menu w_actor remove_menu].
  destruct (items_get (actor_items (w_actor w)) weaponId) as [weapon|].
  - repeat split; try discriminate.
    intros ? [= <-]. do 2 eexists. repeat split.
  - repeat split; discriminate.
Qed.

End RollMenus.

Section RollMenusWitness.
Import Data DolmenSheet.

Definition two_blades : Actor :=
  sample_actor
    [sample_item "sword" Weapon true 1 (Some ["melee"]%string);
     sample_item "dagger" Weapon true 1 (Some ["melee"; "missile"]%string)].

(** One equipped missile weapon: damage only rolls its damage expression. *)
Lemma right_click_rolls_witness :
  exists msg,
    w_chat (onItemClick (fun key => key) EmptyString "damage" 7
              (_onAttackRollContextMenu (fun key => key) (fun key _ => key) "missile"
                 (sample_world two_blades)))
    = [msg] /\
    msg_rolls msg = ["1d6"%string].
Proof.
  destruct (right_click_rolls (fun key => key) (fun key _ => key)
              "missile" "damage" EmptyString 7 (sample_world two_blades))
    as (_ & _ & H & _).
  destruct (H (sample_item "dagger" Weapon true 1 (Some ["melee"; "missile"]%string))
              eq_refl) as (_ & _ & _ & _ & Hd & _).
  destruct (Hd eq_refl) as (msg & Hchat & _ & _ & _ & _ & Hrolls).
  exists msg. split; [exact Hchat | exact Hrolls].
Defined.

(** Two equipped melee weapons: the dagger is picked in the weapon menu. *)
Lemma weapon_menu_pick_witness :
  exists msg,
    w_chat (onItemClick (fun key => key) "dagger" EmptyString 20
              (_onAttackRoll (fun key => key) (fun key _ => key) "melee" 0
                 (sample_world two_blades)))
    = [msg] /\
    msg_rolls msg = ["1d20 + 3"; "1d6"]%string.
Proof.
  destruct (weapon_menu_pick (fun key => key) (fun key _ => key)
              "melee" "dagger" EmptyString 20 0 (sample_world two_blades))
    as (_ & _ & _ & _ & H); [simpl; lia |].
  destruct (H (sample_item "dagger" Weapon true 1 (Some ["melee"; "missile"]%string))
              eq_refl) as (msg & atk & Hchat & _ & _ & _ & _ & _ & Hrolls).
  exists msg. split; [exact Hchat | exact Hrolls].
Defined.

End RollMenusWitness.

(** ** Tabs *)

Section Tabs.
Import Data DolmenSheet DolmenSheetView.

Variable localize : string -> string.

Local Abbreviation getTabs := (_getTabs localize).

Definition tab_ids : list string :=
  ["stats"; "inventory"; "magic"; "details"; "notes"]%string.

Lemma is_active_spec (tabGroups : gmap string string) (groupId id : string) :
  is_active tabGroups groupId id = true <-> tabGroups !! groupId = Some id.
Proof. unfold is_active. apply bool_decide_eq_true. Qed.

Lemma tab_built (tabGroups : gmap string string) (partId : string) :
  In partId tab_ids ->
  exists tab,
    tab_of (Some (getTabs tabGroups)) "primary" partId = Some tab /\
    tab_id tab = partId /\ tab_group tab = "primary"%string /\
    tab_active tab = is_active tabGroups "primary" partId /\
    tab_cssClass tab = (if tab_active tab then "active"%string else EmptyString).
Proof.
  unfold tab_ids, tab_of, _getTabs, TABS. cbn [foldl fst snd config_id In].
  rewrite lookup_insert_eq.
  intros [<-|[<-|[<-|[<-|[<-|[]]]]]];
    rewrite ?lookup_insert_ne by discriminate; rewrite lookup_insert_eq;
    eexists; (split; [reflexivity |]); repeat split.
Qed.

(** X19. Each of the five parts stats, inventory, magic, details and notes
    has a tab object, and it is the one handed to the part; the tab is
    active, and carries the class active, exactly when it is the tab
    selected in the primary group.  After a tab of the primary group is
    chosen exactly that tab is active, choosing a tab of another group
    changes none of the tabs, and on a new sheet the stats tab is the active
    one. *)
Theorem tabs_follow_selection (tabGroups : gmap string string)
    (tabId group partId : string) :
  In partId tab_ids ->
  (exists tab,
     tab_of (Some (getTabs tabGroups)) "primary" partId = Some tab /\
     _preparePartContext partId (Some (getTabs tabGroups)) tabGroups
     = Some (FromTabs tab) /\
     tab_id tab = partId /\
     (tab_active tab = true <-> tabGroups !! "primary"%string = Some partId) /\
     (tab_cssClass tab = "active"%string <-> tab_active tab = true)) /\
  (forall tab,
     tab_of (Some (getTabs (_onChangeTab tabId "primary" tabGroups))) "primary" partId
     = Some tab ->
     (tab_active tab = true <-> partId = tabId)) /\
  (group <> "primary"%string ->
     getTabs (_onChangeTab tabId group tabGroups) = getTabs tabGroups) /\
  (forall tab,
     tab_of (Some (getTabs tabGroups_initial)) "primary" partId = Some tab ->
     (tab_active tab = true <-> partId = "stats"%string)).
Proof.
  intros Hin.
  split; [| split; [| split]].
  - destruct (tab_built tabGroups partId Hin) as (tab & Htab & Hid & _ & Hact & Hcss).
    exists tab. split; [exact Htab |]. split.
    + unfold _preparePartContext.
      replace (includes ["stats"; "inventory"; "magic"; "details"; "notes"]%string partId)
        with true by (symmetry; apply includes_In; exact Hin).
      rewrite Htab. reflexivity.
    + split; [exact Hid |]. split.
      * rewrite Hact. apply is_active_spec.
      * rewrite Hcss. destruct (tab_active tab); split; congruence.
  - intros tab Htab.
    destruct (tab_built (_onChangeTab tabId "primary" tabGroups) partId Hin)
      as (tab' & Htab' & _ & _ & Hact & _).
    rewrite Htab in Htab'. injection Htab' as <-.
    rewrite Hact, is_active_spec. unfold _onChangeTab. rewrite lookup_insert_eq.
    split; congruence.
  - intros Hne. unfold _getTabs, TABS, is_active, _onChangeTab.
    cbn [foldl fst snd config_id].
    rewrite lookup_insert_ne by congruence. reflexivity.
  - intros tab Htab.
    destruct (tab_built tabGroups_initial partId Hin) as (tab' & Htab' & _ & _ & Hact & _).
    rewrite Htab in Htab'. injection Htab' as <-.
    rewrite Hact, is_active_spec. unfold tabGroups_initial.
    rewrite lookup_singleton_eq. split; congruence.
Qed.

End Tabs.

Section TabsWitness.
Import Data DolmenSheet DolmenSheetView.

Lemma tabs_follow_selection_witness :
  exists tab,
    tab_of (Some (_getTabs (fun key => key)
                    (_onChangeTab "magic" "primary" tabGroups_initial)))
           "primary" "magic" = Some tab /\
    tab_active tab = true /\ tab_cssClass tab = "active"%string.
Proof.
  destruct (tabs_follow_selection (fun key => key)
              (_onChangeTab "magic" "primary" tabGroups_initial)
              "magic" "primary" "magic") as (H & _); [simpl; tauto |].
  destruct H as (tab & Htab & _ & _ & Hact & Hcss).
  exists tab. split; [exact Htab |].
  assert (Ha : tab_active tab = true) by (apply Hact; apply lookup_insert_eq).
  split; [exact Ha | apply Hcss; exact Ha].
Defined.

End TabsWitness.

(** ** The inventory the sheet shows *)

Section InventoryView.
Import Data DolmenSheet DolmenSheetView.

Variable localize : string -> string.
Variable ranges_of : ItemDocument -> Ranges.

Local Abbreviation getFaSymbol := (_getFaSymbol localize ranges_of).
Local Abbreviation prepareItemData := (_prepareItemData localize ranges_of).
Local Abbreviation inventory := (_prepareContext_inventory localize ranges_of).

Definition first_char (s : string) : option ascii :=
  match s with
  | String c _ => Some c
  | EmptyString => None
  end.

Lemma icon_first_char (name tooltip : string) :
  first_char (icon name tooltip) = Some "<"%char.
Proof. reflexivity. Qed.

Lemma symbol_cases (quality : string) (item : ItemDocument) :
  (In quality Schema.qualities_choices /\
   first_char (getFaSymbol quality item) = Some "<"%char) \/
  (~ In quality Schema.qualities_choices /\ getFaSymbol quality item = quality).
Proof.
  unfold _getFaSymbol.
  repeat match goal with
         | |- context [String.eqb quality ?s] =>
             destruct (String.eqb_spec quality s) as [->|?];
               [left; split; [simpl; tauto | apply icon_first_char] |]
         end.
  right. split; [| reflexivity].
  unfold Schema.qualities_choices. simpl. intuition congruence.
Qed.

(** X20. The symbol shown for a weapon quality: every quality the schema
    accepts is shown as icon markup (never as its bare id), and any other
    string is shown as the string itself; only the missile symbol depends on
    the ranges of the weapon. *)
Theorem quality_symbols (quality : string) (item item' : ItemDocument) :
  (In quality Schema.qualities_choices ->
     first_char (getFaSymbol quality item) = Some "<"%char /\
     getFaSymbol quality item <> quality) /\
  (~ In quality Schema.qualities_choices -> getFaSymbol quality item = quality) /\
  (quality <> "missile"%string -> getFaSymbol quality item = getFaSymbol quality item').
Proof.
  split; [| split].
  - intros Hin.
    destruct (symbol_cases quality item) as [(_ & Hfirst)|(Hnot & _)];
      [| contradiction].
    split; [exact Hfirst |].
    intros Heq. rewrite Heq in Hfirst.
    unfold Schema.qualities_choices in Hin. simpl in Hin.
    repeat (destruct Hin as [<-|Hin]; [discriminate Hfirst |]). exact Hin.
  - intros Hnot.
    destruct (symbol_cases quality item) as [(Hin & _)|(_ & Heq)];
      [contradiction | exact Heq].
  - intros Hne. unfold _getFaSymbol.
    destruct (String.eqb_spec quality "missile"); [contradiction | reflexivity].
Qed.

Definition shown (i : ItemDocument) : bool :=
  negb (String.eqb (type_name (item_type i)) "Spell").

Definition no_spell (p : PreparedItem) : Prop := data_type p <> Spell.

Lemma groups_in_order (items : list PreparedItem) :
  _groupItemsByType localize items
  = omap (expected_group localize items) display_order.
Proof.
  unfold _groupItemsByType, typeOrder, display_order. simpl.
  rewrite <- !groups_after_loop. reflexivity.
Qed.

Lemma members_of_expected (items : list PreparedItem) (t : ItemType) :
  match expected_group localize items t with
  | Some g => group_items g
  | None => []
  end = items_of_type t items.
Proof.
  unfold expected_group. destruct (items_of_type t items); reflexivity.
Qed.

Lemma grouped_members (items : list PreparedItem) :
  flat_map group_items (_groupItemsByType localize items)
  = items_of_type Weapon items ++ items_of_type Armor items
    ++ items_of_type Item items ++ items_of_type Treasure items
    ++ items_of_type Foraged items.
Proof.
  rewrite groups_in_order. unfold display_order.
  rewrite <- !(members_of_expected items). cbn [omap list_omap].
  repeat match goal with
         | |- context [expected_group localize items ?t] =>
             destruct (expected_group localize items t)
         end; cbn [flat_map]; rewrite ?app_nil_l, ?app_nil_r, <- ?app_assoc; reflexivity.
Qed.

Lemma by_type_permutation (items : list PreparedItem) :
  Forall no_spell items ->
  items ≡ₚ items_of_type Weapon items ++ items_of_type Armor items
           ++ items_of_type Item items ++ items_of_type Treasure items
           ++ items_of_type Foraged items.
Proof.
  induction items as [|p items IH]; intros Hall; [reflexivity |].
  inversion Hall as [|? ? Hp Hrest]; subst. specialize (IH Hrest).
  unfold no_spell in Hp. unfold items_of_type in *. cbn [List.filter].
  destruct (data_type p); try contradiction; cbn [bool_decide decide_rel]; simpl.
  - constructor. exact IH.
  - apply Permutation_cons_app. exact IH.
  - rewrite app_assoc. apply Permutation_cons_app. rewrite <- app_assoc. exact IH.
  - rewrite 2!app_assoc. apply Permutation_cons_app. rewrite <- !app_assoc. exact IH.
  - rewrite 3!app_assoc. apply Permutation_cons_app. rewrite <- !app_assoc. exact IH.
Qed.

Lemma prepared_no_spell (items : list ItemDocument) :
  Forall no_spell (map prepareItemData (List.filter shown items)).
Proof.
  apply List.Forall_forall. intros p Hp.
  apply in_map_iff in Hp as (i & <- & Hi). apply filter_In in Hi as [_ Hi].
  unfold no_spell, shown in *. simpl. intros Heq. rewrite Heq in Hi. discriminate.
Qed.

Lemma filter_filter_comm {A} (P Q : A -> bool) (l : list A) :
  List.filter P (List.filter Q l) = List.filter Q (List.filter P l).
Proof.
  induction l as [|x l IH]; simpl; [reflexivity |].
  destruct (P x) eqn:HP, (Q x) eqn:HQ; simpl; rewrite ?HP, ?HQ, IH; reflexivity.
Qed.

Lemma grouped_nonempty (items : list PreparedItem) :
  Forall no_spell items ->
  (0 <? Z.of_nat (length items)) = true <-> _groupItemsByType localize items <> [].
Proof.
  intros Hall. split.
  - intros Hlen Hnil.
    pose proof (by_type_permutation items Hall) as Hperm.
    rewrite <- grouped_members, Hnil in Hperm. simpl in Hperm.
    apply Permutation_nil_r in Hperm. subst items. discriminate Hlen.
  - intros Hne. destruct items as [|p items]; [| reflexivity].
    exfalso. apply Hne. reflexivity.
Qed.

(** X21. The inventory tab loses and invents nothing: the members of the
    equipped groups are, up to order, exactly the prepared equipped items of
    the actor that are not spells, each as often as the actor has it, and
    likewise the stowed groups for the items that are not equipped; a spell
    is in neither.  The flags that say whether there are equipped or stowed
    items are true exactly when the corresponding list of groups is not
    empty. *)
Theorem inventory_shows_every_item_once (a : Actor) :
  flat_map group_items (equippedByType (inventory a))
  ≡ₚ map prepareItemData
       (List.filter (fun i => shown i && equipped (item_system i)) (actor_items a)) /\
  flat_map group_items (stowedByType (inventory a))
  ≡ₚ map prepareItemData
       (List.filter (fun i => shown i && negb (equipped (item_system i)))
                    (actor_items a)) /\
  (hasEquippedItems (inventory a) = true <-> equippedByType (inventory a) <> []) /\
  (hasStowedItems (inventory a) = true <-> stowedByType (inventory a) <> []) /\
  Forall (fun g => Forall no_spell (group_items g))
         (equippedByType (inventory a) ++ stowedByType (inventory a)).
Proof.
  unfold _prepareContext_inventory.
  cbn [equippedByType stowedByType hasEquippedItems hasStowedItems].
  fold shown.
  set (items := List.filter shown (actor_items a)).
  assert (Hfilter : forall Q : ItemDocument -> bool,
            List.filter (fun i => shown i && Q i) (actor_items a) = List.filter Q items).
  { intros Q. subst items. induction (actor_items a) as [|i l IH]; simpl; [reflexivity |].
    destruct (shown i); simpl; [destruct (Q i) |]; rewrite IH; reflexivity. }
  assert (Hok : forall Q : ItemDocument -> bool,
            Forall no_spell (map prepareItemData (List.filter Q items))).
  { intros Q. subst items. rewrite filter_filter_comm. apply prepared_no_spell. }
  rewrite !Hfilter.
  split; [| split; [| split; [| split]]].
  - rewrite grouped_members. symmetry. apply by_type_permutation, Hok.
  - rewrite grouped_members. symmetry. apply by_type_permutation, Hok.
  - apply grouped_nonempty, Hok.
  - apply grouped_nonempty, Hok.
  - apply Forall_app. split.
    + apply List.Forall_forall. intros g Hg. apply List.Forall_forall. intros p Hp.
      assert (Hin : In p (flat_map group_items
                            (_groupItemsByType localize
                               (map prepareItemData
                                  (List.filter (fun i => equipped (item_system i)) items)))))
        by (apply in_flat_map; eauto).
      rewrite grouped_members in Hin.
      pose proof (Hok (fun i => equipped (item_system i))) as Hall.
      rewrite List.Forall_forall in Hall. apply Hall.
      rewrite !in_app_iff in Hin. unfold items_of_type in Hin.
      rewrite !filter_In in Hin. tauto.
    + apply List.Forall_forall. intros g Hg. apply List.Forall_forall. intros p Hp.
      assert (Hin : In p (flat_map group_items
                            (_groupItemsByType localize
                               (map prepareItemData
                                  (List.filter (fun i => negb (equipped (item_system i)))
                                               items)))))
        by (apply in_flat_map; eauto).
      rewrite grouped_members in Hin.
      pose proof (Hok (fun i => negb (equipped (item_system i)))) as Hall.
      rewrite List.Forall_forall in Hall. apply Hall.
      rewrite !in_app_iff in Hin. unfold items_of_type in Hin.
      rewrite !filter_In in Hin. tauto.
Qed.

End InventoryView.

(** ** Conversion inputs: loose and malformed text, round trips *)

Section LooseText.
Import DolmenSheet.

(** Text without any decimal digit. *)
Fixpoint digit_free (s : string) : bool :=
  match s with
  | EmptyString => true
  | String c s' => negb (is_digit c) && digit_free s'
  end.

Lemma digit_in_nondigit (c : ascii) : is_digit c = false -> JS.digit_in 10 c = None.
Proof.
  unfold is_digit, JS.digit_in, JS.digit_value. cbv zeta. intros ->.
  destruct ((97 <=? nat_of_ascii c) && (nat_of_ascii c <=? 122))%nat eqn:Hl.
  - apply andb_true_iff in Hl as [Hl _]. apply Nat.leb_le in Hl.
    destruct (Z.ltb_spec (Z.of_nat (nat_of_ascii c) - 87) 10); [lia | reflexivity].
  - destruct ((65 <=? nat_of_ascii c) && (nat_of_ascii c <=? 90))%nat eqn:Hu;
      [| reflexivity].
    apply andb_true_iff in Hu as [Hu _]. apply Nat.leb_le in Hu.
    destruct (Z.ltb_spec (Z.of_nat (nat_of_ascii c) - 55) 10); [lia | reflexivity].
Qed.

Lemma digit_free_trim (s : string) : digit_free s = true -> digit_free (JS.trim_start s) = true.
Proof.
  induction s as [|c s IH]; simpl; [reflexivity |].
  intros H. destruct (JS.is_whitespace c); [| exact H].
  apply andb_true_iff in H as [_ H]. exact (IH H).
Qed.

Lemma digit_free_sign (s : string) :
  digit_free s = true -> digit_free (snd (JS.strip_sign s)) = true.
Proof.
  destruct s as [|c s]; simpl; [reflexivity |]. intros H.
  destruct (Ascii.eqb c "-"); [| destruct (Ascii.eqb c "+")]; simpl;
    try exact H; apply andb_true_iff in H as [_ H]; exact H.
Qed.

Lemma digit_free_hex (s : string) :
  digit_free s = true -> JS.strip_hex_prefix s = (10, s).
Proof.
  destruct s as [|c0 [|c1 s]]; simpl; try reflexivity.
  intros H. destruct (Ascii.eqb_spec c0 "0") as [->|]; [discriminate H | reflexivity].
Qed.

Lemma digit_free_parse (s : string) :
  digit_free s = true -> JS.parse_digits 10 s None = None.
Proof.
  destruct s as [|c s]; simpl; [reflexivity |]. intros H.
  apply andb_true_iff in H as [H _]. apply negb_true_iff in H.
  rewrite (digit_in_nondigit c H). reflexivity.
Qed.

(** [parseInt] of text without a digit is [NaN]. *)
Lemma parseInt_digit_free (s : string) : digit_free s = true -> JS.parseInt s = JS.NaN.
Proof.
  intros H. unfold JS.parseInt.
  pose proof (digit_free_sign _ (digit_free_trim s H)) as H1.
  destruct (JS.strip_sign (JS.trim_start s)) as [neg s1]. simpl in H1.
  rewrite (digit_free_hex s1 H1), (digit_free_parse s1 H1). reflexivity.
Qed.

Lemma digit_free_substring (s : string) (n m : nat) :
  digit_free s = true -> digit_free (String.substring n m s) = true.
Proof.
  revert n m. induction s as [|c s IH]; intros n m H.
  - destruct n, m; reflexivity.
  - simpl in H. apply andb_true_iff in H as [Hc Hs].
    destruct n as [|n]; simpl.
    + destruct m as [|m]; simpl; [reflexivity |].
      rewrite Hc. simpl. apply IH, Hs.
    + apply IH, Hs.
Qed.

Lemma or0_parseInt_digit_free (s : string) (i j : Z) :
  digit_free s = true -> or0 (JS.parseInt (JS.substring s i j)) = JS.of_Z 0.
Proof.
  intros H. unfold JS.substring.
  rewrite parseInt_digit_free by (apply digit_free_substring, H). reflexivity.
Qed.

Lemma or0_parseInt_digit_free_all (s : string) :
  digit_free s = true -> or0 (JS.parseInt s) = JS.of_Z 0.
Proof. intros H. rewrite parseInt_digit_free by exact H. reflexivity. Qed.

(** X22. Text in which no digit occurs is read as 0 by all four conversion
    inputs, wherever the foot and inch marks are: the linked input becomes
    0 (centimeters, kilograms and pounds) or 0 feet 0 inches, and nothing
    fails. *)
Theorem malformed_text_converts_to_zero (text : string) (inp : ConversionInputs) :
  digit_free text = true ->
  updateCmFromFeetInches (set_height_feet text inp)
  = Some (set_height_cm "0" (set_height_feet text inp)) /\
  updateFeetInchesFromCm (set_height_cm text inp)
  = Some (set_height_feet (feet_inches 0 0) (set_height_cm text inp)) /\
  onWeightLbsChange (set_weight_lbs text inp)
  = Some (set_weight_kg "0" (set_weight_lbs text inp)) /\
  onWeightKgChange (set_weight_kg text inp)
  = Some (set_weight_lbs "0" (set_weight_kg text inp)).
Proof.
  intros H.
  unfold updateCmFromFeetInches, updateFeetInchesFromCm, onWeightLbsChange,
    onWeightKgChange, cm_of_feet_inches, feet_inches_of_cm, kg_of_lbs, lbs_of_kg.
  cbn [height_feet height_cm weight_lbs weight_kg set_height_feet set_height_cm
       set_weight_lbs set_weight_kg].
  rewrite !(or0_parseInt_digit_free text) by exact H.
  rewrite !(or0_parseInt_digit_free_all text) by exact H.
  split; [| split; [| split]].
  - destruct (_ && _), (0 <? _), (_ <? _); reflexivity.
  - reflexivity.
  - reflexivity.
  - reflexivity.
Qed.

Lemma malformed_text_converts_to_zero_witness :
  updateCmFromFeetInches (set_height_feet "tall" blank_inputs)
  = Some (set_height_cm "0" (set_height_feet "tall" blank_inputs)).
Proof.
  destruct (malformed_text_converts_to_zero "tall" blank_inputs) as (H & _);
    [reflexivity | exact H].
Defined.

(** Text in which the character [c] does not occur. *)
Fixpoint lacks (c : ascii) (s : string) : bool :=
  match s with
  | EmptyString => true
  | String a s' => negb (Ascii.eqb a c) && lacks c s'
  end.

(** Text that ends a number written before it: empty, or starting with a
    character that is neither a digit nor the x of a 0x prefix. *)
Definition ends_number (rest : string) : bool :=
  match rest with
  | EmptyString => true
  | String c _ => negb (is_digit c) && negb (Ascii.eqb c "x") && negb (Ascii.eqb c "X")
  end.

Lemma index_from_lacks (c : ascii) (s : string) (i : Z) :
  lacks c s = true -> JS.index_from c s i = -1.
Proof.
  revert i. induction s as [|a s IH]; intros i H; [reflexivity |].
  simpl in *. apply andb_true_iff in H as [Ha Hs]. apply negb_true_iff in Ha.
  rewrite Ha. apply IH, Hs.
Qed.

Lemma parse_digits_stop (rest : string) (v : Z) :
  ends_number rest = true -> JS.parse_digits 10 rest (Some v) = Some v.
Proof.
  destruct rest as [|c rest]; simpl; [reflexivity |]. intros H.
  apply andb_true_iff in H as [H _]. apply andb_true_iff in H as [H _].
  apply negb_true_iff in H. rewrite (digit_in_nondigit c H). reflexivity.
Qed.

Lemma hex_prefix_first (c0 : ascii) (r : string) :
  Ascii.eqb c0 "0" = false -> JS.strip_hex_prefix (String c0 r) = (10, String c0 r).
Proof. intros H. destruct r; simpl; [| rewrite H]; reflexivity. Qed.

Lemma hex_prefix_second (c0 c1 : ascii) (r : string) :
  Ascii.eqb c1 "x" || Ascii.eqb c1 "X" = false ->
  JS.strip_hex_prefix (String c0 (String c1 r)) = (10, String c0 (String c1 r)).
Proof. intros H. simpl. rewrite H, andb_false_r. reflexivity. Qed.

Lemma numeral_then_prefixes (d : Decimal.uint) (rest : string) :
  d <> Decimal.Nil -> ends_number rest = true ->
  JS.strip_sign (JS.trim_start (NilEmpty.string_of_uint d +:+ rest))
  = (false, NilEmpty.string_of_uint d +:+ rest) /\
  JS.strip_hex_prefix (NilEmpty.string_of_uint d +:+ rest)
  = (10, NilEmpty.string_of_uint d +:+ rest).
Proof.
  intros Hd Hrest. split.
  - destruct d; try congruence; reflexivity.
  - destruct d as [|d|d|d|d|d|d|d|d|d|d]; try congruence;
      cbn [NilEmpty.string_of_uint]; rewrite append_cons;
      try (apply hex_prefix_first; reflexivity).
    destruct d; cbn [NilEmpty.string_of_uint]; rewrite ?append_cons;
      try (apply hex_prefix_second; reflexivity).
    change (EmptyString +:+ rest) with rest.
    destruct rest as [|c rest]; [reflexivity |].
    simpl in Hrest. apply andb_true_iff in Hrest as [Hrest HX].
    apply andb_true_iff in Hrest as [_ Hx].
    apply negb_true_iff in Hx, HX.
    apply hex_prefix_second. rewrite Hx, HX. reflexivity.
Qed.

Lemma parseInt_numeral_then (d : Decimal.uint) (rest : string) :
  d <> Decimal.Nil -> ends_number rest = true ->
  JS.parseInt (NilEmpty.string_of_uint d +:+ rest)
  = if uint_value d 0 =? 0 then S754_zero false else JS.of_Z (uint_value d 0).
Proof.
  intros Hd Hrest. unfold JS.parseInt.
  destruct (numeral_then_prefixes d rest Hd Hrest) as [-> ->].
  assert (Hparse : JS.parse_digits 10 (NilEmpty.string_of_uint d +:+ rest) None
                   = Some (uint_value d 0)).
  { destruct d; try congruence; cbn [NilEmpty.string_of_uint]; rewrite append_cons;
      cbn [JS.parse_digits];
      match goal with
      | |- context [JS.digit_in 10 ?c] =>
          let v := eval vm_compute in (JS.digit_in 10 c) in
          change (JS.digit_in 10 c) with v
      end; cbv iota;
      rewrite parse_digits_numeral; apply parse_digits_stop, Hrest. }
  rewrite Hparse. reflexivity.
Qed.

(** [parseInt] reads the number and ignores the text after it. *)
Lemma parseInt_decimal_then (n : Z) (rest : string) :
  0 <= n -> ends_number rest = true ->
  JS.parseInt (JS.decimal n +:+ rest) = JS.of_Z n.
Proof.
  intros Hn Hrest. destruct (decimal_numeral n Hn) as (d & Hd & -> & <-).
  rewrite (parseInt_numeral_then d rest Hd Hrest).
  destruct (Z.eqb_spec (uint_value d 0) 0) as [->|]; reflexivity.
Qed.

End LooseText.

Section LooseNumbers.
Import DolmenSheet.

Lemma marks_differ :
  Ascii.eqb JS.quote JS.quote = true /\ Ascii.eqb JS.dquote JS.dquote = true /\
  Ascii.eqb JS.quote JS.dquote = false /\ Ascii.eqb JS.dquote JS.quote = false.
Proof. repeat split. Qed.

Lemma indexOf_after_number (n : Z) (c : ascii) (rest : string) :
  0 <= n -> is_digit c = false ->
  JS.indexOf (JS.decimal n +:+ rest) c
  = JS.index_from c rest (Z.of_nat (String.length (JS.decimal n))).
Proof.
  intros Hn Hc. unfold JS.indexOf.
  rewrite (index_from_digits _ _ _ _ (decimal_digits_only n Hn) Hc).
  reflexivity.
Qed.

(** X23. Loosely written numbers in the conversion inputs.  In the height
    input a number alone, or followed by text without marks, is read as
    feet; feet with the foot mark but no closing inch mark are read as feet
    only, whatever follows the foot mark; a number with only the inch mark
    is read as inches.  In the centimeter, pound and kilogram inputs the
    text after the number is ignored. *)
Theorem loose_text_is_read (n : Z) (rest : string) :
  0 <= n ->
  (ends_number rest = true -> lacks JS.quote rest = true -> lacks JS.dquote rest = true ->
     cm_of_feet_inches (JS.decimal n +:+ rest) = double_cm n 0) /\
  (lacks JS.dquote rest = true ->
     cm_of_feet_inches (JS.decimal n +:+ String JS.quote rest) = double_cm n 0) /\
  (lacks JS.quote rest = true ->
     cm_of_feet_inches (JS.decimal n +:+ String JS.dquote rest) = double_cm 0 n) /\
  (ends_number rest = true ->
     feet_inches_of_cm (JS.decimal n +:+ rest) = double_feet_inches n /\
     kg_of_lbs (JS.decimal n +:+ rest) = double_kg n /\
     lbs_of_kg (JS.decimal n +:+ rest) = double_lbs n).
Proof.
  intros Hn.
  pose proof (decimal_nonempty n Hn) as Hlen.
  set (len := Z.of_nat (String.length (JS.decimal n))) in *.
  assert (Hpos : 0 < len) by (subst len; lia).
  split; [| split; [| split]].
  - intros Hend Hq Hd. unfold cm_of_feet_inches.
    rewrite !indexOf_after_number by (exact Hn || reflexivity).
    rewrite !index_from_lacks by assumption.
    change ((-1 =? -1) && (-1 =? -1)) with true.
    change (0 <? -1) with false. change (-1 <? -1) with false. cbv iota.
    rewrite (parseInt_decimal_then n rest Hn Hend), (or0_of_Z n Hn). reflexivity.
  - intros Hd. unfold cm_of_feet_inches.
    rewrite !indexOf_after_number by (exact Hn || reflexivity).
    fold len. cbn [JS.index_from].
    destruct marks_differ as (-> & _ & -> & _).
    rewrite (index_from_lacks _ _ _ Hd).
    destruct (Z.eqb_spec len (-1)); [lia |].
    destruct (Z.ltb_spec 0 len); [| lia].
    destruct (Z.ltb_spec len (-1)); [lia |].
    cbn [andb]. cbv iota. subst len.
    rewrite JS_substring_prefix, (parseInt_decimal n Hn), (or0_of_Z n Hn).
    reflexivity.
  - intros Hq. unfold cm_of_feet_inches.
    rewrite !indexOf_after_number by (exact Hn || reflexivity).
    fold len. cbn [JS.index_from].
    destruct marks_differ as (_ & -> & _ & ->).
    rewrite (index_from_lacks _ _ _ Hq).
    destruct (Z.eqb_spec len (-1)); [lia |].
    destruct (Z.ltb_spec (-1) len); [| lia].
    change (0 <? -1) with false. change (-1 + 1) with 0.
    rewrite andb_false_r. cbv iota. subst len.
    rewrite JS_substring_prefix, (parseInt_decimal n Hn), (or0_of_Z n Hn).
    reflexivity.
  - intros Hend.
    unfold feet_inches_of_cm, kg_of_lbs, lbs_of_kg.
    rewrite (parseInt_decimal_then n rest Hn Hend), (or0_of_Z n Hn).
    repeat split.
Qed.

(** Six foot something: read as 6 feet, that is 183 cm. *)
Lemma loose_text_is_read_witness :
  JS.toString (cm_of_feet_inches "6 ft") = Some "183"%string /\
  JS.toString (kg_of_lbs "150lbs") = Some "68"%string.
Proof.
  split.
  - destruct (loose_text_is_read 6 " ft") as (H & _); [lia |].
    change ("6 ft"%string) with (JS.decimal 6 +:+ " ft").
    rewrite H by reflexivity. vm_compute. reflexivity.
  - destruct (loose_text_is_read 150 "lbs") as (_ & _ & _ & H); [lia |].
    destruct (H eq_refl) as (_ & Hkg & _).
    change ("150lbs"%string) with (JS.decimal 150 +:+ "lbs").
    rewrite Hkg. vm_compute. reflexivity.
Defined.

End LooseNumbers.

Section HeightRoundTrip.
Import DolmenSheet.

Lemma round_half_up_bounds (n d : Z) :
  0 < d ->
  2 * d * round_half_up n d <= 2 * n + d < 2 * d * round_half_up n d + 2 * d.
Proof.
  intros Hd. unfold round_half_up.
  pose proof (Z.div_mod (2 * n + d) (2 * d) ltac:(lia)) as H.
  pose proof (Z.mod_pos_bound (2 * n + d) (2 * d) ltac:(lia)) as B.
  lia.
Qed.

Lemma round_half_up_unique (n d q : Z) :
  0 < d -> 2 * d * q <= 2 * n + d < 2 * d * q + 2 * d -> round_half_up n d = q.
Proof.
  intros Hd H. unfold round_half_up. symmetry.
  apply (Z.div_unique _ _ q (2 * n + d - 2 * d * q)); lia.
Qed.

Lemma feet_set (F I : Z) (inp : ConversionInputs) :
  0 <= F <= 49 -> 0 <= I <= 49 ->
  updateCmFromFeetInches (set_height_feet (feet_inches F I) inp)
  = Some (set_height_cm (JS.decimal (round_half_up ((F * 12 + I) * 254) 100))
                        (set_height_feet (feet_inches F I) inp)).
Proof.
  intros HF HI. unfold updateCmFromFeetInches. simpl height_feet.
  rewrite (cm_of_feet_inches_parsed F I) by lia.
  fold (double_cm F I). rewrite (double_cm_exact F I HF HI). reflexivity.
Qed.

Lemma cm_set (cm : Z) (inp : ConversionInputs) :
  0 <= cm <= 999 ->
  updateFeetInchesFromCm (set_height_cm (JS.decimal cm) inp)
  = Some (set_height_feet
            (feet_inches (round_half_up (cm * 100) 254 / 12)
                         (round_half_up (cm * 100) 254 mod 12))
            (set_height_cm (JS.decimal cm) inp)).
Proof.
  intros Hcm. unfold updateFeetInchesFromCm. simpl height_cm.
  rewrite (feet_inches_of_cm_parsed cm) by lia.
  change (double_feet_inches cm ≫= (fun v =>
            Some (set_height_feet v (set_height_cm (JS.decimal cm) inp)))
          = Some (set_height_feet
                    (feet_inches (round_half_up (cm * 100) 254 / 12)
                                 (round_half_up (cm * 100) 254 mod 12))
                    (set_height_cm (JS.decimal cm) inp))).
  rewrite (double_feet_inches_exact cm Hcm). reflexivity.
Qed.

(** X24. Height round trips.  A height of up to 31 feet with 0 to 11
    inches, converted to centimeters and those converted back, gives the
    same feet and inches again.  A height of up to 999 cm, converted to feet
    and inches (the inches always from 0 to 11) and those converted back,
    gives the centimeters again or differs by a single centimeter. *)
Theorem height_round_trips (F I cm : Z) (inp : ConversionInputs) :
  0 <= F <= 31 -> 0 <= I <= 11 -> 0 <= cm <= 999 ->
  (exists c,
     let typed := set_height_feet (feet_inches F I) inp in
     updateCmFromFeetInches typed = Some (set_height_cm (JS.decimal c) typed) /\
     updateFeetInchesFromCm (set_height_cm (JS.decimal c) typed)
     = Some (set_height_cm (JS.decimal c) typed)) /\
  (exists F' I' c',
     let typed := set_height_cm (JS.decimal cm) inp in
     0 <= I' <= 11 /\
     updateFeetInchesFromCm typed = Some (set_height_feet (feet_inches F' I') typed) /\
     updateCmFromFeetInches (set_height_feet (feet_inches F' I') typed)
     = Some (set_height_cm (JS.decimal c') (set_height_feet (feet_inches F' I') typed)) /\
     Z.abs (c' - cm) <= 1).
Proof.
  intros HF HI Hcm. split.
  - set (t := F * 12 + I).
    set (c := round_half_up (t * 254) 100).
    pose proof (round_half_up_bounds (t * 254) 100 ltac:(lia)) as Hc. fold c in Hc.
    assert (Hback : round_half_up (c * 100) 254 = t)
      by (apply round_half_up_unique; lia).
    exists c. cbv zeta. split.
    + apply feet_set; lia.
    + rewrite cm_set by (subst t; lia). rewrite Hback. subst t.
      replace (F * 12 + I) with (I + F * 12) by lia.
      rewrite Z.div_add, Z.mod_add by lia.
      rewrite Z.div_small, Z.mod_small by lia. reflexivity.
  - set (t := round_half_up (cm * 100) 254).
    pose proof (round_half_up_bounds (cm * 100) 254 ltac:(lia)) as Ht. fold t in Ht.
    pose proof (Z.div_mod t 12 ltac:(lia)) as Hdm.
    pose proof (Z.mod_pos_bound t 12 ltac:(lia)) as Hm.
    set (c' := round_half_up ((t / 12 * 12 + t mod 12) * 254) 100).
    pose proof (round_half_up_bounds ((t / 12 * 12 + t mod 12) * 254) 100 ltac:(lia)) as Hc.
    fold c' in Hc.
    exists (t / 12), (t mod 12), c'. cbv zeta.
    split; [lia |]. split; [apply cm_set; lia |].
    split; [apply feet_set; lia | lia].
Qed.

(** 5 feet 10 inches is 178 cm and back. *)
Lemma height_round_trips_witness :
  exists c,
    updateCmFromFeetInches (set_height_feet (feet_inches 5 10) blank_inputs)
    = Some (set_height_cm (JS.decimal c) (set_height_feet (feet_inches 5 10) blank_inputs)) /\
    updateFeetInchesFromCm
      (set_height_cm (JS.decimal c) (set_height_feet (feet_inches 5 10) blank_inputs))
    = Some (set_height_cm (JS.decimal c) (set_height_feet (feet_inches 5 10) blank_inputs)).
Proof.
  destruct (height_round_trips 5 10 178 blank_inputs) as (H & _); [lia | lia | lia |].
  exact H.
Defined.

End HeightRoundTrip.

Section ExperiencePreview.
Import Data DolmenSheet DolmenSheetXP.

Definition number_eqb (x y : JS.Number) : bool :=
  match x, y with
  | S754_zero s, S754_zero t => Bool.eqb s t
  | S754_infinity s, S754_infinity t => Bool.eqb s t
  | S754_nan, S754_nan => true
  | S754_finite s m e, S754_finite t n f => Bool.eqb s t && Pos.eqb m n && Z.eqb e f
  | _, _ => false
  end.

Lemma number_eqb_eq (x y : JS.Number) : number_eqb x y = true -> x = y.
Proof.
  destruct x as [s| s| |s m e], y as [t| t| |t n f]; simpl; try discriminate;
    try reflexivity.
  - intros H. apply Bool.eqb_prop in H. congruence.
  - intros H. apply Bool.eqb_prop in H. congruence.
  - intros H. apply andb_true_iff in H as [H He]. apply andb_true_iff in H as [Hs Hm].
    apply Bool.eqb_prop in Hs. apply Pos.eqb_eq in Hm. apply Z.eqb_eq in He. congruence.
Qed.

Definition is_zero (x : JS.Number) : bool :=
  match x with
  | S754_zero _ => true
  | _ => false
  end.

(** With nothing gained, a bonus from -100 to 100 is read as entered and
    the amount added is a zero. *)
Definition nothing_added (b : Z) : bool :=
  let bonus := or0 (JS.parseInt (JS.decimal b)) in
  number_eqb bonus (JS.of_Z b) && is_zero (adjustedXP (JS.of_Z 0) bonus).

Lemma nothing_added_all : forallb (fun i => nothing_added (i - 100)) (upto 201) = true.
Proof. vm_cast_no_check (eq_refl true). Qed.

Lemma of_Z_nonneg (n : Z) :
  0 <= n -> JS.of_Z n = S754_zero false \/ JS.falsy (JS.of_Z n) = false.
Proof.
  intros Hn. destruct n as [|p|p]; [left; reflexivity | | lia].
  unfold JS.of_Z, binary_normalize, binary_round.
  destruct (shl_align p 0 (fexp JS.prec JS.emax (Z.pos (digits2_pos p) + 0))) as [mz ez].
  apply binary_round_aux_truthy. lia.
Qed.

Lemma add_zero (n : Z) (z : JS.Number) :
  0 <= n -> is_zero z = true -> JS.add (JS.of_Z n) z = JS.of_Z n.
Proof.
  intros Hn Hz. destruct z as [s| | |]; try discriminate Hz.
  destruct (of_Z_nonneg n Hn) as [->|H].
  - destruct s; reflexivity.
  - destruct (JS.of_Z n) as [t|t| |t m e]; try discriminate H; reflexivity.
Qed.

(** X25. The total shown in the experience dialog while typing is the text
    of the total the add button stores, whatever is typed.  When the
    gained input holds no number and the bonus is between -100 and 100, the
    add button stores the current experience unchanged and the bonus as
    entered. *)
Theorem xp_preview_and_blank_gain (a : Actor) (gainedVal bonusVal : string) (b : Z) :
  updateTotal a gainedVal bonusVal
  = JS.toString (system_xp_value (_openXPDialog_add a gainedVal bonusVal)) /\
  (0 <= xp_value (xp (actor_system a)) -> digit_free gainedVal = true ->
   -100 <= b <= 100 ->
     _openXPDialog_add a gainedVal (JS.decimal b)
     = {| system_xp_value := JS.of_Z (xp_value (xp (actor_system a)));
          system_xp_modifier := JS.of_Z b |}).
Proof.
  split; [reflexivity |].
  intros Hxp Hgained Hb. unfold _openXPDialog_add.
  rewrite or_elseZ_0, (or0_parseInt_digit_free_all gainedVal Hgained).
  pose proof (forallb_upto _ _ nothing_added_all (b + 100) ltac:(lia)) as H.
  cbv beta in H. replace (b + 100 - 100) with b in H by lia.
  unfold nothing_added in H. apply andb_true_iff in H as [Hbonus Hzero].
  apply number_eqb_eq in Hbonus. rewrite Hbonus in *.
  rewrite (add_zero _ _ Hxp Hzero). reflexivity.
Qed.

Lemma xp_preview_and_blank_gain_witness :
  _openXPDialog_add (xp_actor 250) EmptyString "-10"
  = {| system_xp_value := JS.of_Z 250; system_xp_modifier := JS.of_Z (-10) |}.
Proof.
  destruct (xp_preview_and_blank_gain (xp_actor 250) EmptyString EmptyString (-10))
    as (_ & H).
  apply H; [simpl; lia | reflexivity | lia].
Defined.

End ExperiencePreview.

(** ** The label of the creature type *)

Section CreatureTypeLabel.
Import Data AdventurerDataModel DolmenSheetView.

Variable localize : string -> string.

(** X26. The creature-type label of the sheet is always an entry of the
    creature-type dropdown: for an actor whose derived data has been
    prepared, whatever its kindred, the dropdown has the derived creature
    type as a key and shows the same label for it. *)
Theorem creature_type_label_offered (d : AdventurerData) (items : list ItemDocument) :
  let a := {| actor_system := prepareDerivedData d; actor_items := items |} in
  Dropdowns.creatureTypeChoices localize !! creatureType (actor_system a)
  = Some (creatureTypeLabel localize a).
Proof.
  cbv zeta. unfold Dropdowns.creatureTypeChoices, creatureTypeLabel.
  rewrite buildChoices_lookup. cbn [actor_system creatureType prepareDerivedData].
  rewrite creatureType_cases.
  destruct (String.eqb "grimalkin" (kindred d) || String.eqb "elf" (kindred d));
    [reflexivity |].
  destruct (String.eqb "woodgrue" (kindred d)); reflexivity.
Qed.

End CreatureTypeLabel.

(** ** The remove-skill button *)

Section RemoveSkillButton.
Import Data DolmenSheet DolmenSheetSkills.

Definition position_read (i : Z) : bool :=
  match JS.of_Z i with
  | S754_nan | S754_infinity _ => false
  | x => bool_decide (JS.to_Z x = Some i)
  end.

Lemma positions_read : forallb position_read (upto 1000) = true.
Proof. vm_cast_no_check (eq_refl true). Qed.

Lemma splice_start_of_Z (i len : Z) :
  0 <= i <= 999 -> splice_start (JS.of_Z i) len = i.
Proof.
  intros Hi. pose proof (forallb_upto _ _ positions_read i ltac:(lia)) as H.
  unfold position_read in H. unfold splice_start.
  destruct (JS.of_Z i) as [s|s| |s m e]; try discriminate H;
    apply bool_decide_eq_true in H; rewrite H; reflexivity.
Qed.

Lemma splice1_first {A} (l : list A) : splice1 l 0 = drop 1 l.
Proof. unfold splice1. simpl. rewrite Z.min_l by lia. reflexivity. Qed.

(** X27. The remove button of an extra skill removes the skill at the
    position written in its [data-skill-index] (positions up to 999); when
    the index is missing or holds no digit, the button removes the first
    skill of the list. *)
Theorem remove_skill_button (i : Z) (text : string) (w : World) :
  0 <= i <= 999 ->
  digit_free text = true ->
  _onRemoveSkill (Some (JS.decimal i)) w = _removeSkill i w /\
  held (_onRemoveSkill (Some text) w) = drop 1 (held w) /\
  held (_onRemoveSkill None w) = drop 1 (held w).
Proof.
  intros Hi Htext. unfold _onRemoveSkill. cbn [from_option id].
  rewrite (parseInt_decimal i) by lia.
  rewrite (splice_start_of_Z i _ Hi).
  rewrite (parseInt_digit_free text Htext).
  split; [reflexivity |].
  split; apply (splice1_first (held w)).
Qed.

Lemma remove_skill_button_witness :
  let w := sample_world (skilled_actor ["alertness"; "stalking"; "tracking"]%string) in
  map skill_id (held (_onRemoveSkill (Some "2"%string) w))
  = ["alertness"; "stalking"]%string /\
  map skill_id (held (_onRemoveSkill (Some "last"%string) w))
  = ["stalking"; "tracking"]%string.
Proof.
  intros w.
  destruct (remove_skill_button 2 "last" w) as (H2 & Hlast & _);
    [lia | reflexivity |].
  change ("2"%string) with (JS.decimal 2).
  rewrite H2, Hlast. split; reflexivity.
Defined.

End RemoveSkillButton.
